(** * blockchain-data-analyzer: the resumable batch-collection engine

    A shallow embedding of [BlockchainService] (retry loop, window loop,
    page loop, resume logic), of [FileSystemStorage] (CSV appends and the
    [state.json] cursors), of [EtherscanClient.makeRequest] and of
    [RateLimiter], with the properties of the collection engine proved
    against it.

    Conventions of the embedding:
    - JavaScript numbers that hold block numbers, page numbers, counts and
      millisecond delays are integers ([Z]);
    - a [Promise] that rejects is a [Throw], one that resolves is a [Ret];
      a loop that has no bound in the source runs on fuel and answers
      [OutOfFuel] when the fuel is spent;
    - logger calls and [setTimeout] delays of the service are recorded, in
      order, in the [trace] of the world;
    - dates are epoch milliseconds read from the clock field of the
      component that asks for them;
    - the numbers of [RateLimiter] (a quotient of two numbers and the
      times that are compared with it) are rationals ([Q]). *)

From Stdlib Require Import QArith Qminmax Lqa.
From Stdlib Require Import ZArith List String Ascii Bool Lia.
From Stdlib Require Import Sorting.Sorted Sorting.Permutation.
From stdpp Require Import base gmap strings pretty.
Import ListNotations.
Open Scope Z_scope.

(** ** JavaScript values shared by all components *)

(** [s.includes(sub)] on strings. *)
Fixpoint includes (sub s : string) : bool :=
  String.prefix sub s ||
  match s with
  | EmptyString => false
  | String _ rest => includes sub rest
  end.

(** Truthiness of a number in [x || y] and [c ? a : b] ([NaN] does not occur
    for integers). *)
Definition truthy (n : Z) : bool := negb (n =? 0).

(** [opt || dflt] for an optional number: [undefined] and [0] both fall
    through to the default. *)
Definition orDefault (opt : option Z) (dflt : Z) : Z :=
  match opt with
  | Some n => if truthy n then n else dflt
  | None => dflt
  end.

(** The error classes the engine distinguishes with [instanceof]. *)
Inductive JsError : Type :=
| EtherscanError (message : string)
| StorageError (message : string)
| Error (message : string).

Definition message (e : JsError) : string :=
  match e with
  | EtherscanError m | StorageError m | Error m => m
  end.

Definition isEtherscanError (e : JsError) : bool :=
  match e with EtherscanError _ => true | _ => false end.

(** ** Entities *)

(** [src/core/entities/Transaction.ts] *)
Record Transaction : Type := mkTransaction {
  hash : string;
  blockNumber : Z;
  timeStamp : Z;
  from : string;
  to : string;
  value : string;
  gas : string;
  gasPrice : string;
  isError : string;
  txreceipt_status : string;
  input : string;
  contractAddress : string;
  methodId : string;
  functionName : string
}.

(** [src/core/entities/TokenTransfer.ts] *)
Record TokenTransfer : Type := mkTokenTransfer {
  tt_blockNumber : Z;
  tt_timeStamp : Z;
  tt_hash : string;
  tt_from : string;
  tt_to : string;
  tt_value : string;
  tt_contractAddress : string;
  tokenName : string;
  tokenSymbol : string;
  tokenDecimal : string
}.

(** [src/core/entities/Organization.ts], the fields [analyzeOrganization]
    fills in. *)
Record Organization : Type := mkOrganization {
  org_address : string;
  org_name : string;
  chainId : Z;
  dateAdded : Z
}.

(** [QueryOptions] of [IBlockchainDataProvider]. *)
Inductive SortOrder : Type := asc | desc.

Record QueryOptions : Type := mkQueryOptions {
  q_startBlock : option Z;
  q_endBlock : option Z;
  q_page : option Z;
  q_offset : option Z;
  q_sort : option SortOrder
}.

(** ** Results of asynchronous calls, and the state-and-error monad *)

Inductive Res (A : Type) : Type :=
| Ret (a : A)
| Throw (e : JsError)
| OutOfFuel.
Arguments Ret {A} a.
Arguments Throw {A} e.
Arguments OutOfFuel {A}.

Definition M (St A : Type) : Type := St -> Res A * St.

Definition ret {St A} (a : A) : M St A := fun s => (Ret a, s).
Definition throw {St A} (e : JsError) : M St A := fun s => (Throw e, s).

Definition bind {St A B} (m : M St A) (k : A -> M St B) : M St B :=
  fun s =>
    match m s with
    | (Ret a, s') => k a s'
    | (Throw e, s') => (Throw e, s')
    | (OutOfFuel, s') => (OutOfFuel, s')
    end.

(** [try { m } catch (error) { handler(error) }] *)
Definition tryCatch {St A} (m : M St A) (handler : JsError -> M St A) : M St A :=
  fun s =>
    match m s with
    | (Throw e, s') => handler e s'
    | r => r
    end.

Definition modify {St} (f : St -> St) : M St unit := fun s => (Ret tt, f s).
Definition gets {St A} (f : St -> A) : M St A := fun s => (Ret (f s), s).

Declare Scope js_scope.
Delimit Scope js_scope with js.
Notation "x <- c ;; k" := (bind c (fun x => k))
  (at level 100, c at next level, right associativity) : js_scope.
Notation "c ;;; k" := (bind c (fun _ => k))
  (at level 100, right associativity) : js_scope.
Open Scope js_scope.

(** ** The two collaborators of the service *)

(** [IBlockchainDataProvider]: a provider with private state [P]. *)
Class BlockchainDataProvider (P : Type) : Type := {
  getTransactions : string -> QueryOptions -> M P (list Transaction);
  getInternalTransactions : string -> QueryOptions -> M P (list Transaction);
  getTokenTransfers : string -> QueryOptions -> M P (list TokenTransfer)
}.

(** The persisted collection state ([StorageState] of [IDataStorage.ts]). *)
Record TypeCursor : Type := mkTypeCursor {
  lastBlock : Z;
  count : Z;
  tc_lastProcessedTimestamp : Z
}.

Record TransactionTypes : Type := mkTransactionTypes {
  normal : TypeCursor;
  internal : TypeCursor;
  tokenTransfers : TypeCursor
}.

Record ContractEvents : Type := mkContractEvents {
  ce_lastBlock : Z;
  eventCounts : gmap string Z
}.

Record EventsState : Type := mkEventsState {
  ev_lastBlock : Z;
  ev_count : Z;
  ev_lastProcessedTimestamp : Z;
  contractAddresses : gmap string ContractEvents
}.

Record StorageState : Type := mkStorageState {
  lastProcessedBlock : Z;
  lastProcessedTimestamp : Z;
  totalTransactions : Z;
  transactionTypes : TransactionTypes;
  events : option EventsState
}.

Inductive TxType : Type := Normal | Internal.

(** [IDataStorage]: a store with private state [S].  [saveTransactions] and
    [saveTokenTransfers] answer with the contents of the array they were
    handed as it is after the call: the array is shared with the caller and
    [saveTransactions] sorts it in place. *)
Class DataStorage (S : Type) : Type := {
  saveOrganization : Organization -> M S unit;
  saveTransactions : string -> list Transaction -> TxType -> M S (list Transaction);
  saveTokenTransfers : string -> list TokenTransfer -> M S (list TokenTransfer);
  getLastProcessedState : string -> M S (option StorageState)
}.

(** ** BlockchainService *)

Module BlockchainService.

Definition MAX_RECORDS_PER_CALL : Z := 100.
Definition BLOCK_RANGE : Z := 50000.
Definition DELAY_BETWEEN_CALLS : Z := 250.
Definition MAX_RETRIES : Z := 3.
Definition RETRY_DELAY : Z := 10000.

(** What the service itself does that can be observed from outside: its
    logger calls and the timers it waits on. *)
Inductive Event : Type :=
| LogStart (name address : string)
| LogResuming (st : StorageState)
| LogProcessing (description : string) (currentStart currentEnd : Z)
| LogSaved (n : Z) (description : string) (total currentStart currentEnd page : Z)
| LogRetry (description : string) (attempt delayTime : Z) (error : JsError)
| LogNoneFound (description : string) (currentStart currentEnd : Z)
| LogRateLimit
| LogCompleted (description : string) (total : Z)
| LogAnalysisCompleted (name : string)
| LogAnalysisFailed (name : string) (error : JsError)
| LogBlockNumberFailed
| Delay (ms : Z).

(** The world a service runs in: its provider, its storage, the answer the
    JSON-RPC node gives to [getBlockNumber] ([None]: the call fails), the
    date [new Date()] reads and the trace of the service's own events. *)
Record World (P S : Type) : Type := mkWorld {
  dataProvider : P;
  storage : S;
  rpcBlockNumber : option Z;
  today : Z;
  trace : list Event
}.
Arguments mkWorld {P S}.
Arguments dataProvider {P S}.
Arguments storage {P S}.
Arguments rpcBlockNumber {P S}.
Arguments today {P S}.
Arguments trace {P S}.

Section Service.
Context {P S : Type}.

Abbreviation W := (World P S).

Definition emit (ev : Event) : M W unit :=
  modify (fun w => mkWorld (dataProvider w) (storage w) (rpcBlockNumber w)
                           (today w) (trace w ++ [ev])).

(** A call into the provider touches the provider only. *)
Definition onProvider {A} (m : M P A) : M W A :=
  fun w =>
    let '(r, p') := m (dataProvider w) in
    (r, mkWorld p' (storage w) (rpcBlockNumber w) (today w) (trace w)).

(** A call into the storage touches the storage only. *)
Definition onStorage {A} (m : M S A) : M W A :=
  fun w =>
    let '(r, s') := m (storage w) in
    (r, mkWorld (dataProvider w) s' (rpcBlockNumber w) (today w) (trace w)).

(** [delay(ms = DELAY_BETWEEN_CALLS)] *)
Definition delay (ms : Z) : M W unit := emit (Delay ms).

(** [shouldRetry] of [retryOperation]. *)
Definition shouldRetry (attempt : Z) (error : JsError) : bool :=
  let isLastAttempt := attempt =? MAX_RETRIES in
  negb isLastAttempt &&
  (negb (isEtherscanError error)
   || includes "timeout" (message error)
   || includes "rate limit" (message error)).

(** The [for] loop of [retryOperation]; [remaining] counts the iterations
    the loop condition [attempt <= MAX_RETRIES] still allows. *)
Fixpoint retryLoop {A} (remaining : nat) (attempt : Z)
    (operation : M W A) (description : string) : M W A :=
  match remaining with
  | O =>
      throw (Error ("Failed after " +:+ pretty MAX_RETRIES +:+ " attempts: "
                    +:+ description))
  | Datatypes.S remaining' =>
      tryCatch operation (fun error =>
        if shouldRetry attempt error then
          let delayTime := RETRY_DELAY * attempt in
          emit (LogRetry description attempt delayTime error) ;;;
          delay delayTime ;;;
          retryLoop remaining' (attempt + 1) operation description
        else throw error)
  end.

Definition retryOperation {A} (operation : M W A) (description : string) : M W A :=
  retryLoop (Z.to_nat MAX_RETRIES) 1 operation description.

Section Batch.
Context {T : Type}.
Variable fetchFn : Z -> Z -> Z -> M P (list T).
Variable saveFn : list T -> M S (list T).
Variable endBlock : Z.
Variable description : string.

Definition fetchDescription (page currentStart currentEnd : Z) : string :=
  "Fetching " +:+ description +:+ " page " +:+ pretty page +:+ " for blocks "
  +:+ pretty currentStart +:+ "-" +:+ pretty currentEnd.

(** The inner [while (hasMoreData)] loop for one window.  The local
    [totalProcessed] outlives an exception of the loop, so the loop answers
    with its value next to the result. *)
Fixpoint pageLoop (fuel : nat) (currentStart currentEnd page totalProcessed : Z)
    (w : W) : Res unit * Z * W :=
  match fuel with
  | O => (OutOfFuel, totalProcessed, w)
  | Datatypes.S fuel' =>
      match retryOperation (onProvider (fetchFn currentStart currentEnd page))
              (fetchDescription page currentStart currentEnd) w with
      | (Ret items, w1) =>
          if (Z.of_nat (length items) =? 0) then (Ret tt, totalProcessed, w1)
          else
            match onStorage (saveFn items) w1 with
            | (Ret items', w2) =>
                let n := Z.of_nat (length items') in
                let totalProcessed' := totalProcessed + n in
                let w3 := snd (emit (LogSaved n description totalProcessed'
                                       currentStart currentEnd page) w2) in
                if n <? MAX_RECORDS_PER_CALL then (Ret tt, totalProcessed', w3)
                else
                  pageLoop fuel' currentStart currentEnd (page + 1) totalProcessed'
                    (snd (delay DELAY_BETWEEN_CALLS w3))
            | (Throw e, w2) => (Throw e, totalProcessed, w2)
            | (OutOfFuel, w2) => (OutOfFuel, totalProcessed, w2)
            end
      | (Throw e, w1) => (Throw e, totalProcessed, w1)
      | (OutOfFuel, w1) => (OutOfFuel, totalProcessed, w1)
      end
  end.

(** The outer [while (currentStart <= endBlock)] loop. *)
Fixpoint windowLoop (fuel : nat) (currentStart totalProcessed : Z) (w : W)
    : Res unit * W :=
  if currentStart <=? endBlock then
    match fuel with
    | O => (OutOfFuel, w)
    | Datatypes.S fuel' =>
        let currentEnd := Z.min (currentStart + BLOCK_RANGE - 1) endBlock in
        let w0 := snd (emit (LogProcessing description currentStart currentEnd) w) in
        match pageLoop fuel' currentStart currentEnd 1 totalProcessed w0 with
        | (Ret _, total', w1) => windowLoop fuel' (currentEnd + 1) total' w1
        | (Throw error, total', w1) =>
            if isEtherscanError error then
              if includes "No transactions found" (message error) then
                windowLoop fuel' (currentEnd + 1) total'
                  (snd (emit (LogNoneFound description currentStart currentEnd) w1))
              else if includes "Max rate limit reached" (message error) then
                windowLoop fuel' currentStart total'
                  (snd (delay 5000 (snd (emit LogRateLimit w1))))
              else (Throw error, w1)
            else (Throw error, w1)
        | (OutOfFuel, _, w1) => (OutOfFuel, w1)
        end
    end
  else emit (LogCompleted description totalProcessed) w.

Definition processBatchWithType (fuel : nat) (startBlock : Z) (name : string)
    (state : option StorageState) : M W unit :=
  windowLoop fuel startBlock 0.

End Batch.

(** [DataCollectionOptions] *)
Record DataCollectionOptions : Type := mkOptions {
  startBlock : option Z;
  endBlock : option Z;
  includeTokenTransfers : bool;
  includeInternalTransactions : bool;
  resume : bool
}.

Context `{BlockchainDataProvider P} `{DataStorage S}.

(** [getCurrentBlock]: the block number of the JSON-RPC node, or the
    default when the call fails. *)
Definition getCurrentBlock : M W Z :=
  fun w =>
    match rpcBlockNumber w with
    | Some blockNumber => (Ret blockNumber, w)
    | None => (Ret 18000000, snd (emit LogBlockNumberFailed w))
    end.

(** [options.resume && state?.transactionTypes.<type>.lastBlock ?
       state.transactionTypes.<type>.lastBlock + 1 : (options.startBlock || 0)] *)
Definition resumeStart (options : DataCollectionOptions) (state : option StorageState)
    (cursor : TransactionTypes -> TypeCursor) : Z :=
  match state with
  | Some st =>
      if resume options && truthy (lastBlock (cursor (transactionTypes st)))
      then lastBlock (cursor (transactionTypes st)) + 1
      else orDefault (startBlock options) 0
  | None => orDefault (startBlock options) 0
  end.

Definition pageQuery (start end_ page : Z) : QueryOptions :=
  mkQueryOptions (Some start) (Some end_) (Some page)
                 (Some MAX_RECORDS_PER_CALL) (Some asc).

Definition analyzeOrganization (fuel : nat) (address name : string)
    (options : DataCollectionOptions) : M W unit :=
  tryCatch
    (emit (LogStart name address) ;;;
     state <- (if resume options then
                 state <- onStorage (getLastProcessedState name) ;;
                 match state with
                 | Some st => emit (LogResuming st) ;;; ret (Some st)
                 | None => ret None
                 end
               else ret None) ;;
     dateAdded_ <- gets today ;;
     let organization := mkOrganization address name 1 dateAdded_ in
     onStorage (saveOrganization organization) ;;;
     endBlock_ <- (match endBlock options with
                   | Some n => if truthy n then ret n else getCurrentBlock
                   | None => getCurrentBlock
                   end) ;;
     let normalStartBlock := resumeStart options state normal in
     processBatchWithType
       (fun start end_ page => getTransactions address (pageQuery start end_ page))
       (fun items => saveTransactions name items Normal)
       endBlock_ "normal transactions" fuel normalStartBlock name state ;;;
     (if includeInternalTransactions options then
        let internalStartBlock := resumeStart options state internal in
        processBatchWithType
          (fun start end_ page =>
             getInternalTransactions address (pageQuery start end_ page))
          (fun items => saveTransactions name items Internal)
          endBlock_ "internal transactions" fuel internalStartBlock name state
      else ret tt) ;;;
     (if includeTokenTransfers options then
        let tokenStartBlock := resumeStart options state tokenTransfers in
        processBatchWithType
          (fun start end_ page =>
             getTokenTransfers address (pageQuery start end_ page))
          (fun items => saveTokenTransfers name items)
          endBlock_ "token transfers" fuel tokenStartBlock name state
      else ret tt) ;;;
     emit (LogAnalysisCompleted name))
    (fun error => emit (LogAnalysisFailed name error) ;;; throw error).

End Service.
End BlockchainService.

(** ** FileSystemStorage *)

Module FileSystemStorage.

(** [EventLog] of [src/core/types]; [el_blockNumber] is [Number(e.blockNumber)]. *)
Record EventLog : Type := mkEventLog {
  el_address : string;
  el_blockNumber : Z;
  el_transactionHash : string;
  el_logIndex : string;
  eventName : option string
}.

(** The files of one organization directory.  A CSV file that does not exist
    yet is [None]; the rows of a CSV file are the records handed to
    [writeRecords], a [Date] being kept as its epoch milliseconds. *)
Record OrgDir : Type := mkOrgDir {
  metadataJson : option (Organization * Z);
  stateJson : option StorageState;
  normalCsv : option (list Transaction);
  internalCsv : option (list Transaction);
  tokenTransfersCsv : option (list TokenTransfer);
  eventFiles : gmap (string * string) (list EventLog)
}.

Definition emptyDir : OrgDir := mkOrgDir None None None None None ∅.

(** The storage object and the file system under it.  [faults] tells which
    file-system operations fail, by their position in the sequence of all
    operations performed so far ([fsOps]). *)
Record FS : Type := mkFS {
  batchSize : nat;
  disk : gmap string OrgDir;
  now : Z;
  faults : nat -> bool;
  fsOps : nat
}.

(** [options.batchSize || 1000] of the constructor. *)
Definition create (optBatchSize : option nat) (faults : nat -> bool) (now : Z) : FS :=
  let bs := match optBatchSize with
            | Some (Datatypes.S n) => Datatypes.S n
            | _ => 1000%nat
            end in
  mkFS bs ∅ now faults 0.

Definition sanitizeChar (c : ascii) : ascii :=
  let n := nat_of_ascii c in
  if ((48 <=? n) && (n <=? 57))%nat then c
  else if ((97 <=? n) && (n <=? 122))%nat then c
  else if ((65 <=? n) && (n <=? 90))%nat then ascii_of_nat (n + 32)
  else "_"%char.

(** [fileName.replace(/[^a-z0-9]/gi, '_').toLowerCase()] *)
Fixpoint sanitizeFileName (fileName : string) : string :=
  match fileName with
  | EmptyString => EmptyString
  | String c rest => String (sanitizeChar c) (sanitizeFileName rest)
  end.

Definition getOrganizationDir (name : string) : string := sanitizeFileName name.

Definition readDir (st : FS) (name : string) : OrgDir :=
  default emptyDir (disk st !! getOrganizationDir name).

Definition writeDir (name : string) (f : OrgDir -> OrgDir) (st : FS) : FS :=
  mkFS (batchSize st)
       (<[getOrganizationDir name := f (readDir st name)]> (disk st))
       (now st) (faults st) (fsOps st).

(** One file-system operation: it fails when the fault plan says so. *)
Definition fsOp : M FS unit :=
  fun st =>
    let st' := mkFS (batchSize st) (disk st) (now st) (faults st)
                    (Datatypes.S (fsOps st)) in
    if faults st (fsOps st) then (Throw (Error "EIO"), st') else (Ret tt, st').

Definition setStateJson (v : StorageState) (d : OrgDir) : OrgDir :=
  mkOrgDir (metadataJson d) (Some v) (normalCsv d) (internalCsv d)
           (tokenTransfersCsv d) (eventFiles d).

Definition setMetadataJson (v : Organization * Z) (d : OrgDir) : OrgDir :=
  mkOrgDir (Some v) (stateJson d) (normalCsv d) (internalCsv d)
           (tokenTransfersCsv d) (eventFiles d).

Definition csvOf (type : TxType) (d : OrgDir) : option (list Transaction) :=
  match type with Normal => normalCsv d | Internal => internalCsv d end.

Definition appendCsv (type : TxType) (rows : list Transaction) (d : OrgDir) : OrgDir :=
  match type with
  | Normal =>
      mkOrgDir (metadataJson d) (stateJson d)
               (Some (default [] (normalCsv d) ++ rows)) (internalCsv d)
               (tokenTransfersCsv d) (eventFiles d)
  | Internal =>
      mkOrgDir (metadataJson d) (stateJson d) (normalCsv d)
               (Some (default [] (internalCsv d) ++ rows))
               (tokenTransfersCsv d) (eventFiles d)
  end.

Definition appendTransfersCsv (rows : list TokenTransfer) (d : OrgDir) : OrgDir :=
  mkOrgDir (metadataJson d) (stateJson d) (normalCsv d) (internalCsv d)
           (Some (default [] (tokenTransfersCsv d) ++ rows)) (eventFiles d).

Definition setEventFile (key : string * string) (v : list EventLog) (d : OrgDir) : OrgDir :=
  mkOrgDir (metadataJson d) (stateJson d) (normalCsv d) (internalCsv d)
           (tokenTransfersCsv d) (<[key := v]> (eventFiles d)).

(** [writeJSONSafely] for [state.json]: the data goes to a temporary file
    that is then renamed over the target; when either step fails the target
    keeps its contents and a [StorageError] is thrown. *)
Definition writeStateSafely (name : string) (data : StorageState) : M FS unit :=
  tryCatch (fsOp ;;; fsOp ;;; modify (writeDir name (setStateJson data)))
           (fun _ => throw (StorageError "Failed to write file: state.json")).

Definition writeMetadataSafely (name : string) (data : Organization * Z) : M FS unit :=
  tryCatch (fsOp ;;; fsOp ;;; modify (writeDir name (setMetadataJson data)))
           (fun _ => throw (StorageError "Failed to write file: metadata.json")).

Definition getLastProcessedState (name : string) : M FS (option StorageState) :=
  tryCatch
    (fsOp ;;;
     st <- gets (fun st => stateJson (readDir st name)) ;;
     match st with
     | Some v => fsOp ;;; ret (Some v)
     | None => ret None
     end)
    (fun _ => throw (StorageError ("Failed to get state for " +:+ name))).

Definition initialState (now : Z) : StorageState :=
  mkStorageState 0 now 0
    (mkTransactionTypes (mkTypeCursor 0 0 now) (mkTypeCursor 0 0 now)
                        (mkTypeCursor 0 0 now))
    (Some (mkEventsState 0 0 now ∅)).

Definition initializeState (organizationName : string) : M FS unit :=
  fsOp ;;;
  st <- gets (fun st => stateJson (readDir st organizationName)) ;;
  match st with
  | None =>
      t <- gets now ;;
      writeStateSafely organizationName (initialState t)
  | Some _ => ret tt
  end.

Definition saveOrganization (organization : Organization) : M FS unit :=
  tryCatch
    (fsOp ;;; fsOp ;;; fsOp ;;; fsOp ;;; fsOp ;;;
     t <- gets now ;;
     writeMetadataSafely (org_name organization) (organization, t) ;;;
     initializeState (org_name organization))
    (fun _ => throw (StorageError ("Failed to save organization "
                                   +:+ org_name organization))).

(** [Math.max(...xs)] for a non-empty list; every call site returns early
    on an empty array, so the value at [[]] is never used. *)
Definition mathMax (xs : list Z) : Z :=
  match xs with
  | [] => 0
  | x :: rest => fold_left Z.max rest x
  end.

(** [xs.sort((a, b) => Number(a.blockNumber) - Number(b.blockNumber))]:
    a stable sort on the block number. *)
Fixpoint insertBy {A} (key : A -> Z) (x : A) (sorted : list A) : list A :=
  match sorted with
  | [] => [x]
  | y :: rest =>
      if key x <=? key y then x :: y :: rest
      else y :: insertBy key x rest
  end.

Definition sortBy {A} (key : A -> Z) (xs : list A) : list A :=
  fold_right (insertBy key) [] xs.

Definition sortByBlock (transactions : list Transaction) : list Transaction :=
  sortBy blockNumber transactions.

(** The record written for a transaction: the transaction itself with
    [timeStamp] turned into a [Date] ([value] and [gasPrice] are strings
    already). *)
Definition txRecord (tx : Transaction) : Transaction :=
  mkTransaction (hash tx) (blockNumber tx) (timeStamp tx * 1000) (from tx) (to tx)
    (value tx) (gas tx) (gasPrice tx) (isError tx) (txreceipt_status tx)
    (input tx) (contractAddress tx) (methodId tx) (functionName tx).

Definition transferRecord (t : TokenTransfer) : TokenTransfer :=
  mkTokenTransfer (tt_blockNumber t) (tt_timeStamp t * 1000) (tt_hash t) (tt_from t)
    (tt_to t) (tt_value t) (tt_contractAddress t) (tokenName t) (tokenSymbol t)
    (tokenDecimal t).

(** [csvWriter.writeRecords(rows)] on the CSV file of a transaction type. *)
Definition writeRecords (name : string) (type : TxType) (rows : list Transaction)
    : M FS unit :=
  fsOp ;;; modify (writeDir name (appendCsv type rows)).

Definition writeTransferRecords (name : string) (rows : list TokenTransfer) : M FS unit :=
  fsOp ;;; modify (writeDir name (appendTransfersCsv rows)).

(** [for (let i = 0; i < xs.length; i += batchSize) write(xs.slice(i, i + batchSize))] *)
Fixpoint batchLoop {A} (write : list A -> M FS unit) (fuel : nat) (i : nat)
    (xs : list A) : M FS unit :=
  fun st =>
    if (i <? length xs)%nat then
      match fuel with
      | O => (OutOfFuel, st)
      | Datatypes.S fuel' =>
          (write (firstn (batchSize st) (skipn i xs)) ;;;
           batchLoop write fuel' (i + batchSize st)%nat xs) st
      end
    else (Ret tt, st).

Definition cursorOf (type : TxType) (tts : TransactionTypes) : TypeCursor :=
  match type with Normal => normal tts | Internal => internal tts end.

Definition setCursor (type : TxType) (c : TypeCursor) (tts : TransactionTypes)
    : TransactionTypes :=
  match type with
  | Normal => mkTransactionTypes c (internal tts) (tokenTransfers tts)
  | Internal => mkTransactionTypes (normal tts) c (tokenTransfers tts)
  end.

(** The assignments of [updateTransactionState] on the state it has read. *)
Definition transactionStateUpdate (type : TxType) (lastBlock' count' t : Z)
    (state : StorageState) : StorageState :=
  let c := cursorOf type (transactionTypes state) in
  let c' := mkTypeCursor (Z.max (lastBlock c) lastBlock') (count c + count') t in
  mkStorageState (Z.max (lastProcessedBlock state) lastBlock') t
    (totalTransactions state + count')
    (setCursor type c' (transactionTypes state))
    (events state).

Definition updateTransactionState (organizationName : string) (type : TxType)
    (lastBlock' count' : Z) : M FS unit :=
  currentState <- getLastProcessedState organizationName ;;
  (match currentState with
   | None => initializeState organizationName
   | Some _ => ret tt
   end) ;;;
  state <- getLastProcessedState organizationName ;;
  match state with
  | Some state =>
      t <- gets now ;;
      writeStateSafely organizationName
        (transactionStateUpdate type lastBlock' count' t state)
  | None => ret tt
  end.

Definition typeName (type : TxType) : string :=
  match type with Normal => "normal" | Internal => "internal" end.

Definition saveTransactions (organizationName : string)
    (transactions : list Transaction) (type : TxType) : M FS (list Transaction) :=
  if (length transactions =? 0)%nat then ret transactions
  else
    tryCatch
      (fsOp ;;; fsOp ;;;
       let sorted := sortByBlock transactions in
       batchLoop (fun batch => writeRecords organizationName type (map txRecord batch))
                 (length sorted) 0 sorted ;;;
       let lastBlock' := mathMax (map blockNumber sorted) in
       updateTransactionState organizationName type lastBlock'
                              (Z.of_nat (length sorted)) ;;;
       ret sorted)
      (fun _ => throw (StorageError ("Failed to save " +:+ typeName type
                                     +:+ " transactions for " +:+ organizationName))).

(** The assignments of [updateTokenTransferState]. *)
Definition tokenTransferStateUpdate (lastBlock' count' t : Z) (state : StorageState)
    : StorageState :=
  let c := tokenTransfers (transactionTypes state) in
  let c' := mkTypeCursor (Z.max (lastBlock c) lastBlock') (count c + count') t in
  mkStorageState (Z.max (lastProcessedBlock state) lastBlock') t
    (totalTransactions state)
    (mkTransactionTypes (normal (transactionTypes state))
                        (internal (transactionTypes state)) c')
    (events state).

Definition updateTokenTransferState (organizationName : string)
    (lastBlock' count' : Z) : M FS unit :=
  currentState <- getLastProcessedState organizationName ;;
  (match currentState with
   | None => initializeState organizationName
   | Some _ => ret tt
   end) ;;;
  state <- getLastProcessedState organizationName ;;
  match state with
  | Some state =>
      t <- gets now ;;
      writeStateSafely organizationName
        (tokenTransferStateUpdate lastBlock' count' t state)
  | None => ret tt
  end.

Definition saveTokenTransfers (organizationName : string)
    (transfers : list TokenTransfer) : M FS (list TokenTransfer) :=
  if (length transfers =? 0)%nat then ret transfers
  else
    tryCatch
      (fsOp ;;; fsOp ;;;
       batchLoop (fun batch => writeTransferRecords organizationName
                                 (map transferRecord batch))
                 (length transfers) 0 transfers ;;;
       updateTokenTransferState organizationName
         (mathMax (map tt_blockNumber transfers))
         (Z.of_nat (length transfers)) ;;;
       ret transfers)
      (fun _ => throw (StorageError ("Failed to save token transfers for "
                                     +:+ organizationName))).

Definition setEvents (ev : EventsState) (state : StorageState) : StorageState :=
  mkStorageState (lastProcessedBlock state) (lastProcessedTimestamp state)
    (totalTransactions state) (transactionTypes state) (Some ev).

(** [event.eventName || 'unknown'] *)
Definition eventType (event : EventLog) : string :=
  match eventName event with
  | Some n => if String.eqb n "" then "unknown" else n
  | None => "unknown"
  end.

(** [events.forEach(event => eventCounts[type] = (eventCounts[type] || 0) + 1)] *)
Definition countEvents (evs : list EventLog) (counts : gmap string Z) : gmap string Z :=
  fold_left (fun acc event =>
               <[eventType event := default 0 (acc !! eventType event) + 1]> acc)
            evs counts.

(** The assignments of [updateEventState] on the state it has read. *)
Definition eventStateUpdate (contractAddress : string) (evs : list EventLog)
    (t : Z) (state : StorageState) : StorageState :=
  let ev := default (mkEventsState 0 0 t ∅) (events state) in
  let contractState :=
    default (mkContractEvents 0 ∅) (contractAddresses ev !! contractAddress) in
  let lastBlock' := mathMax (map el_blockNumber evs) in
  let contractState' :=
    mkContractEvents (Z.max (ce_lastBlock contractState) lastBlock')
                     (countEvents evs (eventCounts contractState)) in
  setEvents
    (mkEventsState (Z.max (ev_lastBlock ev) lastBlock')
                   (ev_count ev + Z.of_nat (length evs)) t
                   (<[contractAddress := contractState']> (contractAddresses ev)))
    state.

Definition updateEventState (organizationName contractAddress : string)
    (evs : list EventLog) : M FS unit :=
  state <- getLastProcessedState organizationName ;;
  match state with
  | None => ret tt
  | Some state =>
      t <- gets now ;;
      writeStateSafely organizationName (eventStateUpdate contractAddress evs t state)
  end.

(** [events.reduce(...)]: the events grouped by type, the groups in the
    order in which their types first occur. *)
Fixpoint addToGroup (type : string) (event : EventLog)
    (groups : list (string * list EventLog)) : list (string * list EventLog) :=
  match groups with
  | [] => [(type, [event])]
  | (k, g) :: rest =>
      if String.eqb k type then (k, g ++ [event]) :: rest
      else (k, g) :: addToGroup type event rest
  end.

Definition eventsByType (evs : list EventLog) : list (string * list EventLog) :=
  fold_left (fun acc event => addToGroup (eventType event) event acc) evs [].

Definition appendEvents (organizationName contractAddress eventType_ : string)
    (newEvents : list EventLog) : M FS unit :=
  let key := (contractAddress, sanitizeFileName eventType_) in
  fsOp ;;;
  existing <- gets (fun st => eventFiles (readDir st organizationName) !! key) ;;
  existingEvents <- (match existing with
                     | Some evs => fsOp ;;; ret evs
                     | None => ret []
                     end) ;;
  let updatedEvents := sortBy el_blockNumber (existingEvents ++ newEvents) in
  tryCatch (fsOp ;;; fsOp ;;;
            modify (writeDir organizationName (setEventFile key updatedEvents)))
           (fun _ => throw (StorageError "Failed to write file: events")).

Fixpoint appendAll (organizationName contractAddress : string)
    (groups : list (string * list EventLog)) : M FS unit :=
  match groups with
  | [] => ret tt
  | (type, evs) :: rest =>
      appendEvents organizationName contractAddress type evs ;;;
      appendAll organizationName contractAddress rest
  end.

Definition saveContractEvents (organizationName contractAddress : string)
    (evs : list EventLog) : M FS unit :=
  if (length evs =? 0)%nat then ret tt
  else
    tryCatch
      (fsOp ;;;
       appendAll organizationName contractAddress (eventsByType evs) ;;;
       updateEventState organizationName contractAddress evs)
      (fun _ => throw (StorageError ("Failed to save events for contract "
                                     +:+ contractAddress))).

#[global] Instance dataStorage : DataStorage FS := {
  saveOrganization := saveOrganization;
  saveTransactions := saveTransactions;
  saveTokenTransfers := saveTokenTransfers;
  getLastProcessedState := getLastProcessedState
}.

End FileSystemStorage.

(** ** The earlier FileSystemStorage: [updateState]

    The second implementation of [FileSystemStorage] in the repository keeps
    one [updateState] for the three transaction cursors. *)

Module LegacyFileSystemStorage.
Import FileSystemStorage.

Inductive CursorKey : Type := KNormal | KInternal | KTokenTransfers.

Definition getCursor (type : CursorKey) (tts : TransactionTypes) : TypeCursor :=
  match type with
  | KNormal => normal tts
  | KInternal => internal tts
  | KTokenTransfers => tokenTransfers tts
  end.

Definition putCursor (type : CursorKey) (c : TypeCursor) (tts : TransactionTypes)
    : TransactionTypes :=
  match type with
  | KNormal => mkTransactionTypes c (internal tts) (tokenTransfers tts)
  | KInternal => mkTransactionTypes (normal tts) c (tokenTransfers tts)
  | KTokenTransfers => mkTransactionTypes (normal tts) (internal tts) c
  end.

(** The state [updateState] starts from when there is no [state.json]. *)
Definition freshState (t : Z) : StorageState :=
  mkStorageState 0 t 0
    (mkTransactionTypes (mkTypeCursor 0 0 t) (mkTypeCursor 0 0 t) (mkTypeCursor 0 0 t))
    None.

(** [getLastProcessedState] of this implementation answers [null] when the
    file cannot be read. *)
Definition getLastProcessedState (name : string) : M FS (option StorageState) :=
  tryCatch
    (fsOp ;;;
     st <- gets (fun st => stateJson (readDir st name)) ;;
     match st with
     | Some v => fsOp ;;; ret (Some v)
     | None => ret None
     end)
    (fun _ => ret None).

(** The assignments of [updateState]. *)
Definition stateUpdate (type : CursorKey) (lastBlock' addedCount t : Z)
    (state : StorageState) : StorageState :=
  let c := getCursor type (transactionTypes state) in
  let c' := mkTypeCursor (Z.max (lastBlock c) lastBlock') (count c + addedCount) t in
  mkStorageState (Z.max (lastProcessedBlock state) lastBlock') t
    (totalTransactions state + addedCount)
    (putCursor type c' (transactionTypes state))
    (events state).

Definition updateState (name : string) (type : CursorKey) (lastBlock' addedCount : Z)
    : M FS unit :=
  read <- getLastProcessedState name ;;
  t <- gets now ;;
  let state := default (freshState t) read in
  fsOp ;;;
  modify (writeDir name (setStateJson (stateUpdate type lastBlock' addedCount t state))).

End LegacyFileSystemStorage.

(** ** EtherscanClient *)

Module EtherscanClient.

Definition MIN_REQUEST_INTERVAL : Z := 250.
Definition DEFAULT_RECORDS_PER_PAGE : Z := 100.
Definition MAX_RETRIES : Z := 3.
Definition INITIAL_RETRY_DELAY : Z := 1000.

(** The query parameters of a request (numbers kept as numbers). *)
Record Params : Type := mkParams {
  action : string;
  p_address : string;
  startblock : Z;
  endblock : Z;
  page : Z;
  offset : Z;
  p_sort : SortOrder
}.

(** [response.data.result] is a list of items or a text. *)
Inductive ApiResult (T : Type) : Type :=
| ResultItems (items : list T)
| ResultText (text : string).
Arguments ResultItems {T} items.
Arguments ResultText {T} text.

Record ApiData (T : Type) : Type := mkApiData {
  status : string;
  api_message : string;
  result : ApiResult T
}.
Arguments mkApiData {T}.
Arguments status {T}.
Arguments api_message {T}.
Arguments result {T}.

(** What [this.client.get] does: it resolves with a 2xx response, rejects
    with an axios error, or rejects with anything else. *)
Inductive HttpOutcome (T : Type) : Type :=
| Response (data : ApiData T)
| AxiosError (code : string) (msg : string)
| Failure.
Arguments Response {T} data.
Arguments AxiosError {T} code msg.
Arguments Failure {T}.

(** The client and the remote API behind it: each endpoint answers a
    request from its parameters and the number of requests sent before. *)
Record Client : Type := mkClient {
  apiKey : string;
  txlist : Params -> nat -> HttpOutcome Transaction;
  txlistinternal : Params -> nat -> HttpOutcome Transaction;
  tokentx : Params -> nat -> HttpOutcome TokenTransfer;
  requests : list Params;
  lastRequestTime : Z;
  clock : Z
}.

Definition setTime (lastRequestTime' clock' : Z) (c : Client) : Client :=
  mkClient (apiKey c) (txlist c) (txlistinternal c) (tokentx c) (requests c)
           lastRequestTime' clock'.

(** [await new Promise(resolve => setTimeout(resolve, ms))] *)
Definition sleep (ms : Z) : M Client unit :=
  modify (fun c => setTime (lastRequestTime c) (clock c + ms) c).

Definition throttleRequest : M Client unit :=
  modify (fun c =>
    let now := clock c in
    let timeSinceLastRequest := now - lastRequestTime c in
    let now' := if timeSinceLastRequest <? MIN_REQUEST_INTERVAL
                then now + (MIN_REQUEST_INTERVAL - timeSinceLastRequest)
                else now in
    setTime now' now' c).

(** [this.client.get('', { params })] *)
Definition httpGet {T} (endpoint : Client -> Params -> nat -> HttpOutcome T)
    (params : Params) : M Client (HttpOutcome T) :=
  fun c =>
    (Ret (endpoint c params (length (requests c))),
     mkClient (apiKey c) (txlist c) (txlistinternal c) (tokentx c)
              (requests c ++ [params]) (lastRequestTime c) (clock c)).

(** [String(items)] for an array of objects. *)
Fixpoint itemsText {T} (items : list T) : string :=
  match items with
  | [] => ""
  | [_] => "[object Object]"
  | _ :: rest => "[object Object]," +:+ itemsText rest
  end.

(** [response.data.message || response.data.result] *)
Definition errorMessageOf {T} (data : ApiData T) : string :=
  if String.eqb (api_message data) "" then
    match result data with
    | ResultText text => text
    | ResultItems items => itemsText items
    end
  else api_message data.

(** [makeRequest(params, retryCount)]; [budget] bounds the recursion, which
    stops by itself once [retryCount] reaches [MAX_RETRIES]. *)
Fixpoint makeRequestFrom {T} (budget : nat)
    (endpoint : Client -> Params -> nat -> HttpOutcome T)
    (params : Params) (retryCount : Z) : M Client (ApiResult T) :=
  throttleRequest ;;;
  outcome <- httpGet endpoint params ;;
  let retry :=
    match budget with
    | O => fun c => (OutOfFuel, c)
    | Datatypes.S budget' =>
        sleep (INITIAL_RETRY_DELAY * 2 ^ retryCount) ;;;
        makeRequestFrom budget' endpoint params (retryCount + 1)
    end in
  match outcome with
  | Response data =>
      if String.eqb (status data) "0" then
        let errorMessage := errorMessageOf data in
        if includes "No transactions found" errorMessage then ret (ResultItems [])
        else if (String.eqb errorMessage "NOTOK"
                 || includes "Max rate limit reached" errorMessage)
                && (retryCount <? MAX_RETRIES)
        then retry
        else throw (EtherscanError errorMessage)
      else ret (result data)
  | AxiosError code msg =>
      let isConnectionError :=
        String.eqb code "ECONNRESET" || String.eqb code "ETIMEDOUT" in
      if isConnectionError && (retryCount <? MAX_RETRIES) then retry
      else throw (EtherscanError ("Network error: " +:+ msg))
  | Failure => throw (EtherscanError "Failed to fetch data from Etherscan")
  end.

Definition makeRequest {T} (endpoint : Client -> Params -> nat -> HttpOutcome T)
    (params : Params) : M Client (ApiResult T) :=
  makeRequestFrom (Z.to_nat MAX_RETRIES) endpoint params 0.

(** The cast of the result to the array type the method promises. *)
Definition asItems {T} (r : ApiResult T) : list T :=
  match r with
  | ResultItems items => items
  | ResultText _ => []
  end.

Definition paramsOf (action_ address : string) (options : QueryOptions) : Params :=
  mkParams action_ address
    (orDefault (q_startBlock options) 0)
    (orDefault (q_endBlock options) 99999999)
    (orDefault (q_page options) 1)
    (orDefault (q_offset options) DEFAULT_RECORDS_PER_PAGE)
    (default asc (q_sort options)).

Definition getTransactions (address : string) (options : QueryOptions)
    : M Client (list Transaction) :=
  r <- makeRequest txlist (paramsOf "txlist" address options) ;; ret (asItems r).

Definition getInternalTransactions (address : string) (options : QueryOptions)
    : M Client (list Transaction) :=
  r <- makeRequest txlistinternal (paramsOf "txlistinternal" address options) ;;
  ret (asItems r).

Definition getTokenTransfers (address : string) (options : QueryOptions)
    : M Client (list TokenTransfer) :=
  r <- makeRequest tokentx (paramsOf "tokentx" address options) ;; ret (asItems r).

#[global] Instance provider : BlockchainDataProvider Client := {
  getTransactions := getTransactions;
  getInternalTransactions := getInternalTransactions;
  getTokenTransfers := getTokenTransfers
}.

End EtherscanClient.

(** ** RateLimiter *)

Module RateLimiter.
Local Open Scope Q_scope.

(** A call handed to [schedule]: the time at which it is handed over, how
    late the timer fires that [processQueue] sets before it releases the
    call, and how long the call takes to settle. *)
Record Call : Type := mkCall {
  callId : nat;
  arrival : Q;
  lateness : Q;
  duration : Q
}.

(** The limiter and the event loop around it: the time [Date.now()] reads,
    the calls other tasks are going to hand to [schedule], and the calls
    released so far, each with the time at which it was invoked. *)
Record Limiter : Type := mkLimiter {
  requestsPerSecond : Q;
  timeWindow : Q;
  queue : list Call;
  processing : bool;
  lastRequestTime : Q;
  clock : Q;
  upcoming : list Call;
  released : list (Call * Q)
}.

(** [new RateLimiter(requestsPerSecond, timeWindow = 1000)] at time [now],
    with the calls that are going to be scheduled. *)
Definition create (requestsPerSecond : Q) (timeWindow : option Q) (now : Q)
    (calls : list Call) : Limiter :=
  mkLimiter requestsPerSecond (default 1000 timeWindow) [] false 0 now calls [].

Definition Qltb (a b : Q) : bool := negb (Qle_bool b a).

(** [this.queue.push(...)] *)
Definition push (c : Call) (l : Limiter) : Limiter :=
  mkLimiter (requestsPerSecond l) (timeWindow l) (queue l ++ [c]) (processing l)
            (lastRequestTime l) (clock l) (upcoming l) (released l).

(** The calls whose time has come at [now], and the ones still to come. *)
Fixpoint arrive (now : Q) (calls : list Call) : list Call * list Call :=
  match calls with
  | [] => ([], [])
  | c :: rest =>
      if Qle_bool (arrival c) now then
        let '(arrived, later) := arrive now rest in (c :: arrived, later)
      else ([], calls)
  end.

(** [await] for [ms] milliseconds inside [processQueue]: the clock moves
    on, and the tasks whose time has come run meanwhile: each hands its
    call to [schedule], which pushes it and, [processing] being set, does
    nothing else. *)
Definition await (ms : Q) (l : Limiter) : Limiter :=
  let now := clock l + ms in
  let '(arrived, later) := arrive now (upcoming l) in
  mkLimiter (requestsPerSecond l) (timeWindow l) (queue l ++ arrived) (processing l)
            (lastRequestTime l) now later (released l).

Definition setProcessing (b : bool) (l : Limiter) : Limiter :=
  mkLimiter (requestsPerSecond l) (timeWindow l) (queue l) b
            (lastRequestTime l) (clock l) (upcoming l) (released l).

(** The [while (this.queue.length > 0)] loop of [processQueue].  The timer
    fires [lateness] after the time it was set for; [await fn()] resumes
    when the call has settled (the wrapper that [schedule] pushed catches
    what the call throws). *)
Fixpoint processLoop (fuel : nat) (l : Limiter) : Res unit * Limiter :=
  match queue l with
  | [] => (Ret tt, setProcessing false l)
  | next :: _ =>
      match fuel with
      | O => (OutOfFuel, l)
      | Datatypes.S fuel' =>
          let now := clock l in
          let timeToWait :=
            Qmax 0 (lastRequestTime l + timeWindow l / requestsPerSecond l - now) in
          let l1 := if Qltb 0 timeToWait then await (timeToWait + lateness next) l
                    else l in
          match queue l1 with
          | fn :: rest =>
              let l2 := mkLimiter (requestsPerSecond l1) (timeWindow l1) rest
                                  (processing l1) (clock l1) (clock l1) (upcoming l1)
                                  (released l1 ++ [(fn, clock l1)]) in
              processLoop fuel' (await (duration fn) l2)
          | [] => (Throw (Error "fn is not a function"), l1)
          end
      end
  end.

Definition processQueue (fuel : nat) : M Limiter unit :=
  fun l => processLoop fuel (setProcessing true l).

(** [schedule(fn)]: the promise it returns settles with the call. *)
Definition schedule (fuel : nat) (c : Call) : M Limiter unit :=
  fun l =>
    let l1 := push c l in
    if processing l1 then (Ret tt, l1) else processQueue fuel l1.

(** The tasks that hand their calls to [schedule] while the limiter is
    idle: the next one runs when its time has come. *)
Fixpoint run (fuel : nat) (l : Limiter) : Res unit * Limiter :=
  match upcoming l with
  | [] => (Ret tt, l)
  | c :: later =>
      match fuel with
      | O => (OutOfFuel, l)
      | Datatypes.S fuel' =>
          let l1 := mkLimiter (requestsPerSecond l) (timeWindow l) (queue l)
                              (processing l) (lastRequestTime l)
                              (Qmax (clock l) (arrival c)) later (released l) in
          match schedule fuel' c l1 with
          | (Ret _, l2) => run fuel' l2
          | r => r
          end
      end
  end.

End RateLimiter.

(** ** What the properties below speak about *)

Module Schedule.
Import BlockchainService.

(** The windows the header of the [while (currentStart <= endBlock)] loop
    goes through when every window is left through
    [currentStart = currentEnd + 1]. *)
Fixpoint windowsFrom (n : nat) (currentStart endBlock : Z) : list (Z * Z) :=
  match n with
  | O => []
  | Datatypes.S n' =>
      if currentStart <=? endBlock then
        let currentEnd := Z.min (currentStart + BLOCK_RANGE - 1) endBlock in
        (currentStart, currentEnd) :: windowsFrom n' (currentEnd + 1) endBlock
      else []
  end.

Definition windows (startBlock endBlock : Z) : list (Z * Z) :=
  windowsFrom (Z.to_nat (endBlock - startBlock + 1)) startBlock endBlock.

(** The windows a run announces, read off its trace. *)
Definition processedWindow (ev : Event) : option (Z * Z) :=
  match ev with
  | LogProcessing _ currentStart currentEnd => Some (currentStart, currentEnd)
  | _ => None
  end.

Definition processedWindows (tr : list Event) : list (Z * Z) :=
  omap processedWindow tr.

(** Two worlds whose traces announce the same windows. *)
Definition sameWindows {P S} (w w' : World P S) : Prop :=
  processedWindows (trace w') = processedWindows (trace w).

(** A window that ends in a rate-limit error is run again: the same window
    is then announced twice in a row.  [dedupAdjacent] keeps one of them. *)
Fixpoint dedupAdjacent (ws : list (Z * Z)) : list (Z * Z) :=
  match ws with
  | [] => []
  | x :: rest =>
      match dedupAdjacent rest with
      | [] => [x]
      | y :: r => if bool_decide (x = y) then y :: r else x :: y :: r
      end
  end.

(** [ws] goes from [start] to [finish] window by window: each window begins
    where the one before it stopped, is not empty, is at most [BLOCK_RANGE]
    blocks long and stays within the range; after the last one nothing of
    the range is left. *)
Fixpoint chained (start : Z) (ws : list (Z * Z)) (finish : Z) : Prop :=
  match ws with
  | [] => finish < start
  | (a, b) :: rest =>
      a = start /\ a <= b /\ b <= finish /\ b - a + 1 <= BLOCK_RANGE /\
      chained (b + 1) rest finish
  end.

Definition inWindow (n : Z) (w : Z * Z) : bool := (fst w <=? n) && (n <=? snd w).

(** The windows among [ws] that hold block [n]. *)
Definition holders (n : Z) (ws : list (Z * Z)) : list (Z * Z) :=
  List.filter (inWindow n) ws.

(** [ws] partitions [[startBlock, endBlock]]. *)
Definition Partitions (ws : list (Z * Z)) (startBlock endBlock : Z) : Prop :=
  (fst <$> head ws = Some startBlock) /\
  (snd <$> last ws = Some endBlock) /\
  Forall (fun w => fst w <= snd w /\ snd w - fst w + 1 <= BLOCK_RANGE) ws /\
  (forall i a b, ws !! i = Some a -> ws !! Datatypes.S i = Some b ->
                 fst b = snd a + 1) /\
  (forall n, length (holders n ws)
             = if (startBlock <=? n) && (n <=? endBlock) then 1%nat else 0%nat).

(** A provider next to the record of the calls [fetchFn] made to it:
    [(start, end, page)] for each call, in order. *)
Definition recording {P T} (fetchFn : Z -> Z -> Z -> M P (list T))
    : Z -> Z -> Z -> M (P * list (Z * Z * Z)) (list T) :=
  fun start end_ page st =>
    let '(r, p') := fetchFn start end_ page (fst st) in
    (r, (p', snd st ++ [(start, end_, page)])).

(** The block ranges of the calls. *)
Definition fetchedRanges (calls : list (Z * Z * Z)) : list (Z * Z) := map fst calls.

(** The world without the record. *)
Definition forget {P S} (w : World (P * list (Z * Z * Z)) S) : World P S :=
  mkWorld (fst (dataProvider w)) (storage w) (rpcBlockNumber w) (today w) (trace w).

Definition isRateLimitWait (ev : Event) : bool :=
  match ev with LogRateLimit => true | _ => false end.

(** How often a trace waited because a window ended in a rate-limit error. *)
Definition rateLimitWaits (tr : list Event) : nat :=
  length (List.filter isRateLimitWait tr).

End Schedule.

Module Retry.
Import BlockchainService.

(** The errors [retryOperation] retries when attempts are left: anything
    that is not an [EtherscanError], and an [EtherscanError] that speaks of
    a timeout or of the rate limit. *)
Definition retriable (error : JsError) : bool :=
  negb (isEtherscanError error)
  || includes "timeout" (message error)
  || includes "rate limit" (message error).

(** The world after the service has logged [evs]. *)
Definition logged {P S} (evs : list Event) (w : World P S) : World P S :=
  mkWorld (dataProvider w) (storage w) (rpcBlockNumber w) (today w) (trace w ++ evs).

(** The world after a call into the provider that left it in [p']. *)
Definition withProvider {P S} (p' : P) (w : World P S) : World P S :=
  mkWorld p' (storage w) (rpcBlockNumber w) (today w) (trace w).

(** The world after a call into the storage that left it in [s']. *)
Definition withStorage {P S} (s' : S) (w : World P S) : World P S :=
  mkWorld (dataProvider w) s' (rpcBlockNumber w) (today w) (trace w).

(** What [retryOperation] logs and waits for after the failure of attempt
    [attempt]. *)
Definition retryEvents (description : string) (attempt : Z) (error : JsError)
    : list Event :=
  [LogRetry description attempt (RETRY_DELAY * attempt) error;
   Delay (RETRY_DELAY * attempt)].

(** The timers a trace waited on, in order. *)
Definition delays (tr : list Event) : list Z :=
  omap (fun ev => match ev with Delay ms => Some ms | _ => None end) tr.

End Retry.

Module Cursors.
Import FileSystemStorage.

(** The highest of the three transaction cursors. *)
Definition highWater (st : StorageState) : Z :=
  Z.max (lastBlock (normal (transactionTypes st)))
        (Z.max (lastBlock (internal (transactionTypes st)))
               (lastBlock (tokenTransfers (transactionTypes st)))).

(** The event cursor, when the state has one. *)
Definition eventCursor (st : StorageState) : option Z :=
  ev_lastBlock <$> events st.

(** The highest of all cursors, the event cursor included. *)
Definition highWaterWithEvents (st : StorageState) : Z :=
  Z.max (highWater st) (default 0 (eventCursor st)).

(** The calls that write [state.json]. *)
Inductive StorageOp : Type :=
| OpSaveOrganization (organization : Organization)
| OpSaveTransactions (name : string) (transactions : list Transaction) (type : TxType)
| OpSaveTokenTransfers (name : string) (transfers : list TokenTransfer)
| OpSaveContractEvents (name contractAddress : string) (evs : list EventLog)
| OpUpdateState (name : string) (type : LegacyFileSystemStorage.CursorKey)
                (lastBlock' addedCount : Z).

Definition applyOp (st : FS) (op : StorageOp) : FS :=
  match op with
  | OpSaveOrganization organization => snd (saveOrganization organization st)
  | OpSaveTransactions name transactions type =>
      snd (saveTransactions name transactions type st)
  | OpSaveTokenTransfers name transfers => snd (saveTokenTransfers name transfers st)
  | OpSaveContractEvents name contractAddress evs =>
      snd (saveContractEvents name contractAddress evs st)
  | OpUpdateState name type lastBlock' addedCount =>
      snd (LegacyFileSystemStorage.updateState name type lastBlock' addedCount st)
  end.

Definition applyOps (ops : list StorageOp) (st : FS) : FS := fold_left applyOp ops st.

(** The cursor of a transaction type as it is on disk (0 before there is a
    state). *)
Definition cursorOnDisk (name : string) (type : TxType) (st : FS) : Z :=
  match stateJson (readDir st name) with
  | Some v => lastBlock (cursorOf type (transactionTypes v))
  | None => 0
  end.

(** A file system on which no operation fails. *)
Definition reliable (st : FS) : Prop := forall n, faults st n = false.

(** What one organization's files and the storage object look like: the
    settings of the storage, the rows of the CSV file of [type] (none when
    the file does not exist) and the contents of [state.json]. *)
Definition Snap (name : string) (type : TxType) (bs : nat) (t : Z) (f : nat -> bool)
    (rows : list Transaction) (sj : option StorageState) (st : FS) : Prop :=
  batchSize st = bs /\ now st = t /\ faults st = f /\
  default [] (csvOf type (readDir st name)) = rows /\
  stateJson (readDir st name) = sj.

(** The rows of the CSV file of a transaction type. *)
Definition rowsOf (name : string) (type : TxType) (st : FS) : list Transaction :=
  default [] (csvOf type (readDir st name)).

(** Block numbers never go down along the list. *)
Definition ascending (l : list Transaction) : Prop :=
  StronglySorted (fun a b => blockNumber a <= blockNumber b) l.

(** A call that failed on a file-system fault and left the store in [Q]. *)
Definition Failed (f : nat -> bool) (Q : FS -> Prop) : JsError -> FS -> Prop :=
  fun _ st => (exists n, f n = true) /\ Q st.

(** [state.json] after a failed update: as before, or freshly initialized. *)
Definition untouched (t : Z) (sj sj' : option StorageState) : Prop :=
  sj' = sj \/ sj' = Some (default (initialState t) sj).

(** The highest of [c] and the block numbers [blocks]. *)
Definition highest (c : Z) (blocks : list Z) : Z := fold_left Z.max blocks c.

(** The cursor of [type] in the contents of [state.json]. *)
Definition cursorIn (type : TxType) (sj : option StorageState) : Z :=
  match sj with
  | Some v => lastBlock (cursorOf type (transactionTypes v))
  | None => 0
  end.

(** From [st] to [st'] rows were appended to the CSV file of [type], and the
    cursor of [type] followed them: it did not go back, it is at most the
    highest block number that was appended (or where it was), and it is
    exactly that on a file system without faults. *)
Definition advanced (name : string) (type : TxType) (st st' : FS) : Prop :=
  batchSize st' = batchSize st /\ faults st' = faults st /\
  exists new,
    rowsOf name type st' = rowsOf name type st ++ new /\
    cursorOnDisk name type st <= cursorOnDisk name type st' /\
    cursorOnDisk name type st'
    <= highest (cursorOnDisk name type st) (map blockNumber new) /\
    (reliable st ->
     cursorOnDisk name type st'
     = highest (cursorOnDisk name type st) (map blockNumber new)).

(** Every [state.json] on disk has its [lastProcessedBlock] at the highest
    of its three transaction cursors. *)
Definition dirOk (d : OrgDir) : Prop :=
  forall v, stateJson d = Some v -> lastProcessedBlock v = highWater v.

Definition stateOk (st : FS) : Prop :=
  map_Forall (fun _ d => dirOk d) (disk st).

End Cursors.

Module NoData.
Import EtherscanClient.

(** The API answers that there is nothing in the range asked for. *)
Definition signalsNoData {T} (outcome : HttpOutcome T) : Prop :=
  exists data,
    outcome = Response data /\ status data = "0" /\
    includes "No transactions found" (errorMessageOf data) = true.

(** The client after one request with [params]: it has waited for its
    minimum interval if it had to, and has sent the request. *)
Definition served (params : Params) (c : Client) : Client :=
  let c1 := snd (throttleRequest c) in
  mkClient (apiKey c1) (txlist c1) (txlistinternal c1) (tokentx c1)
           (requests c1 ++ [params]) (lastRequestTime c1) (clock c1).

End NoData.

Module Resume.
Import BlockchainService FileSystemStorage Cursors.

(** The provider is [p], as it was, and so are the files of the
    organization: the rows [rows] and the state [v]. *)
Definition Quiet {P} (name : string) (bs : nat) (t : Z) (f : nat -> bool)
    (rows : list Transaction) (v : StorageState) (p : P) (w : World P FS) : Prop :=
  dataProvider w = p /\ Snap name Normal bs t f rows (Some v) (storage w).

Definition QuietFailure {P} (name : string) (bs : nat) (t : Z) (f : nat -> bool)
    (rows : list Transaction) (v : StorageState) (p : P)
    : JsError -> World P FS -> Prop :=
  fun _ w => (exists n, f n = true) /\ Quiet name bs t f rows v p w.

(** The provider after it was asked for the first page of each window of
    [ws] in turn and had nothing to return; [None] when it returns items or
    fails. *)
Fixpoint drained {P T} (fetchFn : Z -> Z -> Z -> M P (list T)) (ws : list (Z * Z)) (p : P)
    : option P :=
  match ws with
  | [] => Some p
  | (currentStart, currentEnd) :: rest =>
      match fetchFn currentStart currentEnd 1 p with
      | (Ret [], p') => drained fetchFn rest p'
      | _ => None
      end
  end.

(** The files of the organization are as they were: the rows [rows] and the
    state [v]; a file-system fault has made the call fail. *)
Definition FaultOnly {P} (name : string) (bs : nat) (t : Z) (f : nat -> bool)
    (rows : list Transaction) (v : StorageState) : JsError -> World P FS -> Prop :=
  fun _ w => (exists n, f n = true) /\ Snap name Normal bs t f rows (Some v) (storage w).

End Resume.

Module Releases.
Import RateLimiter.
Local Open Scope Q_scope.

(** The least distance the limiter is to keep between two releases. *)
Definition minInterval (l : Limiter) : Q := timeWindow l / requestsPerSecond l.

(** [R] holds of every two neighbours in [l]. *)
Fixpoint linked {A} (R : A -> A -> Prop) (l : list A) : Prop :=
  match l with
  | x :: (y :: _) as rest => R x y /\ linked R rest
  | _ => True
  end.

(** What holds of two calls released one after the other when the least
    distance is [d]: the second is released no sooner than [d] after the
    first, and not before the first has settled; it is released no later
    than the latest of its arrival, the settling of the first and the end
    of the distance, the lateness of its timer added. *)
Definition inTurn (d : Q) (x y : Call * Q) : Prop :=
  snd x + d <= snd y /\
  snd x + duration (fst x) <= snd y /\
  snd y <= Qmax (Qmax (arrival (fst y)) (snd x + duration (fst x)))
                (snd x + d + lateness (fst y)).

(** The limiter between two turns of its loop, [calls] being all calls of
    the run: the calls released, queued and still to come are [calls], in
    this order; the releases are in turn; [lastRequestTime] is the time of
    the last release, and the clock is where that call settled, or where
    the next call arrived after the limiter fell idle; and when no call
    takes a negative time, no call was queued or released before it
    arrived. *)
Definition Inv (rps tw : Q) (calls : list Call) (l : Limiter) : Prop :=
  requestsPerSecond l = rps /\ timeWindow l = tw /\
  map fst (released l) ++ queue l ++ upcoming l = calls /\
  linked (inTurn (tw / rps)) (released l) /\
  match last (released l) with
  | Some (c, t) =>
      lastRequestTime l = t /\ t + duration c <= clock l /\
      clock l <= match queue l with
                 | next :: _ => Qmax (arrival next) (t + duration c)
                 | [] => t + duration c
                 end
  | None => True
  end /\
  (Forall (fun c => 0 <= duration c) calls ->
   Forall (fun c => arrival c <= clock l) (queue l) /\
   Forall (fun x => arrival (fst x) <= snd x) (released l)).

End Releases.

(** ** Concrete providers, stores and runs *)

Module Scenarios.
Import BlockchainService.
Import EtherscanClient (Params, Response, AxiosError, mkApiData, ResultItems,
                        ResultText, mkClient, Client, HttpOutcome).

Definition txAt (b : Z) : Transaction :=
  mkTransaction ("0x" +:+ pretty b) b (1600000000 + b) "0xfrom" "0xto" "0" "21000"
                "1" "0" "1" "0x" "" "0x" "".

(** Transactions in blocks [first, first + 1, ...], [n] of them. *)
Definition txRun (first : Z) (n : nat) : list Transaction :=
  map (fun i => txAt (first + Z.of_nat i)) (seq 0 n).

Definition noTransactionsFound {T} : HttpOutcome T :=
  Response (mkApiData "0" "No transactions found" (ResultItems [])).

Definition found {T} (items : list T) : HttpOutcome T :=
  Response (mkApiData "1" "OK" (ResultItems items)).

(** An address without any activity. *)
Definition noData {T} : Params -> nat -> HttpOutcome T :=
  fun _ _ => noTransactionsFound.

Definition clientOf (txlist : Params -> nat -> HttpOutcome Transaction) : Client :=
  mkClient "key" txlist noData noData [] 0 1000000.

Definition quietClient : Client := clientOf noData.

(** A full first page (blocks 1 to 100), and nothing after it. *)
Definition fullPageThenNothing : Params -> nat -> HttpOutcome Transaction :=
  fun params _ =>
    if EtherscanClient.page params =? 1 then found (txRun 1 100)
    else noTransactionsFound.

(** A full first page, and a rejected request after it. *)
Definition fullPageThenFailure : Params -> nat -> HttpOutcome Transaction :=
  fun params _ =>
    if EtherscanClient.page params =? 1 then found (txRun 1 100)
    else Response (mkApiData "0" "NOTOK" (ResultText "Invalid API Key")).

(** One transaction, in block 500. *)
Definition oneAt500 : Params -> nat -> HttpOutcome Transaction :=
  fun params _ =>
    if (EtherscanClient.startblock params <=? 500)
       && (500 <=? EtherscanClient.endblock params)
       && (EtherscanClient.page params =? 1)
    then found [txAt 500]
    else noTransactionsFound.

(** Every request times out. *)
Definition alwaysTimeout : Params -> nat -> HttpOutcome Transaction :=
  fun _ _ => AxiosError "ECONNABORTED" "timeout of 60000ms exceeded".

(** The first twelve requests are turned away for the rate limit. *)
Definition rateLimitedAtFirst : Params -> nat -> HttpOutcome Transaction :=
  fun _ n =>
    if (n <? 12)%nat then Response (mkApiData "0" "" (ResultText "Max rate limit reached"))
    else noTransactionsFound.

Definition freshStorage : FileSystemStorage.FS :=
  FileSystemStorage.create None (fun _ => false) 1700000000000.

Definition worldOf (c : Client) : World Client FileSystemStorage.FS :=
  mkWorld c freshStorage (Some 18000000) 1700000000000 [].

Definition collectNormal (address name : string) (endBlock : Z) (fuel : nat)
    (startBlock : Z) : M (World Client FileSystemStorage.FS) unit :=
  processBatchWithType
    (fun start end_ page => getTransactions address (pageQuery start end_ page))
    (fun items => saveTransactions name items Normal)
    endBlock "normal transactions" fuel startBlock name None.

Definition fetchPage (address : string) (start end_ page : Z)
    : M (World Client FileSystemStorage.FS) (list Transaction) :=
  retryOperation (onProvider (getTransactions address (pageQuery start end_ page)))
                 "Fetching normal transactions".

(** An organization is registered, two transactions are saved, then a
    contract event of block 12. *)
Definition eventOps : list Cursors.StorageOp :=
  [Cursors.OpSaveOrganization (mkOrganization "0xabc" "ens" 1 1700000000000);
   Cursors.OpSaveTransactions "ens" [txAt 7; txAt 3] Normal;
   Cursors.OpSaveContractEvents "ens" "0xgov"
     [FileSystemStorage.mkEventLog "0xgov" 12 "0xhash" "0" (Some "VoteCast")]].

Definition afterEvents : FileSystemStorage.FS := Cursors.applyOps eventOps freshStorage.

(** The client after the first and after the second page of the window
    [0, 49999] were asked of [fullPageThenNothing]. *)
Definition afterPage1 : Client :=
  snd (EtherscanClient.getTransactions "0xabc" (pageQuery 0 49999 1)
         (clientOf fullPageThenNothing)).

Definition afterPage2 : Client :=
  snd (EtherscanClient.getTransactions "0xabc" (pageQuery 0 49999 2) afterPage1).

(** The world after the address with one transaction in block 500 was
    collected up to block 500. *)
Definition collectedTo500 : World Client FileSystemStorage.FS :=
  snd (analyzeOrganization 10 "0xabc" "ens" (mkOptions None (Some 500) false false false)
         (worldOf (clientOf oneAt500))).

Definition fetchFirstPage : M (World Client FileSystemStorage.FS) (list Transaction) :=
  onProvider (getTransactions "0xabc" (pageQuery 0 49999 1)).

(** The worlds in which every request to [txlist] times out. *)
Definition timesOut (w : World Client FileSystemStorage.FS) : Prop :=
  EtherscanClient.txlist (dataProvider w) = alwaysTimeout.

(** The persisted state of an organization, and its cursors. *)
Definition stateOf (name : string) (w : World Client FileSystemStorage.FS)
    : option StorageState :=
  FileSystemStorage.stateJson (FileSystemStorage.readDir (storage w) name).

Definition normalCursorOf (name : string) (w : World Client FileSystemStorage.FS) : Z :=
  match stateOf name w with
  | Some st => lastBlock (normal (transactionTypes st))
  | None => 0
  end.

Definition savedNormal (name : string) (w : World Client FileSystemStorage.FS)
    : list Transaction :=
  default [] (FileSystemStorage.normalCsv (FileSystemStorage.readDir (storage w) name)).

Definition requestCount (w : World Client FileSystemStorage.FS) : nat :=
  length (EtherscanClient.requests (dataProvider w)).

(** A full first page; the second page is turned away for the rate limit
    until thirteen requests were sent, and is empty after that. *)
Definition rateLimitedOnPage2 : Params -> nat -> HttpOutcome Transaction :=
  fun params n =>
    if EtherscanClient.page params =? 1 then found (txRun 1 100)
    else if (n <? 13)%nat
         then Response (mkApiData "0" "" (ResultText "Max rate limit reached"))
         else noTransactionsFound.

(** One transaction, in block 0. *)
Definition oneAtGenesis : Params -> nat -> HttpOutcome Transaction :=
  fun params _ =>
    if (EtherscanClient.startblock params <=? 0)
       && (EtherscanClient.page params =? 1)
    then found [txAt 0]
    else noTransactionsFound.

(** The world after the address with one transaction in block 500 was
    collected up to block 1000. *)
Definition collectedTo1000 : World Client FileSystemStorage.FS :=
  snd (analyzeOrganization 10 "0xabc" "ens" (mkOptions None (Some 1000) false false false)
         (worldOf (clientOf oneAt500))).

End Scenarios.

Module Logic.

(** [m] keeps [Inv], and a value it returns satisfies [Q]. *)
Definition hoare {St A} (Inv : St -> Prop) (m : M St A) (Q : A -> Prop) : Prop :=
  forall st r st', Inv st -> m st = (r, st') ->
                   Inv st' /\ forall a, r = Ret a -> Q a.

(** From a state in [Pre], [m] ends (it does not run out of fuel), in
    [Post] when it returns and in [Exc] when it throws. *)
Definition triple {St A} (Pre : St -> Prop) (m : M St A)
    (Post : A -> St -> Prop) (Exc : JsError -> St -> Prop) : Prop :=
  forall st r st', Pre st -> m st = (r, st') ->
    match r with
    | Ret a => Post a st'
    | Throw e => Exc e st'
    | OutOfFuel => False
    end.

End Logic.

(** * Properties *)

Import Logic.

(** ** Unfolding the monad *)

Ltac unfold_js :=
  unfold bind, ret, throw, tryCatch, modify, gets in *.

(** ** The windows of [processBatchWithType] *)

Section WindowFacts.
Import BlockchainService Schedule.

Lemma windowsFrom_enough n m s e :
  (Z.to_nat (e - s + 1) <= n)%nat -> (Z.to_nat (e - s + 1) <= m)%nat ->
  windowsFrom n s e = windowsFrom m s e.
Proof.
  revert m s. induction n as [|n IH]; intros m s Hn Hm.
  - destruct m as [|m]; [reflexivity|]. simpl.
    destruct (Z.leb_spec s e); [lia | reflexivity].
  - destruct m as [|m]; simpl.
    + destruct (Z.leb_spec s e); [lia | reflexivity].
    + destruct (Z.leb_spec s e); [|reflexivity].
      f_equal. apply IH; unfold BLOCK_RANGE; lia.
Qed.

Lemma windows_step s e :
  s <= e ->
  windows s e =
  (s, Z.min (s + BLOCK_RANGE - 1) e) :: windows (Z.min (s + BLOCK_RANGE - 1) e + 1) e.
Proof.
  intros Hle. unfold windows.
  destruct (Z.to_nat (e - s + 1)) as [|n] eqn:Hn; [lia|].
  simpl. destruct (Z.leb_spec s e); [|lia].
  f_equal. apply windowsFrom_enough; unfold BLOCK_RANGE; lia.
Qed.

Lemma windows_done s e : e < s -> windows s e = [].
Proof.
  intros Hlt. unfold windows.
  replace (Z.to_nat (e - s + 1)) with 0%nat by lia. reflexivity.
Qed.

Lemma windowsFrom_chained n s e :
  (Z.to_nat (e - s + 1) <= n)%nat -> chained s (windowsFrom n s e) e.
Proof.
  revert s. induction n as [|n IH]; intros s Hn; simpl.
  - lia.
  - destruct (Z.leb_spec s e); simpl; [|lia].
    unfold BLOCK_RANGE in *. repeat split; try lia.
    apply IH. lia.
Qed.

Lemma windows_chained s e : chained s (windows s e) e.
Proof. apply windowsFrom_chained. lia. Qed.

Lemma chained_holders n ws : forall s e,
  chained s ws e -> s <= e + 1 ->
  length (holders n ws) = if (s <=? n) && (n <=? e) then 1%nat else 0%nat.
Proof.
  unfold holders.
  induction ws as [|[a b] rest IH]; intros s e Hc Hs; simpl in *.
  - destruct (Z.leb_spec s n), (Z.leb_spec n e); simpl; try reflexivity; lia.
  - destruct Hc as (-> & Hab & Hbe & _ & Hrest).
    specialize (IH _ _ Hrest ltac:(lia)).
    unfold inWindow at 1. simpl.
    destruct (Z.leb_spec s n), (Z.leb_spec n b), (Z.leb_spec n e),
             (Z.leb_spec (b + 1) n);
      simpl in *; rewrite ?IH; try reflexivity; try lia.
Qed.

Lemma chained_partitions ws : forall s e,
  s <= e -> chained s ws e -> Partitions ws s e.
Proof.
  intros s e Hse Hc. unfold Partitions.
  split; [|split; [|split; [|split]]].
  - destruct ws as [|[a b] rest]; simpl in *; [lia|]. destruct Hc as (-> & _). reflexivity.
  - revert s Hse Hc. induction ws as [|[a b] rest IH]; intros s Hse Hc; simpl in *; [lia|].
    destruct Hc as (-> & Hab & Hbe & _ & Hrest).
    destruct rest as [|[a' b'] rest'].
    + simpl in *. f_equal. lia.
    + change (last ((s, b) :: (a', b') :: rest')) with (last ((a', b') :: rest')).
      apply (IH (b + 1)); [|exact Hrest].
      simpl in Hrest. lia.
  - clear Hse. revert s Hc. induction ws as [|[a b] rest IH]; intros s Hc; simpl in *.
    + constructor.
    + destruct Hc as (-> & Hab & Hbe & Hlen & Hrest).
      constructor; [simpl; lia | eapply IH; eauto].
  - clear Hse. revert s Hc. induction ws as [|[a b] rest IH]; intros s Hc i x y Hx Hy.
    + discriminate.
    + simpl in Hc. destruct Hc as (-> & Hab & Hbe & Hlen & Hrest).
      destruct i as [|i]; simpl in *.
      * injection Hx as <-. destruct rest as [|[a' b'] rest']; [discriminate|].
        simpl in Hy. injection Hy as <-. simpl in *. lia.
      * eapply IH; eauto.
  - intros n. apply chained_holders; [exact Hc | lia].
Qed.

End WindowFacts.

Section RunFacts.
Import BlockchainService Schedule.
Context {P S T : Type}.
Variable fetchFn : Z -> Z -> Z -> M P (list T).
Variable saveFn : list T -> M S (list T).
Variable endBlock : Z.
Variable description : string.

Abbreviation W := (World P S).

Lemma processedWindows_snoc tr ev :
  processedWindows (tr ++ [ev]) = processedWindows tr ++ processedWindows [ev].
Proof. unfold processedWindows. apply omap_app. Qed.

Lemma retryLoop_sameWindows {A} (m : M P A) d n : forall attempt (w w' : W) r,
  retryLoop n attempt (onProvider m) d w = (r, w') -> sameWindows w w'.
Proof.
  induction n as [|n IH]; intros attempt w w' r Hrun; simpl in Hrun.
  - unfold_js. injection Hrun as _ <-. reflexivity.
  - unfold tryCatch, onProvider in Hrun.
    destruct (m (dataProvider w)) as [[a|e|] p'] eqn:Hm.
    + injection Hrun as _ <-. reflexivity.
    + destruct (shouldRetry attempt e).
      * unfold delay, emit in Hrun. unfold_js. simpl in Hrun.
        apply IH in Hrun. unfold sameWindows in *. simpl in *.
        rewrite Hrun, !processedWindows_snoc. simpl. rewrite !app_nil_r. reflexivity.
      * unfold_js. injection Hrun as _ <-. reflexivity.
    + injection Hrun as _ <-. reflexivity.
Qed.

Lemma onStorage_sameWindows {A} (m : M S A) (w w' : W) r :
  onStorage m w = (r, w') -> sameWindows w w'.
Proof.
  unfold onStorage. destruct (m (storage w)) as [r0 s']. intros [= _ <-]. reflexivity.
Qed.

Lemma pageLoop_sameWindows fuel : forall cs ce page total (w w' : W) r total',
  pageLoop fetchFn saveFn description fuel cs ce page total w = (r, total', w') ->
  sameWindows w w'.
Proof.
  induction fuel as [|fuel IH]; intros cs ce page total w w' r total' Hrun; simpl in Hrun.
  - injection Hrun as _ _ <-. reflexivity.
  - unfold retryOperation in Hrun.
    destruct (retryLoop _ _ _ _ w) as [[items|e|] w1] eqn:Hfetch;
      apply retryLoop_sameWindows in Hfetch.
    + destruct (Z.of_nat (length items) =? 0).
      * injection Hrun as _ _ <-. exact Hfetch.
      * destruct (onStorage (saveFn items) w1) as [[items'|e|] w2] eqn:Hsave;
          apply onStorage_sameWindows in Hsave.
        -- destruct (Z.of_nat (length items') <? MAX_RECORDS_PER_CALL).
           ++ injection Hrun as _ _ <-. unfold sameWindows in *. simpl.
              rewrite processedWindows_snoc. simpl. rewrite app_nil_r. congruence.
           ++ apply IH in Hrun. unfold sameWindows in *. simpl in Hrun.
              rewrite Hrun, !processedWindows_snoc. simpl. rewrite !app_nil_r. congruence.
        -- injection Hrun as _ _ <-. unfold sameWindows in *. congruence.
        -- injection Hrun as _ _ <-. unfold sameWindows in *. congruence.
    + injection Hrun as _ _ <-. exact Hfetch.
    + injection Hrun as _ _ <-. exact Hfetch.
Qed.

Lemma dedupAdjacent_cons_prefix x ws rest :
  dedupAdjacent ws `prefix_of` rest ->
  (forall y r, dedupAdjacent ws = y :: r -> x <> y) ->
  dedupAdjacent (x :: ws) `prefix_of` x :: rest.
Proof.
  intros Hpre Hne. simpl. destruct (dedupAdjacent ws) as [|y r] eqn:Hd.
  - apply prefix_cons, prefix_nil.
  - rewrite bool_decide_eq_false_2 by (eapply Hne; reflexivity).
    apply prefix_cons. exact Hpre.
Qed.

Lemma dedupAdjacent_cons_eq x ws rest :
  dedupAdjacent ws = rest ->
  (forall y r, rest = y :: r -> x <> y) ->
  dedupAdjacent (x :: ws) = x :: rest.
Proof.
  intros Hd Hne. simpl. rewrite Hd. destruct rest as [|y r]; [reflexivity|].
  rewrite bool_decide_eq_false_2 by (eapply Hne; reflexivity). reflexivity.
Qed.

Lemma dedupAdjacent_again_prefix x ws rest :
  dedupAdjacent ws `prefix_of` x :: rest ->
  dedupAdjacent (x :: ws) `prefix_of` x :: rest.
Proof.
  intros Hpre. simpl. destruct (dedupAdjacent ws) as [|y r] eqn:Hd.
  - apply prefix_cons, prefix_nil.
  - assert (y = x) as -> by (destruct Hpre as [k Hk]; injection Hk; auto).
    rewrite bool_decide_eq_true_2 by reflexivity. exact Hpre.
Qed.

Lemma dedupAdjacent_again_eq x ws rest :
  dedupAdjacent ws = x :: rest -> dedupAdjacent (x :: ws) = x :: rest.
Proof.
  intros Hd. simpl. rewrite Hd, bool_decide_eq_true_2 by reflexivity. reflexivity.
Qed.

Lemma windows_head_ne s e y r :
  s <= e ->
  windows (Z.min (s + BLOCK_RANGE - 1) e + 1) e = y :: r ->
  (s, Z.min (s + BLOCK_RANGE - 1) e) <> y.
Proof.
  intros Hse Hw Heq. subst y.
  pose proof (windows_chained (Z.min (s + BLOCK_RANGE - 1) e + 1) e) as Hc.
  rewrite Hw in Hc. simpl in Hc. unfold BLOCK_RANGE in *. lia.
Qed.

(** Whatever the provider and the storage do, the windows a run announces
    are, up to the repetition of a window that is run again, the first
    windows of the schedule; and all of them when the run completes. *)
Lemma windowLoop_windows fuel : forall currentStart total (w w' : W) r,
  windowLoop fetchFn saveFn endBlock description fuel currentStart total w = (r, w') ->
  exists ws,
    processedWindows (trace w') = processedWindows (trace w) ++ ws /\
    dedupAdjacent ws `prefix_of` windows currentStart endBlock /\
    (r = Ret tt -> dedupAdjacent ws = windows currentStart endBlock).
Proof.
  induction fuel as [|fuel IH]; intros cs total w w' r Hrun.
  - simpl in Hrun. destruct (Z.leb_spec cs endBlock).
    + injection Hrun as <- <-. exists []. rewrite app_nil_r.
      split; [reflexivity|]. split; [apply prefix_nil | discriminate].
    + unfold emit in Hrun. unfold_js. injection Hrun as <- <-. simpl.
      exists []. rewrite processedWindows_snoc, windows_done by lia. simpl.
      split; [reflexivity|]. split; [apply prefix_nil | reflexivity].
  - simpl in Hrun. destruct (Z.leb_spec cs endBlock) as [Hle|Hgt].
    2:{ unfold emit in Hrun. unfold_js. injection Hrun as <- <-. simpl.
        exists []. rewrite processedWindows_snoc, windows_done by lia. simpl.
        split; [reflexivity|]. split; [apply prefix_nil | reflexivity]. }
    set (ce := Z.min (cs + BLOCK_RANGE - 1) endBlock) in *.
    destruct (pageLoop _ _ _ _ _ _ _ _ _) as [[res total'] w1] eqn:Hpages.
    apply pageLoop_sameWindows in Hpages. unfold sameWindows in Hpages.
    simpl in Hpages. rewrite processedWindows_snoc in Hpages. simpl in Hpages.
    rewrite (windows_step cs endBlock Hle). fold ce.
    assert (Hadvance : forall w2 r2 w3,
      processedWindows (trace w2) = processedWindows (trace w) ++ [(cs, ce)] ->
      windowLoop fetchFn saveFn endBlock description fuel (ce + 1) total' w2 = (r2, w3) ->
      exists ws,
        processedWindows (trace w3) = processedWindows (trace w) ++ ws /\
        dedupAdjacent ws `prefix_of` (cs, ce) :: windows (ce + 1) endBlock /\
        (r2 = Ret tt -> dedupAdjacent ws = (cs, ce) :: windows (ce + 1) endBlock)).
    { intros w2 r2 w3 Hw2 Hnext. apply IH in Hnext as (ws & Htr & Hpre & Hall).
      exists ((cs, ce) :: ws). rewrite Htr, Hw2, <- app_assoc. split; [reflexivity|].
      split.
      - apply dedupAdjacent_cons_prefix; [exact Hpre|].
        intros y r0 Hd. destruct Hpre as [k Hk]. rewrite Hd in Hk.
        eapply windows_head_ne; [exact Hle | exact Hk].
      - intros ->. apply dedupAdjacent_cons_eq; [auto|].
        intros y r0 Hd. eapply windows_head_ne; [exact Hle | exact Hd]. }
    destruct res as [[]|error|].
    + eapply Hadvance; [|exact Hrun]. exact Hpages.
    + destruct (isEtherscanError error).
      * destruct (includes "No transactions found" (message error)).
        { eapply Hadvance; [|exact Hrun]. simpl.
          rewrite processedWindows_snoc. simpl. rewrite app_nil_r. exact Hpages. }
        destruct (includes "Max rate limit reached" (message error)).
        { apply IH in Hrun as (ws & Htr & Hpre & Hall). simpl in Htr.
          rewrite !processedWindows_snoc in Htr. simpl in Htr.
          rewrite !app_nil_r, Hpages, <- app_assoc in Htr.
          rewrite (windows_step cs endBlock Hle) in Hpre, Hall. fold ce in Hpre, Hall.
          exists ((cs, ce) :: ws). split; [exact Htr|]. split.
          - apply dedupAdjacent_again_prefix. exact Hpre.
          - intros Hr. apply dedupAdjacent_again_eq. auto. }
        injection Hrun as <- <-. exists [(cs, ce)]. split; [exact Hpages|].
        split; [apply prefix_cons, prefix_nil | discriminate].
      * injection Hrun as <- <-. exists [(cs, ce)]. split; [exact Hpages|].
        split; [apply prefix_cons, prefix_nil | discriminate].
    + injection Hrun as <- <-. exists [(cs, ce)]. split; [exact Hpages|].
      split; [apply prefix_cons, prefix_nil | discriminate].
Qed.

(** With nothing to do the loop ends at once, whatever the fuel. *)
Lemma windowLoop_empty fuel currentStart total (w : W) :
  endBlock < currentStart ->
  windowLoop fetchFn saveFn endBlock description fuel currentStart total w =
  (Ret tt, mkWorld (dataProvider w) (storage w) (rpcBlockNumber w) (today w)
                   (trace w ++ [LogCompleted description total])).
Proof.
  intros Hlt. destruct fuel; simpl; destruct (Z.leb_spec currentStart endBlock);
    try lia; reflexivity.
Qed.

End RunFacts.

(** ** C3 and C7: [retryOperation] *)

Section RetryFacts.
Import BlockchainService Retry.
Context {P S A : Type}.
Variable operation : M (World P S) A.
Variable description : string.

Lemma shouldRetry_spec attempt error :
  shouldRetry attempt error = negb (attempt =? MAX_RETRIES) && retriable error.
Proof. reflexivity. Qed.

Lemma retryLoop_retry remaining attempt w error w1 :
  operation w = (Throw error, w1) ->
  shouldRetry attempt error = true ->
  retryLoop (Datatypes.S remaining) attempt operation description w =
  retryLoop remaining (attempt + 1) operation description
            (logged (retryEvents description attempt error) w1).
Proof.
  intros Hop Hretry. simpl. unfold tryCatch. rewrite Hop, Hretry.
  unfold delay, emit. unfold_js. simpl. unfold logged, retryEvents. simpl.
  rewrite <- app_assoc. reflexivity.
Qed.

Lemma retryLoop_give_up remaining attempt w error w1 :
  operation w = (Throw error, w1) ->
  shouldRetry attempt error = false ->
  retryLoop (Datatypes.S remaining) attempt operation description w = (Throw error, w1).
Proof.
  intros Hop Hretry. simpl. unfold tryCatch. rewrite Hop, Hretry. reflexivity.
Qed.

Lemma retryLoop_success remaining attempt w a w1 :
  operation w = (Ret a, w1) ->
  retryLoop (Datatypes.S remaining) attempt operation description w = (Ret a, w1).
Proof. intros Hop. simpl. unfold tryCatch. rewrite Hop. reflexivity. Qed.

(** An error that leaves the loop was thrown by the operation itself: the
    [throw new Error('Failed after ...')] behind the loop is never reached. *)
Lemma retryLoop_throws_own_error remaining : forall attempt w error w',
  Z.of_nat remaining = MAX_RETRIES - attempt + 1 -> (1 <= remaining)%nat ->
  retryLoop remaining attempt operation description w = (Throw error, w') ->
  exists w0, operation w0 = (Throw error, w').
Proof.
  induction remaining as [|n IH]; intros attempt w error w' Hn Hpos Hrun; [lia|].
  simpl in Hrun. unfold tryCatch in Hrun.
  destruct (operation w) as [[a|e|] w1] eqn:Hop; try discriminate.
  destruct (shouldRetry attempt e) eqn:Hretry.
  - rewrite shouldRetry_spec in Hretry. apply andb_true_iff in Hretry as [Hlast _].
    apply negb_true_iff, Z.eqb_neq in Hlast.
    unfold delay, emit in Hrun. unfold_js. simpl in Hrun.
    eapply (IH (attempt + 1)); [lia | lia | exact Hrun].
  - unfold_js. injection Hrun as <- <-. eauto.
Qed.

(** Three failures in a row that are all retried: three invocations, two
    waits, and the third error comes out as it is. *)
Lemma retryOperation_three_failures (Inv : World P S -> Prop) w :
  Inv w ->
  (forall w0, Inv w0 ->
     exists e w1, operation w0 = (Throw e, w1) /\ retriable e = true /\
                  forall evs, Inv (logged evs w1)) ->
  exists e1 w1 e2 w2 e3 w3,
    operation w = (Throw e1, w1) /\
    operation (logged (retryEvents description 1 e1) w1) = (Throw e2, w2) /\
    operation (logged (retryEvents description 2 e2) w2) = (Throw e3, w3) /\
    retryOperation operation description w = (Throw e3, w3).
Proof.
  intros Hw Hfails.
  destruct (Hfails w Hw) as (e1 & w1 & H1 & R1 & I1).
  destruct (Hfails _ (I1 (retryEvents description 1 e1))) as (e2 & w2 & H2 & R2 & I2).
  destruct (Hfails _ (I2 (retryEvents description 2 e2))) as (e3 & w3 & H3 & R3 & _).
  exists e1, w1, e2, w2, e3, w3. repeat split; try assumption.
  unfold retryOperation. change (Z.to_nat MAX_RETRIES) with 3%nat.
  rewrite (retryLoop_retry _ _ _ _ _ H1) by (rewrite shouldRetry_spec, R1; reflexivity).
  rewrite (retryLoop_retry _ _ _ _ _ H2) by (rewrite shouldRetry_spec, R2; reflexivity).
  apply retryLoop_give_up; [exact H3|].
  rewrite shouldRetry_spec. reflexivity.
Qed.

End RetryFacts.


(** C3 (amended). Take an operation that fails on every invocation of a
    run with an error [retryOperation] retries (anything but an
    [EtherscanError], or one that speaks of a timeout or of the rate limit);
    [Inv] tells which worlds the run goes through.  [retryOperation]
    invokes it exactly [MAX_RETRIES] = 3 times: it ends in the world the
    third invocation leaves behind, after the two waits between the
    attempts.  What it then throws is the error of the third invocation
    itself, as the operation threw it; and in general every error
    [retryOperation] throws was thrown by the operation, so the
    ["Failed after 3 attempts"] error is never raised. *)
Theorem retryOperation_exhausts_and_rethrows :
  forall (P S A : Type) (operation : M (BlockchainService.World P S) A)
         (description : string) (Inv : BlockchainService.World P S -> Prop)
         (w : BlockchainService.World P S),
    Inv w ->
    (forall w0, Inv w0 ->
       exists e w1, operation w0 = (Throw e, w1) /\ Retry.retriable e = true /\
                    forall evs, Inv (Retry.logged evs w1)) ->
    (exists e1 w1 e2 w2 e3 w3,
        operation w = (Throw e1, w1) /\
        operation (Retry.logged (Retry.retryEvents description 1 e1) w1) = (Throw e2, w2) /\
        operation (Retry.logged (Retry.retryEvents description 2 e2) w2) = (Throw e3, w3) /\
        BlockchainService.retryOperation operation description w = (Throw e3, w3)) /\
    (forall w0 error w',
        BlockchainService.retryOperation operation description w0 = (Throw error, w') ->
        exists w1, operation w1 = (Throw error, w')).
Proof.
  intros P S A operation description Inv w Hw Hfails. split.
  - eapply retryOperation_three_failures; eassumption.
  - intros w0 error w' Hrun. unfold BlockchainService.retryOperation in Hrun.
    eapply retryLoop_throws_own_error; [| |exact Hrun]; vm_compute; [reflexivity|lia].
Qed.

Lemma alwaysTimeout_fails w0 :
  Scenarios.timesOut w0 ->
  exists e w1, Scenarios.fetchFirstPage w0 = (Throw e, w1) /\
               Retry.retriable e = true /\
               forall evs, Scenarios.timesOut (Retry.logged evs w1).
Proof.
  destruct w0 as [c st rpc td tr]. unfold Scenarios.timesOut. simpl. intros HI.
  destruct c as [k tl tli tk reqs lrt clk]. simpl in HI. subst tl.
  eexists. eexists. split; [|split].
  - lazy. reflexivity.
  - reflexivity.
  - intros evs. reflexivity.
Qed.

(** A page whose every request times out: three invocations, then the
    timeout error of the third. *)
Lemma retryOperation_exhausts_witness :
  exists e1 w1 e2 w2 e3 w3,
    Scenarios.fetchFirstPage (Scenarios.worldOf (Scenarios.clientOf Scenarios.alwaysTimeout))
    = (Throw e1, w1) /\
    Scenarios.fetchFirstPage
      (Retry.logged (Retry.retryEvents "Fetching normal transactions" 1 e1) w1)
    = (Throw e2, w2) /\
    Scenarios.fetchFirstPage
      (Retry.logged (Retry.retryEvents "Fetching normal transactions" 2 e2) w2)
    = (Throw e3, w3) /\
    BlockchainService.retryOperation Scenarios.fetchFirstPage "Fetching normal transactions"
      (Scenarios.worldOf (Scenarios.clientOf Scenarios.alwaysTimeout))
    = (Throw e3, w3).
Proof.
  refine (proj1 (retryOperation_exhausts_and_rethrows _ _ _ _ _ Scenarios.timesOut _ _ _)).
  - reflexivity.
  - exact alwaysTimeout_fails.
Defined.

(** C3, as stated, fails: after three timeouts [retryOperation] throws the
    [EtherscanError] of the last request, and not an error that says the
    operation failed after three attempts. *)
Lemma retryOperation_no_exhaustion_error :
  let '(r, w') := Scenarios.fetchPage "0xabc" 0 49999 1
                    (Scenarios.worldOf (Scenarios.clientOf Scenarios.alwaysTimeout)) in
  r = Throw (EtherscanError "Network error: timeout of 60000ms exceeded") /\
  r <> Throw (Error "Failed after 3 attempts: Fetching normal transactions") /\
  Scenarios.requestCount w' = 3%nat.
Proof. vm_compute. repeat split; congruence. Qed.

(** ** C7: the waits *)

Section DelayFacts.
Import BlockchainService Retry.
Context {P S : Type}.

Lemma delays_app tr1 tr2 : delays (tr1 ++ tr2) = delays tr1 ++ delays tr2.
Proof. apply omap_app. Qed.

Lemma onProvider_throw {A} (m : M P A) (w : World P S) e p' :
  m (dataProvider w) = (Throw e, p') ->
  onProvider m w = (Throw e, mkWorld p' (storage w) (rpcBlockNumber w) (today w) (trace w)).
Proof. intros Hm. unfold onProvider. rewrite Hm. reflexivity. Qed.

(** A provider call that keeps failing with retried errors: the service
    waits [RETRY_DELAY * 1], then [RETRY_DELAY * 2], and gives up. *)
Lemma retryOperation_delays {A} (m : M P A) description (Inv : P -> Prop) (w : World P S) :
  Inv (dataProvider w) ->
  (forall p, Inv p -> exists e p', m p = (Throw e, p') /\ retriable e = true /\ Inv p') ->
  exists e w',
    retryOperation (onProvider m) description w = (Throw e, w') /\
    delays (trace w') = delays (trace w) ++ [RETRY_DELAY * 1; RETRY_DELAY * 2].
Proof.
  intros Hw Hfails.
  destruct (retryOperation_three_failures (onProvider m) description
              (fun w0 => Inv (dataProvider w0)) w Hw)
    as (e1 & w1 & e2 & w2 & e3 & w3 & H1 & H2 & H3 & Hrun).
  { intros w0 H0. destruct (Hfails _ H0) as (e & p' & Hm & Hr & Hp).
    eexists. eexists. split; [apply onProvider_throw; exact Hm|]. split; [exact Hr|].
    intros evs. exact Hp. }
  exists e3, w3. split; [exact Hrun|].
  unfold onProvider in H1, H2, H3.
  destruct (m (dataProvider w)) as [r1 p1]. injection H1 as _ <-.
  simpl in H2. destruct (m p1) as [r2 p2]. injection H2 as _ <-.
  simpl in H3. destruct (m p2) as [r3 p3]. injection H3 as _ <-.
  simpl. rewrite !delays_app. simpl. rewrite <- app_assoc. reflexivity.
Qed.

Context {T : Type}.
Variable fetchFn : Z -> Z -> Z -> M P (list T).
Variable saveFn : list T -> M S (list T).
Variable endBlock : Z.
Variable description : string.

(** A window that ends in a ["Max rate limit reached"] error: the loop
    waits 5000 ms and takes up the same window again. *)
Lemma windowLoop_rate_limit fuel currentStart total (w : World P S) msg total' w1 :
  currentStart <= endBlock ->
  pageLoop fetchFn saveFn description fuel currentStart
           (Z.min (currentStart + BLOCK_RANGE - 1) endBlock) 1 total
           (logged [LogProcessing description currentStart
                      (Z.min (currentStart + BLOCK_RANGE - 1) endBlock)] w)
  = (Throw (EtherscanError msg), total', w1) ->
  includes "No transactions found" msg = false ->
  includes "Max rate limit reached" msg = true ->
  windowLoop fetchFn saveFn endBlock description (Datatypes.S fuel) currentStart total w
  = windowLoop fetchFn saveFn endBlock description fuel currentStart total'
               (logged [LogRateLimit; Delay 5000] w1).
Proof.
  intros Hle Hpages Hnone Hrate. simpl.
  destruct (Z.leb_spec currentStart endBlock); [|lia].
  unfold emit. unfold_js. simpl. unfold logged in Hpages. rewrite Hpages. simpl.
  rewrite Hnone, Hrate. unfold delay, emit, logged. unfold_js. simpl.
  rewrite <- app_assoc. reflexivity.
Qed.

End DelayFacts.

(** C7 (amended). After a failure that [retryOperation] retries, the wait
    before the next attempt is [RETRY_DELAY * attempt]: linear in the
    attempt counter, 10000 ms after the first failure and 20000 ms after the
    second, and a provider call that keeps failing waits exactly these two
    times.  The fixed wait is the one of [processBatchWithType]: when a
    ["Max rate limit reached"] error comes out of a window, it waits
    5000 ms, which is less than any retry delay, and takes up the same
    window again. *)
Theorem retryOperation_delay_is_linear :
  (forall (P S A : Type) (operation : M (BlockchainService.World P S) A)
          description remaining attempt w error w1,
      operation w = (Throw error, w1) ->
      BlockchainService.shouldRetry attempt error = true ->
      BlockchainService.retryLoop (Datatypes.S remaining) attempt operation description w
      = BlockchainService.retryLoop remaining (attempt + 1) operation description
          (Retry.logged
             [BlockchainService.LogRetry description attempt
                (BlockchainService.RETRY_DELAY * attempt) error;
              BlockchainService.Delay (BlockchainService.RETRY_DELAY * attempt)] w1)) /\
  (forall (P S A : Type) (m : M P A) description (Inv : P -> Prop)
          (w : BlockchainService.World P S),
      Inv (BlockchainService.dataProvider w) ->
      (forall p, Inv p ->
         exists e p', m p = (Throw e, p') /\ Retry.retriable e = true /\ Inv p') ->
      exists e w',
        BlockchainService.retryOperation (BlockchainService.onProvider m) description w
        = (Throw e, w') /\
        Retry.delays (BlockchainService.trace w')
        = Retry.delays (BlockchainService.trace w) ++ [10000; 20000]) /\
  (forall (P S T : Type) (fetchFn : Z -> Z -> Z -> M P (list T))
          (saveFn : list T -> M S (list T)) endBlock description fuel currentStart total
          (w : BlockchainService.World P S) msg total' w1,
      currentStart <= endBlock ->
      BlockchainService.pageLoop fetchFn saveFn description fuel currentStart
        (Z.min (currentStart + BlockchainService.BLOCK_RANGE - 1) endBlock) 1 total
        (Retry.logged
           [BlockchainService.LogProcessing description currentStart
              (Z.min (currentStart + BlockchainService.BLOCK_RANGE - 1) endBlock)] w)
      = (Throw (EtherscanError msg), total', w1) ->
      includes "No transactions found" msg = false ->
      includes "Max rate limit reached" msg = true ->
      BlockchainService.windowLoop fetchFn saveFn endBlock description
        (Datatypes.S fuel) currentStart total w
      = BlockchainService.windowLoop fetchFn saveFn endBlock description fuel
          currentStart total'
          (Retry.logged [BlockchainService.LogRateLimit; BlockchainService.Delay 5000] w1)) /\
  (forall attempt, 1 <= attempt -> 5000 < BlockchainService.RETRY_DELAY * attempt).
Proof.
  split; [|split; [|split]].
  - intros. apply retryLoop_retry; assumption.
  - intros P S A m description Inv w Hw Hfails.
    exact (retryOperation_delays m description Inv w Hw Hfails).
  - intros. eapply windowLoop_rate_limit; eassumption.
  - intros attempt Hpos. unfold BlockchainService.RETRY_DELAY. lia.
Qed.

Lemma alwaysTimeout_keeps_failing (c : EtherscanClient.Client) :
  EtherscanClient.txlist c = Scenarios.alwaysTimeout ->
  exists e c',
    getTransactions "0xabc" (BlockchainService.pageQuery 0 49999 1) c = (Throw e, c') /\
    Retry.retriable e = true /\
    EtherscanClient.txlist c' = Scenarios.alwaysTimeout.
Proof.
  destruct c as [k tl tli tk reqs lrt clk]. simpl. intros ->.
  eexists. eexists. split; [|split].
  - lazy. reflexivity.
  - reflexivity.
  - reflexivity.
Qed.

(** Requests that all time out: the service waits 10 s, then 20 s. *)
Lemma retryOperation_delay_witness :
  exists e w',
    BlockchainService.retryOperation Scenarios.fetchFirstPage
      "Fetching normal transactions"
      (Scenarios.worldOf (Scenarios.clientOf Scenarios.alwaysTimeout))
    = (Throw e, w') /\
    Retry.delays (BlockchainService.trace w') = [10000; 20000].
Proof.
  exact (proj1 (proj2 retryOperation_delay_is_linear)
           EtherscanClient.Client FileSystemStorage.FS (list Transaction)
           (getTransactions "0xabc" (BlockchainService.pageQuery 0 49999 1))
           "Fetching normal transactions"
           (fun c => EtherscanClient.txlist c = Scenarios.alwaysTimeout)
           (Scenarios.worldOf (Scenarios.clientOf Scenarios.alwaysTimeout))
           eq_refl alwaysTimeout_keeps_failing).
Defined.

(** C7, as stated, fails.  With the attempt counter of the loop, the wait
    after the failure of attempt 1 is 10000 ms and not
    [RETRY_DELAY * 2 ^ 1]; and the fixed wait for a rate-limit error, 5000 ms
    in [processBatchWithType], is shorter than the retry waits that come
    before it, not longer. *)
Lemma retry_delay_not_exponential :
  (let '(r, w') := Scenarios.fetchPage "0xabc" 0 49999 1
                     (Scenarios.worldOf (Scenarios.clientOf Scenarios.alwaysTimeout)) in
   Retry.delays (BlockchainService.trace w') = [10000; 20000] /\
   Retry.delays (BlockchainService.trace w')
   <> [BlockchainService.RETRY_DELAY * 2 ^ 1; BlockchainService.RETRY_DELAY * 2 ^ 2]) /\
  (let '(r, w') := Scenarios.collectNormal "0xabc" "ens" 9 10 0
                     (Scenarios.worldOf (Scenarios.clientOf Scenarios.rateLimitedAtFirst)) in
   r = Ret tt /\
   Retry.delays (BlockchainService.trace w') = [10000; 20000; 5000]).
Proof. vm_compute. repeat split; congruence. Qed.

(** ** Invariants of computations in the monad *)

Section Hoare.
Context {St : Type}.
Variable Inv : St -> Prop.

Lemma hoare_ret {A} (a : A) (Q : A -> Prop) : Q a -> hoare Inv (ret a) Q.
Proof. intros Hq st r st' Hi [= <- <-]. split; [exact Hi|]. intros ? [= <-]. exact Hq. Qed.

Lemma hoare_throw {A} e (Q : A -> Prop) : hoare Inv (throw e) Q.
Proof. intros st r st' Hi [= <- <-]. split; [exact Hi|]. discriminate. Qed.

Lemma hoare_gets {A} (f : St -> A) (Q : A -> Prop) :
  (forall st, Inv st -> Q (f st)) -> hoare Inv (gets f) Q.
Proof.
  intros Hq st r st' Hi [= <- <-]. split; [exact Hi|]. intros ? [= <-]. auto.
Qed.

Lemma hoare_modify (f : St -> St) (Q : unit -> Prop) :
  (forall st, Inv st -> Inv (f st)) -> Q tt -> hoare Inv (modify f) Q.
Proof.
  intros Hf Hq st r st' Hi [= <- <-]. split; [auto|]. intros ? [= <-]. exact Hq.
Qed.

Lemma hoare_bind {A B} (m : M St A) (k : A -> M St B) (Q1 : A -> Prop) (Q2 : B -> Prop) :
  hoare Inv m Q1 -> (forall a, Q1 a -> hoare Inv (k a) Q2) -> hoare Inv (bind m k) Q2.
Proof.
  intros Hm Hk st r st' Hi Hrun. unfold bind in Hrun.
  destruct (m st) as [[a|e|] st1] eqn:Hmst;
    destruct (Hm _ _ _ Hi Hmst) as [Hi1 Hq1].
  - eapply Hk; [apply Hq1; reflexivity | exact Hi1 | exact Hrun].
  - injection Hrun as <- <-. split; [exact Hi1 | discriminate].
  - injection Hrun as <- <-. split; [exact Hi1 | discriminate].
Qed.

Lemma hoare_tryCatch {A} (m : M St A) (h : JsError -> M St A) (Q : A -> Prop) :
  hoare Inv m Q -> (forall e, hoare Inv (h e) Q) -> hoare Inv (tryCatch m h) Q.
Proof.
  intros Hm Hh st r st' Hi Hrun. unfold tryCatch in Hrun.
  destruct (m st) as [[a|e|] st1] eqn:Hmst;
    destruct (Hm _ _ _ Hi Hmst) as [Hi1 Hq1].
  - injection Hrun as <- <-. split; [exact Hi1 | exact Hq1].
  - eapply Hh; [exact Hi1 | exact Hrun].
  - injection Hrun as <- <-. split; [exact Hi1 | discriminate].
Qed.

Lemma hoare_seq {A B} (m : M St A) (k : M St B) (Q : B -> Prop) :
  hoare Inv m (fun _ => True) -> hoare Inv k Q -> hoare Inv (bind m (fun _ => k)) Q.
Proof. intros Hm Hk. eapply hoare_bind; [exact Hm|]. intros _ _. exact Hk. Qed.

End Hoare.


(** ** C8: [lastProcessedBlock] and the cursors *)

Section StateInvariant.
Import FileSystemStorage Cursors.

Lemma initialState_ok t : lastProcessedBlock (initialState t) = highWater (initialState t).
Proof. reflexivity. Qed.

Lemma freshState_ok t :
  lastProcessedBlock (LegacyFileSystemStorage.freshState t)
  = highWater (LegacyFileSystemStorage.freshState t).
Proof. reflexivity. Qed.

Lemma transactionStateUpdate_ok type lb cnt t v :
  lastProcessedBlock v = highWater v ->
  lastProcessedBlock (transactionStateUpdate type lb cnt t v)
  = highWater (transactionStateUpdate type lb cnt t v).
Proof.
  unfold highWater. destruct v as [lpb ts tot [n i k] ev], type; simpl; lia.
Qed.

Lemma tokenTransferStateUpdate_ok lb cnt t v :
  lastProcessedBlock v = highWater v ->
  lastProcessedBlock (tokenTransferStateUpdate lb cnt t v)
  = highWater (tokenTransferStateUpdate lb cnt t v).
Proof. unfold highWater. destruct v as [lpb ts tot [n i k] ev]; simpl; lia. Qed.

Lemma stateUpdate_ok type lb cnt t v :
  lastProcessedBlock v = highWater v ->
  lastProcessedBlock (LegacyFileSystemStorage.stateUpdate type lb cnt t v)
  = highWater (LegacyFileSystemStorage.stateUpdate type lb cnt t v).
Proof.
  unfold highWater. destruct v as [lpb ts tot [n i k] ev], type; simpl; lia.
Qed.

Lemma eventStateUpdate_ok addr evs t v :
  lastProcessedBlock v = highWater v ->
  lastProcessedBlock (eventStateUpdate addr evs t v)
  = highWater (eventStateUpdate addr evs t v).
Proof. intros Hv. exact Hv. Qed.

Lemma readDir_ok st name : stateOk st -> dirOk (readDir st name).
Proof.
  intros Hok. unfold readDir.
  destruct (disk st !! getOrganizationDir name) as [d|] eqn:Hd; simpl.
  - exact (map_Forall_lookup_1 _ _ _ _ Hok Hd).
  - intros v Hv. discriminate.
Qed.

Lemma writeDir_ok st name f :
  stateOk st -> dirOk (f (readDir st name)) -> stateOk (writeDir name f st).
Proof. intros Hok Hd. unfold stateOk, writeDir. simpl. apply map_Forall_insert_2; assumption. Qed.

Lemma fsOp_ok : hoare stateOk fsOp (fun _ => True).
Proof.
  intros st r st' Hok Hrun. unfold fsOp in Hrun.
  destruct (faults st (fsOps st)); injection Hrun as <- <-; split; auto.
Qed.

Lemma writeStateSafely_ok name v :
  lastProcessedBlock v = highWater v ->
  hoare stateOk (writeStateSafely name v) (fun _ => True).
Proof.
  intros Hv. unfold writeStateSafely.
  apply hoare_tryCatch; [|intros e; apply hoare_throw].
  do 2 (apply hoare_seq; [apply fsOp_ok|]).
  apply hoare_modify; [|exact I].
  intros st Hok. apply writeDir_ok; [exact Hok|].
  intros v' [= <-]. exact Hv.
Qed.

Lemma keepState_ok st name f :
  stateOk st -> (forall d, stateJson (f d) = stateJson d) -> stateOk (writeDir name f st).
Proof.
  intros Hok Hf. apply writeDir_ok; [exact Hok|].
  intros v Hv. rewrite Hf in Hv. exact (readDir_ok st name Hok v Hv).
Qed.

Lemma writeMetadataSafely_ok name data :
  hoare stateOk (writeMetadataSafely name data) (fun _ => True).
Proof.
  unfold writeMetadataSafely.
  apply hoare_tryCatch; [|intros e; apply hoare_throw].
  do 2 (apply hoare_seq; [apply fsOp_ok|]).
  apply hoare_modify; [|exact I].
  intros st Hok. apply keepState_ok; [exact Hok | reflexivity].
Qed.

Lemma getLastProcessedState_ok name :
  hoare stateOk (getLastProcessedState name)
        (fun o => forall v, o = Some v -> lastProcessedBlock v = highWater v).
Proof.
  unfold getLastProcessedState.
  apply hoare_tryCatch; [|intros e; apply hoare_throw].
  apply hoare_seq; [apply fsOp_ok|].
  eapply hoare_bind.
  - apply hoare_gets with
      (Q := fun o => forall v, o = Some v -> lastProcessedBlock v = highWater v).
    intros st Hok v Hv. exact (readDir_ok st name Hok v Hv).
  - intros [v|] Hq; simpl.
    + apply hoare_seq; [apply fsOp_ok|]. apply hoare_ret. exact Hq.
    + apply hoare_ret. exact Hq.
Qed.

Lemma initializeState_ok name : hoare stateOk (initializeState name) (fun _ => True).
Proof.
  unfold initializeState. apply hoare_seq; [apply fsOp_ok|].
  eapply hoare_bind; [apply hoare_gets with (Q := fun _ => True); auto|].
  intros [v|] _.
  - apply hoare_ret. exact I.
  - eapply hoare_bind; [apply hoare_gets with (Q := fun _ => True); auto|].
    intros t _. apply writeStateSafely_ok, initialState_ok.
Qed.

Lemma saveOrganization_ok organization :
  hoare stateOk (saveOrganization organization) (fun _ => True).
Proof.
  unfold saveOrganization.
  apply hoare_tryCatch; [|intros e; apply hoare_throw].
  do 5 (apply hoare_seq; [apply fsOp_ok|]).
  eapply hoare_bind; [apply hoare_gets with (Q := fun _ => True); auto|].
  intros t _. apply hoare_seq; [apply writeMetadataSafely_ok|].
  apply initializeState_ok.
Qed.

Lemma batchLoop_ok {A} (write : list A -> M FS unit) fuel :
  (forall batch, hoare stateOk (write batch) (fun _ => True)) ->
  forall i xs, hoare stateOk (batchLoop write fuel i xs) (fun _ => True).
Proof.
  intros Hwrite. induction fuel as [|fuel IH]; intros i xs st r st' Hok Hrun;
    simpl in Hrun; destruct (i <? length xs)%nat.
  - injection Hrun as <- <-. split; auto.
  - injection Hrun as <- <-. split; auto.
  - revert Hrun. apply hoare_seq; [apply Hwrite | apply IH | exact Hok].
  - injection Hrun as <- <-. split; auto.
Qed.

Lemma writeRecords_ok name type rows :
  hoare stateOk (writeRecords name type rows) (fun _ => True).
Proof.
  unfold writeRecords. apply hoare_seq; [apply fsOp_ok|].
  apply hoare_modify; [|exact I].
  intros st Hok. apply keepState_ok; [exact Hok|]. intros d. destruct type; reflexivity.
Qed.

Lemma writeTransferRecords_ok name rows :
  hoare stateOk (writeTransferRecords name rows) (fun _ => True).
Proof.
  unfold writeTransferRecords. apply hoare_seq; [apply fsOp_ok|].
  apply hoare_modify; [|exact I].
  intros st Hok. apply keepState_ok; [exact Hok | reflexivity].
Qed.

Lemma updateTransactionState_ok name type lb cnt :
  hoare stateOk (updateTransactionState name type lb cnt) (fun _ => True).
Proof.
  unfold updateTransactionState.
  eapply hoare_bind; [apply getLastProcessedState_ok|]. intros cur _.
  apply hoare_seq.
  { destruct cur; [apply hoare_ret; exact I | apply initializeState_ok]. }
  eapply hoare_bind; [apply getLastProcessedState_ok|]. intros [v|] Hv.
  - eapply hoare_bind; [apply hoare_gets with (Q := fun _ => True); auto|].
    intros t _. apply writeStateSafely_ok, transactionStateUpdate_ok, Hv. reflexivity.
  - apply hoare_ret. exact I.
Qed.

Lemma saveTransactions_ok name txs type :
  hoare stateOk (saveTransactions name txs type) (fun _ => True).
Proof.
  unfold saveTransactions. destruct (length txs =? 0)%nat; [apply hoare_ret; exact I|].
  apply hoare_tryCatch; [|intros e; apply hoare_throw].
  do 2 (apply hoare_seq; [apply fsOp_ok|]).
  apply hoare_seq; [apply batchLoop_ok; intros; apply writeRecords_ok|].
  apply hoare_seq; [apply updateTransactionState_ok|].
  apply hoare_ret. exact I.
Qed.

Lemma updateTokenTransferState_ok name lb cnt :
  hoare stateOk (updateTokenTransferState name lb cnt) (fun _ => True).
Proof.
  unfold updateTokenTransferState.
  eapply hoare_bind; [apply getLastProcessedState_ok|]. intros cur _.
  apply hoare_seq.
  { destruct cur; [apply hoare_ret; exact I | apply initializeState_ok]. }
  eapply hoare_bind; [apply getLastProcessedState_ok|]. intros [v|] Hv.
  - eapply hoare_bind; [apply hoare_gets with (Q := fun _ => True); auto|].
    intros t _. apply writeStateSafely_ok, tokenTransferStateUpdate_ok, Hv. reflexivity.
  - apply hoare_ret. exact I.
Qed.

Lemma saveTokenTransfers_ok name transfers :
  hoare stateOk (saveTokenTransfers name transfers) (fun _ => True).
Proof.
  unfold saveTokenTransfers.
  destruct (length transfers =? 0)%nat; [apply hoare_ret; exact I|].
  apply hoare_tryCatch; [|intros e; apply hoare_throw].
  do 2 (apply hoare_seq; [apply fsOp_ok|]).
  apply hoare_seq; [apply batchLoop_ok; intros; apply writeTransferRecords_ok|].
  apply hoare_seq; [apply updateTokenTransferState_ok|].
  apply hoare_ret. exact I.
Qed.

Lemma appendEvents_ok name addr type evs :
  hoare stateOk (appendEvents name addr type evs) (fun _ => True).
Proof.
  unfold appendEvents. apply hoare_seq; [apply fsOp_ok|].
  eapply hoare_bind; [apply hoare_gets with (Q := fun _ => True); auto|].
  intros existing _.
  eapply hoare_bind with (Q1 := fun _ => True).
  { destruct existing; [apply hoare_seq; [apply fsOp_ok|]|]; apply hoare_ret; exact I. }
  intros existingEvents _.
  apply hoare_tryCatch; [|intros e; apply hoare_throw].
  do 2 (apply hoare_seq; [apply fsOp_ok|]).
  apply hoare_modify; [|exact I].
  intros st Hok. apply keepState_ok; [exact Hok | reflexivity].
Qed.

Lemma appendAll_ok name addr groups :
  hoare stateOk (appendAll name addr groups) (fun _ => True).
Proof.
  induction groups as [|[type evs] rest IH]; simpl.
  - apply hoare_ret. exact I.
  - apply hoare_seq; [apply appendEvents_ok | exact IH].
Qed.

Lemma updateEventState_ok name addr evs :
  hoare stateOk (updateEventState name addr evs) (fun _ => True).
Proof.
  unfold updateEventState.
  eapply hoare_bind; [apply getLastProcessedState_ok|]. intros [v|] Hv.
  - eapply hoare_bind; [apply hoare_gets with (Q := fun _ => True); auto|].
    intros t _. apply writeStateSafely_ok, eventStateUpdate_ok, Hv. reflexivity.
  - apply hoare_ret. exact I.
Qed.

Lemma saveContractEvents_ok name addr evs :
  hoare stateOk (saveContractEvents name addr evs) (fun _ => True).
Proof.
  unfold saveContractEvents. destruct (length evs =? 0)%nat; [apply hoare_ret; exact I|].
  apply hoare_tryCatch; [|intros e; apply hoare_throw].
  apply hoare_seq; [apply fsOp_ok|].
  apply hoare_seq; [apply appendAll_ok | apply updateEventState_ok].
Qed.

Lemma legacy_getLastProcessedState_ok name :
  hoare stateOk (LegacyFileSystemStorage.getLastProcessedState name)
        (fun o => forall v, o = Some v -> lastProcessedBlock v = highWater v).
Proof.
  unfold LegacyFileSystemStorage.getLastProcessedState.
  apply hoare_tryCatch; [|intros e; apply hoare_ret; discriminate].
  apply hoare_seq; [apply fsOp_ok|].
  eapply hoare_bind.
  - apply hoare_gets with
      (Q := fun o => forall v, o = Some v -> lastProcessedBlock v = highWater v).
    intros st Hok v Hv. exact (readDir_ok st name Hok v Hv).
  - intros [v|] Hq; simpl.
    + apply hoare_seq; [apply fsOp_ok|]. apply hoare_ret. exact Hq.
    + apply hoare_ret. exact Hq.
Qed.

Lemma updateState_ok name type lb cnt :
  hoare stateOk (LegacyFileSystemStorage.updateState name type lb cnt) (fun _ => True).
Proof.
  unfold LegacyFileSystemStorage.updateState.
  eapply hoare_bind; [apply legacy_getLastProcessedState_ok|]. intros read Hread.
  eapply hoare_bind; [apply hoare_gets with (Q := fun _ => True); auto|]. intros t _.
  apply hoare_seq; [apply fsOp_ok|].
  apply hoare_modify; [|exact I].
  intros st Hok. apply writeDir_ok; [exact Hok|]. intros v [= <-].
  apply stateUpdate_ok. destruct read as [v|]; simpl;
    [apply Hread; reflexivity | apply freshState_ok].
Qed.

Lemma applyOp_ok st op : stateOk st -> stateOk (applyOp st op).
Proof.
  intros Hok.
  destruct op as [organization | name txs type | name transfers | name addr evs
                 | name type lb cnt]; simpl.
  - destruct (saveOrganization organization st) as [r st'] eqn:Hrun.
    exact (proj1 (saveOrganization_ok _ _ _ _ Hok Hrun)).
  - destruct (saveTransactions name txs type st) as [r st'] eqn:Hrun.
    exact (proj1 (saveTransactions_ok _ _ _ _ _ _ Hok Hrun)).
  - destruct (saveTokenTransfers name transfers st) as [r st'] eqn:Hrun.
    exact (proj1 (saveTokenTransfers_ok _ _ _ _ _ Hok Hrun)).
  - destruct (saveContractEvents name addr evs st) as [r st'] eqn:Hrun.
    exact (proj1 (saveContractEvents_ok _ _ _ _ _ _ Hok Hrun)).
  - destruct (LegacyFileSystemStorage.updateState name type lb cnt st)
      as [r st'] eqn:Hrun.
    exact (proj1 (updateState_ok _ _ _ _ _ _ _ Hok Hrun)).
Qed.

Lemma applyOps_ok ops : forall st, stateOk st -> stateOk (applyOps ops st).
Proof.
  induction ops as [|op ops IH]; intros st Hok; simpl; [exact Hok|].
  apply IH, applyOp_ok, Hok.
Qed.

End StateInvariant.

(** C8 (amended). After every update of the persisted state (its
    initialization by [saveOrganization], the saving of normal or internal
    transactions, of token transfers or of contract events, or
    [updateState] of the earlier implementation), whichever file-system
    operations fail on the way, [lastProcessedBlock] equals the maximum of
    [lastBlock] over the three transaction cursors [normal], [internal]
    and [tokenTransfers].  The event cursor has no part in it: saving
    contract events leaves [lastProcessedBlock] as it is. *)
Theorem lastProcessedBlock_is_max_of_transaction_cursors :
  forall optBatchSize faults now ops name v,
    FileSystemStorage.stateJson
      (FileSystemStorage.readDir
         (Cursors.applyOps ops (FileSystemStorage.create optBatchSize faults now)) name)
    = Some v ->
    lastProcessedBlock v = Cursors.highWater v /\
    forall contractAddress evs t,
      lastProcessedBlock (FileSystemStorage.eventStateUpdate contractAddress evs t v)
      = lastProcessedBlock v.
Proof.
  intros optBatchSize faults now ops name v Hv. split; [|reflexivity].
  assert (Hok : Cursors.stateOk
                  (Cursors.applyOps ops (FileSystemStorage.create optBatchSize faults now))).
  { apply applyOps_ok. unfold Cursors.stateOk. simpl. apply map_Forall_empty. }
  exact (readDir_ok _ name Hok v Hv).
Qed.

(** The state after two transactions and one contract event. *)
Lemma lastProcessedBlock_witness :
  exists v,
    FileSystemStorage.stateJson (FileSystemStorage.readDir Scenarios.afterEvents "ens")
    = Some v /\
    lastProcessedBlock v = Cursors.highWater v.
Proof.
  destruct (FileSystemStorage.stateJson
              (FileSystemStorage.readDir Scenarios.afterEvents "ens")) as [v|] eqn:Hv.
  - exists v. split; [reflexivity|].
    exact (proj1 (lastProcessedBlock_is_max_of_transaction_cursors
                    None (fun _ => false) 1700000000000 Scenarios.eventOps "ens" v Hv)).
  - vm_compute in Hv. discriminate.
Defined.

(** C8, as stated, fails: once a contract event of block 12 is saved the
    event cursor is 12, above every transaction cursor, and
    [lastProcessedBlock] is still 7. *)
Lemma lastProcessedBlock_ignores_event_cursor :
  match FileSystemStorage.stateJson
          (FileSystemStorage.readDir Scenarios.afterEvents "ens") with
  | Some v =>
      lastProcessedBlock v = 7 /\
      Cursors.eventCursor v = Some 12 /\
      Cursors.highWaterWithEvents v = 12 /\
      lastProcessedBlock v <> Cursors.highWaterWithEvents v
  | None => False
  end.
Proof. vm_compute. repeat split; congruence. Qed.

(** ** Pre- and postconditions of computations in the monad *)

Section Triple.
Context {St : Type}.

Lemma triple_ret {A} (a : A) (Pre : St -> Prop) Post Exc :
  (forall st, Pre st -> Post a st) -> triple Pre (ret a) Post Exc.
Proof. intros H st r st' Hp [= <- <-]. auto. Qed.

Lemma triple_throw {A} e (Pre : St -> Prop) (Post : A -> St -> Prop) Exc :
  (forall st, Pre st -> Exc e st) -> triple Pre (throw e) Post Exc.
Proof. intros H st r st' Hp [= <- <-]. auto. Qed.

Lemma triple_gets {A} (f : St -> A) (Pre : St -> Prop) Post Exc :
  (forall st, Pre st -> Post (f st) st) -> triple Pre (gets f) Post Exc.
Proof. intros H st r st' Hp [= <- <-]. auto. Qed.

Lemma triple_modify (f : St -> St) (Pre : St -> Prop) Post Exc :
  (forall st, Pre st -> Post tt (f st)) -> triple Pre (modify f) Post Exc.
Proof. intros H st r st' Hp [= <- <-]. auto. Qed.

Lemma triple_bind {A B} (m : M St A) (k : A -> M St B) Pre Q1 E1 Post Exc :
  triple Pre m Q1 E1 ->
  (forall e st, E1 e st -> Exc e st) ->
  (forall a, triple (Q1 a) (k a) Post Exc) ->
  triple Pre (bind m k) Post Exc.
Proof.
  intros Hm He Hk st r st' Hp Hrun. unfold bind in Hrun.
  destruct (m st) as [[a|e|] st1] eqn:Hmst; specialize (Hm _ _ _ Hp Hmst); simpl in Hm.
  - exact (Hk a _ _ _ Hm Hrun).
  - injection Hrun as <- <-. auto.
  - contradiction.
Qed.

Lemma triple_tryCatch {A} (m : M St A) (h : JsError -> M St A) Pre Post E1 Exc :
  triple Pre m Post E1 ->
  (forall e, triple (E1 e) (h e) Post Exc) ->
  triple Pre (tryCatch m h) Post Exc.
Proof.
  intros Hm Hh st r st' Hp Hrun. unfold tryCatch in Hrun.
  destruct (m st) as [[a|e|] st1] eqn:Hmst; specialize (Hm _ _ _ Hp Hmst); simpl in Hm.
  - injection Hrun as <- <-. exact Hm.
  - exact (Hh e _ _ _ Hm Hrun).
  - contradiction.
Qed.

Lemma triple_conseq {A} (m : M St A) (Pre Pre' : St -> Prop) (Post Post' : A -> St -> Prop)
    (Exc Exc' : JsError -> St -> Prop) :
  triple Pre' m Post' Exc' ->
  (forall st, Pre st -> Pre' st) ->
  (forall a st, Post' a st -> Post a st) ->
  (forall e st, Exc' e st -> Exc e st) ->
  triple Pre m Post Exc.
Proof.
  intros Hm Hp Hq He st r st' Hpre Hrun. specialize (Hm _ _ _ (Hp _ Hpre) Hrun).
  destruct r; auto.
Qed.

End Triple.

(** ** What the storage calls do to the files of an organization *)

Section StorageSpecs.
Import FileSystemStorage Cursors.
Variable name : string.
Variable type : TxType.
Variable bs : nat.
Variable t : Z.
Variable f : nat -> bool.

Abbreviation At := (Snap name type bs t f).

Abbreviation Failed := (Cursors.Failed f).
Abbreviation untouched := (Cursors.untouched t).

Lemma readDir_writeDir g st : readDir (writeDir name g st) name = g (readDir st name).
Proof. unfold readDir, writeDir. simpl. rewrite lookup_insert_eq. reflexivity. Qed.

Lemma fsOp_spec rows sj :
  triple (At rows sj) fsOp (fun _ => At rows sj) (Failed (At rows sj)).
Proof.
  intros st r st' (Hb & Ht & Hf & Hrows & Hsj) Hrun. unfold fsOp in Hrun.
  destruct (faults st (fsOps st)) eqn:Hfault; injection Hrun as <- <-.
  - split; [exists (fsOps st); congruence|]. repeat split; assumption.
  - repeat split; assumption.
Qed.

Lemma writeStateSafely_spec rows sj v :
  triple (At rows sj) (writeStateSafely name v)
         (fun _ => At rows (Some v)) (Failed (At rows sj)).
Proof.
  unfold writeStateSafely.
  eapply triple_tryCatch with (E1 := Failed (At rows sj)).
  - eapply triple_bind; [apply fsOp_spec | auto |]. intros ?.
    eapply triple_bind; [apply fsOp_spec | auto |]. intros ?.
    apply triple_modify. intros st (Hb & Ht & Hf & Hrows & Hsj).
    unfold Snap. rewrite readDir_writeDir. repeat split; assumption.
  - intros e. apply triple_throw. auto.
Qed.

Lemma getLastProcessedState_spec rows sj :
  triple (At rows sj) (getLastProcessedState name)
         (fun o st => o = sj /\ At rows sj st) (Failed (At rows sj)).
Proof.
  unfold getLastProcessedState.
  eapply triple_tryCatch with (E1 := Failed (At rows sj)).
  - eapply triple_bind; [apply fsOp_spec | auto |]. intros ?.
    eapply triple_bind with (Q1 := fun o st => o = sj /\ At rows sj st)
                            (E1 := Failed (At rows sj)).
    + apply triple_gets. intros st Hat. split; [apply Hat | exact Hat].
    + auto.
    + intros [v|].
      * eapply triple_bind with (Q1 := fun _ st => Some v = sj /\ At rows sj st)
                                (E1 := Failed (At rows sj)).
        -- intros st r st' [Heq Hat] Hrun. pose proof (fsOp_spec rows sj _ _ _ Hat Hrun).
           destruct r; auto.
        -- auto.
        -- intros ?. apply triple_ret. auto.
      * apply triple_ret. auto.
  - intros e. apply triple_throw. auto.
Qed.

Lemma initializeState_spec rows sj :
  triple (At rows sj) (initializeState name)
         (fun _ => At rows (Some (default (initialState t) sj))) (Failed (At rows sj)).
Proof.
  unfold initializeState.
  eapply triple_bind; [apply fsOp_spec | auto |]. intros ?.
  eapply triple_bind with (Q1 := fun o st => o = sj /\ At rows sj st)
                          (E1 := Failed (At rows sj)).
  - apply triple_gets. intros st Hat. split; [apply Hat | exact Hat].
  - auto.
  - intros [v|].
    + apply triple_ret. intros st [<- Hat]. exact Hat.
    + eapply triple_bind with (Q1 := fun t' st => t' = t /\ None = sj /\ At rows sj st)
                              (E1 := Failed (At rows sj)).
      * apply triple_gets. intros st [Heq Hat]. split; [apply Hat | auto].
      * auto.
      * intros t'. intros st r st' (-> & <- & Hat) Hrun.
        exact (writeStateSafely_spec rows None _ _ _ _ Hat Hrun).
Qed.

Lemma untouched_cursor sj sj' : untouched sj sj' -> cursorIn type sj' = cursorIn type sj.
Proof.
  intros [-> | ->]; [reflexivity|]. destruct sj as [v|]; [reflexivity|].
  destruct type; reflexivity.
Qed.

Lemma updateTransactionState_spec rows sj lb cnt :
  triple (At rows sj) (updateTransactionState name type lb cnt)
         (fun _ => At rows (Some (transactionStateUpdate type lb cnt t
                                    (default (initialState t) sj))))
         (Failed (fun st => exists sj', untouched sj sj' /\ At rows sj' st)).
Proof.
  unfold updateTransactionState.
  eapply triple_bind; [apply getLastProcessedState_spec | |].
  { intros e st [Hf Hat]. split; [exact Hf|]. exists sj. split; [left; reflexivity | exact Hat]. }
  intros currentState.
  eapply triple_bind with
    (Q1 := fun _ => At rows (Some (default (initialState t) sj)))
    (E1 := Failed (At rows sj)).
  { destruct currentState as [v|].
    - apply triple_ret. intros st [<- Hat]. exact Hat.
    - intros st r st' [<- Hat] Hrun.
      exact (initializeState_spec rows None _ _ _ Hat Hrun). }
  { intros e st [Hf Hat]. split; [exact Hf|]. exists sj. split; [left; reflexivity | exact Hat]. }
  intros ?.
  set (sj1 := Some (default (initialState t) sj)).
  assert (Hexc : forall e st, Failed (At rows sj1) e st ->
                 Failed (fun st => exists sj', untouched sj sj' /\ At rows sj' st) e st).
  { intros e st [Hf Hat]. split; [exact Hf|]. exists sj1. split; [right; reflexivity | exact Hat]. }
  eapply triple_bind; [apply getLastProcessedState_spec | exact Hexc |].
  intros [v|].
  - eapply triple_bind with (Q1 := fun t' st => t' = t /\ Some v = sj1 /\ At rows sj1 st)
                            (E1 := Failed (At rows sj1)).
    + apply triple_gets. intros st [Heq Hat]. split; [apply Hat | auto].
    + exact Hexc.
    + intros t' st r st' (-> & Hv & Hat) Hrun.
      pose proof (writeStateSafely_spec rows sj1
                    (transactionStateUpdate type lb cnt t v) _ _ _ Hat Hrun) as Hw.
      injection Hv as ->. destruct r; auto.
  - apply triple_ret. intros st [Hv _]. discriminate.
Qed.

Lemma writeRecords_spec rows sj rs :
  triple (At rows sj) (writeRecords name type rs)
         (fun _ => At (rows ++ rs) sj) (Failed (At rows sj)).
Proof.
  unfold writeRecords.
  eapply triple_bind; [apply fsOp_spec | auto |]. intros ?.
  apply triple_modify. intros st (Hb & Ht & Hf & Hrows & Hsj).
  unfold Snap. rewrite readDir_writeDir. repeat split; try assumption.
  - destruct type; simpl; simpl in Hrows; rewrite Hrows; reflexivity.
  - destruct type; exact Hsj.
Qed.

(** The batches written from index [i] on are the rows from [i] on, in
    order; a fault stops the loop after some of them. *)
Lemma batchLoop_spec xs sj fuel : forall i rows,
  (0 < bs)%nat -> (length xs - i <= fuel)%nat ->
  triple (At rows sj)
         (batchLoop (fun batch => writeRecords name type (map txRecord batch)) fuel i xs)
         (fun _ => At (rows ++ map txRecord (skipn i xs)) sj)
         (Failed (fun st => exists k,
                    At (rows ++ firstn k (map txRecord (skipn i xs))) sj st)).
Proof.
  induction fuel as [|fuel IH]; intros i rows Hbs Hfuel st r st' Hat Hrun;
    simpl in Hrun; destruct (Nat.ltb_spec i (length xs)) as [Hlt|Hge]; try lia.
  - injection Hrun as <- <-. rewrite skipn_all2 by lia. simpl. rewrite app_nil_r. exact Hat.
  - assert (Hbatch : batchSize st = bs) by apply Hat. rewrite Hbatch in Hrun.
    clear Hbatch. revert st r st' Hat Hrun.
    change (triple (At rows sj)
              (bind (writeRecords name type (map txRecord (firstn bs (skipn i xs))))
                    (fun _ => batchLoop (fun batch => writeRecords name type
                                           (map txRecord batch)) fuel (i + bs) xs))
              (fun _ => At (rows ++ map txRecord (skipn i xs)) sj)
              (Failed (fun st => exists k,
                         At (rows ++ firstn k (map txRecord (skipn i xs))) sj st))).
    eapply triple_bind; [apply writeRecords_spec | |].
    + intros e st [Hf Hat]. split; [exact Hf|]. exists 0%nat. simpl.
      rewrite app_nil_r. exact Hat.
    + intros ?. eapply triple_conseq;
        [apply (IH (i + bs)%nat (rows ++ map txRecord (firstn bs (skipn i xs)))); lia
        | auto | |].
      * intros ? st Hat. rewrite <- app_assoc, <- map_app in Hat.
        rewrite Nat.add_comm, <- skipn_skipn, firstn_skipn in Hat. exact Hat.
      * intros e st [Hf [k Hat]]. split; [exact Hf|].
        exists (bs + k)%nat. rewrite <- app_assoc in Hat.
        replace (firstn (bs + k) (map txRecord (skipn i xs)))
          with (map txRecord (firstn bs (skipn i xs))
                ++ firstn k (map txRecord (skipn (i + bs) xs))); [exact Hat|].
        rewrite <- (take_take_drop (map txRecord (skipn i xs)) bs k).
        rewrite (Nat.add_comm i bs), <- skipn_skipn, skipn_map, !firstn_map. reflexivity.
  - injection Hrun as <- <-. rewrite skipn_all2 by lia. simpl. rewrite app_nil_r. exact Hat.
Qed.

(** What [saveTransactions] does with a batch that is not empty: the rows
    of the sorted batch are appended and the cursor is moved; a fault leaves
    some first rows of the sorted batch in the file and the cursor where it
    was. *)
Lemma saveTransactions_spec rows sj txs :
  txs <> [] -> (0 < bs)%nat ->
  triple (At rows sj) (saveTransactions name txs type)
    (fun sorted st =>
       sorted = sortByBlock txs /\
       At (rows ++ map txRecord (sortByBlock txs))
          (Some (transactionStateUpdate type
                   (mathMax (map blockNumber (sortByBlock txs)))
                   (Z.of_nat (length (sortByBlock txs))) t
                   (default (initialState t) sj))) st)
    (Failed (fun st => exists k sj',
               untouched sj sj' /\
               At (rows ++ firstn k (map txRecord (sortByBlock txs))) sj' st)).
Proof.
  intros Hne Hbs. unfold saveTransactions.
  destruct txs as [|tx txs']; [congruence|]. simpl (length (tx :: txs') =? 0)%nat. cbv iota.
  set (sorted := sortByBlock (tx :: txs')).
  eapply triple_tryCatch with
    (E1 := Failed (fun st => exists k sj',
                     untouched sj sj' /\ At (rows ++ firstn k (map txRecord sorted)) sj' st)).
  2:{ intros e. apply triple_throw. auto. }
  assert (Hstart : forall e st, Failed (At rows sj) e st ->
            Failed (fun st => exists k sj',
                      untouched sj sj' /\
                      At (rows ++ firstn k (map txRecord sorted)) sj' st) e st).
  { intros e st [Hf Hat]. split; [exact Hf|]. exists 0%nat, sj. simpl. rewrite app_nil_r.
    split; [left; reflexivity | exact Hat]. }
  eapply triple_bind; [apply fsOp_spec | exact Hstart |]. intros ?.
  eapply triple_bind; [apply fsOp_spec | exact Hstart |]. intros ?.
  eapply triple_bind; [apply (batchLoop_spec sorted sj (length sorted) 0 rows Hbs); lia | |].
  { intros e st [Hf [k Hat]]. split; [exact Hf|]. exists k, sj.
    split; [left; reflexivity | exact Hat]. }
  intros ?. simpl (skipn 0 sorted).
  eapply triple_bind; [apply updateTransactionState_spec | |].
  { intros e st [Hf (sj' & Hun & Hat)]. split; [exact Hf|].
    exists (length (map txRecord sorted)), sj'. rewrite firstn_all. auto. }
  intros ?. apply triple_ret. auto.
Qed.

End StorageSpecs.

(** ** C10: the records of a batch are written in ascending order *)

Section SortFacts.
Import FileSystemStorage Cursors.
Context {A : Type}.
Variable key : A -> Z.

Abbreviation byKey := (fun a b : A => key a <= key b).

Lemma insertBy_perm x l : Permutation (x :: l) (insertBy key x l).
Proof.
  induction l as [|y rest IH]; simpl; [reflexivity|].
  destruct (key x <=? key y); [reflexivity|].
  rewrite perm_swap. apply perm_skip, IH.
Qed.

Lemma sortBy_perm l : Permutation l (sortBy key l).
Proof.
  induction l as [|x rest IH]; simpl; [reflexivity|].
  rewrite <- insertBy_perm. apply perm_skip, IH.
Qed.

Lemma insertBy_sorted x l :
  StronglySorted byKey l -> StronglySorted byKey (insertBy key x l).
Proof.
  induction 1 as [|y rest Hsorted IH Hall]; simpl.
  - constructor; constructor.
  - destruct (Z.leb_spec (key x) (key y)) as [Hle|Hgt].
    + constructor; [constructor; assumption|].
      constructor; [exact Hle|].
      eapply Forall_impl; [exact Hall|]. simpl. intros; lia.
    + constructor; [exact IH|].
      rewrite <- insertBy_perm. constructor; [lia | exact Hall].
Qed.

Lemma sortBy_sorted l : StronglySorted byKey (sortBy key l).
Proof.
  induction l as [|x rest IH]; simpl; [constructor | apply insertBy_sorted, IH].
Qed.

Lemma sorted_firstn k l : StronglySorted byKey l -> StronglySorted byKey (firstn k l).
Proof.
  intros Hs. revert k. induction Hs as [|y rest Hsorted IH Hall]; intros [|k]; simpl;
    constructor; [apply IH | apply Forall_take, Hall].
Qed.

Lemma sorted_map (g : A -> A) l :
  (forall a, key (g a) = key a) ->
  StronglySorted byKey l -> StronglySorted byKey (map g l).
Proof.
  intros Hg. induction 1 as [|y rest Hsorted IH Hall]; simpl; constructor; [exact IH|].
  apply List.Forall_forall. intros z Hz. apply in_map_iff in Hz as (z0 & <- & Hz0).
  rewrite List.Forall_forall in Hall. rewrite !Hg. apply Hall, Hz0.
Qed.

End SortFacts.

(** C10. [saveTransactions] sorts a batch that is not empty by block number
    before it writes anything: the sorted batch holds the same transactions
    and its block numbers never go down; the records appended to the CSV
    file are the records of the sorted batch, in that order (the first of
    them when a file-system fault stops the writing), so they ascend; when
    the call returns, all of them were appended and the caller's array holds
    the sorted batch.  The call does not run out of fuel, and on a file
    system without faults it returns. *)
Theorem saveTransactions_appends_sorted :
  forall st name txs type r st',
    txs <> [] -> (0 < FileSystemStorage.batchSize st)%nat ->
    FileSystemStorage.saveTransactions name txs type st = (r, st') ->
    let sorted := FileSystemStorage.sortByBlock txs in
    Permutation txs sorted /\
    Cursors.ascending sorted /\
    (exists k,
        Cursors.rowsOf name type st'
        = Cursors.rowsOf name type st
          ++ firstn k (map FileSystemStorage.txRecord sorted) /\
        Cursors.ascending (firstn k (map FileSystemStorage.txRecord sorted))) /\
    (forall a, r = Ret a ->
        a = sorted /\
        Cursors.rowsOf name type st'
        = Cursors.rowsOf name type st ++ map FileSystemStorage.txRecord sorted) /\
    r <> OutOfFuel /\
    (Cursors.reliable st -> r = Ret sorted).
Proof.
  intros st name txs type r st' Hne Hbs Hrun sorted.
  assert (Hsorted : Cursors.ascending sorted) by apply sortBy_sorted.
  assert (Hrows : forall k, Cursors.ascending
                              (firstn k (map FileSystemStorage.txRecord sorted))).
  { intros k. apply sorted_firstn, sorted_map; [reflexivity | exact Hsorted]. }
  pose proof (saveTransactions_spec name type (FileSystemStorage.batchSize st)
                (FileSystemStorage.now st) (FileSystemStorage.faults st)
                (Cursors.rowsOf name type st)
                (FileSystemStorage.stateJson (FileSystemStorage.readDir st name))
                txs Hne Hbs st r st') as Hspec.
  specialize (Hspec ltac:(repeat split) Hrun).
  split; [apply sortBy_perm|]. split; [exact Hsorted|].
  destruct r as [a|e|]; [| |contradiction].
  - destruct Hspec as [-> (_ & _ & _ & Hcsv & _)]. fold sorted in Hcsv.
    split; [|split; [|split]].
    + exists (length (map FileSystemStorage.txRecord sorted)).
      rewrite firstn_all. split; [exact Hcsv | rewrite <- firstn_all; apply Hrows].
    + intros a [= <-]. split; [reflexivity | exact Hcsv].
    + discriminate.
    + reflexivity.
  - destruct Hspec as [[n Hfault] (k & sj' & _ & _ & _ & _ & Hcsv & _)]. fold sorted in Hcsv.
    split; [|split; [|split]].
    + exists k. split; [exact Hcsv | apply Hrows].
    + discriminate.
    + discriminate.
    + intros Hrel. rewrite Hrel in Hfault. discriminate.
Qed.

(** Three transactions out of order, on a fresh store. *)
Lemma saveTransactions_sorted_witness :
  let '(r, st') := FileSystemStorage.saveTransactions "ens"
                     [Scenarios.txAt 5; Scenarios.txAt 3; Scenarios.txAt 9] Normal
                     Scenarios.freshStorage in
  r = Ret [Scenarios.txAt 3; Scenarios.txAt 5; Scenarios.txAt 9] /\
  map blockNumber (Cursors.rowsOf "ens" Normal st') = [3; 5; 9].
Proof.
  destruct (FileSystemStorage.saveTransactions "ens"
              [Scenarios.txAt 5; Scenarios.txAt 3; Scenarios.txAt 9] Normal
              Scenarios.freshStorage) as [r st'] eqn:Hrun.
  destruct (saveTransactions_appends_sorted Scenarios.freshStorage "ens"
              [Scenarios.txAt 5; Scenarios.txAt 3; Scenarios.txAt 9] Normal r st'
              ltac:(discriminate) ltac:(vm_compute; lia) Hrun)
    as (_ & _ & _ & Hret & _ & Hrel).
  specialize (Hrel ltac:(intros n; reflexivity)). subst r.
  destruct (Hret _ eq_refl) as [_ Hrows].
  split; [reflexivity|]. rewrite Hrows. reflexivity.
Defined.

(** ** C2: the cursor and the pages that were saved *)

Section CursorFacts.
Import BlockchainService FileSystemStorage Cursors.

Lemma fold_max_shift l : forall a b,
  fold_left Z.max l (Z.max a b) = Z.max a (fold_left Z.max l b).
Proof.
  induction l as [|x rest IH]; intros a b; simpl; [reflexivity|].
  rewrite <- Z.max_assoc. apply IH.
Qed.

Lemma highest_ge c l : c <= highest c l.
Proof.
  unfold highest. revert c. induction l as [|x rest IH]; intros c; simpl; [lia|].
  specialize (IH (Z.max c x)). lia.
Qed.

Lemma highest_mono l : forall c c', c <= c' -> highest c l <= highest c' l.
Proof.
  unfold highest. induction l as [|x rest IH]; intros c c' Hle; simpl; [exact Hle|].
  apply IH. lia.
Qed.

Lemma highest_app c l1 l2 : highest c (l1 ++ l2) = highest (highest c l1) l2.
Proof. unfold highest. apply fold_left_app. Qed.

Lemma highest_mathMax c l : l <> [] -> highest c l = Z.max c (mathMax l).
Proof.
  destruct l as [|x rest]; [congruence|]. intros _. unfold highest. simpl.
  apply fold_max_shift.
Qed.

Lemma highest_perm l l' : Permutation l l' -> forall c, highest c l = highest c l'.
Proof.
  unfold highest. induction 1 as [|x l l' Hperm IH|x y l|l l' l'' H1 IH1 H2 IH2];
    intros c; simpl.
  - reflexivity.
  - apply IH.
  - f_equal. lia.
  - rewrite IH1. apply IH2.
Qed.

Lemma advanced_refl name type st : advanced name type st st.
Proof.
  repeat split. exists []. rewrite app_nil_r. simpl. unfold highest. simpl.
  repeat split; try lia; reflexivity.
Qed.

Lemma advanced_trans name type st1 st2 st3 :
  advanced name type st1 st2 -> advanced name type st2 st3 -> advanced name type st1 st3.
Proof.
  intros (Hb1 & Hf1 & new1 & Hr1 & Hlo1 & Hhi1 & Heq1)
         (Hb2 & Hf2 & new2 & Hr2 & Hlo2 & Hhi2 & Heq2).
  split; [congruence|]. split; [congruence|].
  exists (new1 ++ new2). rewrite Hr2, Hr1, <- app_assoc, map_app, highest_app.
  split; [reflexivity|]. split; [lia|]. split.
  - etransitivity; [exact Hhi2|]. apply highest_mono. exact Hhi1.
  - intros Hrel. rewrite Heq2, Heq1; [reflexivity | exact Hrel |].
    intros n. rewrite Hf1. apply Hrel.
Qed.

Lemma cursorIn_default type t sj :
  lastBlock (cursorOf type (transactionTypes (default (initialState t) sj)))
  = cursorIn type sj.
Proof. destruct sj as [v|], type; reflexivity. Qed.

Lemma cursor_after_update type lb cnt t v :
  lastBlock (cursorOf type (transactionTypes (transactionStateUpdate type lb cnt t v)))
  = Z.max (lastBlock (cursorOf type (transactionTypes v))) lb.
Proof. destruct type; reflexivity. Qed.

(** One page handed to [saveTransactions]. *)
Lemma saveTransactions_page name type st txs r st' :
  txs <> [] -> (0 < batchSize st)%nat ->
  saveTransactions name txs type st = (r, st') ->
  batchSize st' = batchSize st /\ faults st' = faults st /\
  match r with
  | Ret _ =>
      rowsOf name type st' = rowsOf name type st ++ map txRecord (sortByBlock txs) /\
      cursorOnDisk name type st'
      = highest (cursorOnDisk name type st) (map blockNumber txs)
  | Throw _ =>
      (exists n, faults st n = true) /\
      (exists k, rowsOf name type st'
                 = rowsOf name type st ++ firstn k (map txRecord (sortByBlock txs))) /\
      cursorOnDisk name type st' = cursorOnDisk name type st
  | OutOfFuel => False
  end.
Proof.
  intros Hne Hbs Hrun.
  pose proof (saveTransactions_spec name type (batchSize st) (now st) (faults st)
                (rowsOf name type st) (stateJson (readDir st name))
                txs Hne Hbs st r st' ltac:(repeat split) Hrun) as Hspec.
  destruct r as [a|e|]; [| |contradiction].
  - destruct Hspec as [_ (Hb & _ & Hf & Hcsv & Hsj)].
    repeat split; try assumption.
    unfold cursorOnDisk. rewrite Hsj, cursor_after_update, cursorIn_default.
    rewrite (highest_perm _ _ (Permutation_map blockNumber (sortBy_perm blockNumber txs))).
    rewrite highest_mathMax; [reflexivity|].
    intros Hnil. apply map_eq_nil in Hnil.
    pose proof (sortBy_perm blockNumber txs) as Hperm. rewrite Hnil in Hperm.
    apply Hne, Permutation_nil, Permutation_sym, Hperm.
  - destruct Hspec as [Hfault (k & sj' & Hun & Hb & _ & Hf & Hcsv & Hsj)].
    repeat split; try assumption; [exists k; exact Hcsv|].
    unfold cursorOnDisk. rewrite Hsj.
    exact (untouched_cursor type (now st) _ _ Hun).
Qed.

Lemma saveTransactions_advanced name type st txs r st' :
  (0 < batchSize st)%nat ->
  saveTransactions name txs type st = (r, st') ->
  r <> OutOfFuel /\ advanced name type st st'.
Proof.
  intros Hbs Hrun. destruct txs as [|tx txs'].
  - injection Hrun as <- <-. split; [discriminate | apply advanced_refl].
  - pose proof (saveTransactions_page name type st (tx :: txs') r st'
                  ltac:(discriminate) Hbs Hrun) as (Hb & Hf & Hr).
    destruct r as [a|e|]; [| |contradiction]; (split; [discriminate|]).
    + destruct Hr as [Hrows Hcur]. split; [exact Hb|]. split; [exact Hf|].
      exists (map txRecord (sortByBlock (tx :: txs'))).
      assert (Hblocks : highest (cursorOnDisk name type st)
                          (map blockNumber (map txRecord (sortByBlock (tx :: txs'))))
                        = highest (cursorOnDisk name type st)
                            (map blockNumber (tx :: txs'))).
      { rewrite map_map. simpl (fun x => blockNumber (txRecord x)).
        symmetry. apply highest_perm, Permutation_map, sortBy_perm. }
      rewrite Hblocks, Hcur. split; [exact Hrows|].
      split; [apply highest_ge|]. split; [lia | reflexivity].
    + destruct Hr as ([n Hfault] & [k Hrows] & Hcur).
      split; [exact Hb|]. split; [exact Hf|].
      exists (firstn k (map txRecord (sortByBlock (tx :: txs')))).
      rewrite Hcur. split; [exact Hrows|]. split; [lia|].
      split; [apply highest_ge|].
      intros Hrel. rewrite Hrel in Hfault. discriminate.
Qed.

Context {P : Type}.
Variable fetchFn : Z -> Z -> Z -> M P (list Transaction).
Variable name : string.
Variable type : TxType.
Variable endBlock : Z.
Variable description : string.

Abbreviation W := (World P FS).

Lemma retryLoop_storage {A} (m : M P A) d n : forall attempt (w w' : W) r,
  retryLoop n attempt (onProvider m) d w = (r, w') -> storage w' = storage w.
Proof.
  induction n as [|n IH]; intros attempt w w' r Hrun; simpl in Hrun.
  - unfold_js. injection Hrun as _ <-. reflexivity.
  - unfold tryCatch, onProvider in Hrun.
    destruct (m (dataProvider w)) as [[a|e|] p'] eqn:Hm.
    + injection Hrun as _ <-. reflexivity.
    + destruct (shouldRetry attempt e).
      * unfold delay, emit in Hrun. unfold_js. simpl in Hrun.
        apply IH in Hrun. exact Hrun.
      * unfold_js. injection Hrun as _ <-. reflexivity.
    + injection Hrun as _ <-. reflexivity.
Qed.

Lemma pageLoop_advanced fuel : forall cs ce page total (w w' : W) r total',
  (0 < batchSize (storage w))%nat ->
  pageLoop fetchFn (fun items => saveTransactions name items type) description
           fuel cs ce page total w = (r, total', w') ->
  advanced name type (storage w) (storage w').
Proof.
  induction fuel as [|fuel IH]; intros cs ce page total w w' r total' Hbs Hrun;
    simpl in Hrun.
  - injection Hrun as _ _ <-. apply advanced_refl.
  - unfold retryOperation in Hrun.
    destruct (retryLoop _ _ _ _ w) as [[items|e|] w1] eqn:Hfetch;
      apply retryLoop_storage in Hfetch.
    + destruct (Z.of_nat (length items) =? 0).
      * injection Hrun as _ _ <-. rewrite Hfetch. apply advanced_refl.
      * unfold onStorage in Hrun.
        destruct (saveTransactions name items type (storage w1)) as [rs st2] eqn:Hsave.
        rewrite Hfetch in Hsave.
        apply saveTransactions_advanced in Hsave as [_ Hadv]; [|exact Hbs].
        destruct rs as [items'|e|].
        -- destruct (Z.of_nat (length items') <? MAX_RECORDS_PER_CALL).
           ++ injection Hrun as _ _ <-. exact Hadv.
           ++ apply IH in Hrun.
              ** eapply advanced_trans; [exact Hadv | exact Hrun].
              ** simpl. destruct Hadv as (-> & _). exact Hbs.
        -- injection Hrun as _ _ <-. exact Hadv.
        -- injection Hrun as _ _ <-. exact Hadv.
    + injection Hrun as _ _ <-. rewrite Hfetch. apply advanced_refl.
    + injection Hrun as _ _ <-. rewrite Hfetch. apply advanced_refl.
Qed.

Lemma windowLoop_advanced fuel : forall currentStart total (w w' : W) r,
  (0 < batchSize (storage w))%nat ->
  windowLoop fetchFn (fun items => saveTransactions name items type) endBlock
             description fuel currentStart total w = (r, w') ->
  advanced name type (storage w) (storage w').
Proof.
  induction fuel as [|fuel IH]; intros cs total w w' r Hbs Hrun; simpl in Hrun.
  - destruct (cs <=? endBlock); [|unfold emit in Hrun; unfold_js];
      injection Hrun as _ <-; apply advanced_refl.
  - destruct (cs <=? endBlock).
    2:{ unfold emit in Hrun. unfold_js. injection Hrun as _ <-. apply advanced_refl. }
    destruct (pageLoop _ _ _ _ _ _ _ _ _) as [[res total'] w1] eqn:Hpages.
    apply pageLoop_advanced in Hpages; [|exact Hbs]. simpl in Hpages.
    assert (Hbs1 : (0 < batchSize (storage w1))%nat).
    { destruct Hpages as (-> & _). exact Hbs. }
    destruct res as [[]|error|].
    + apply IH in Hrun; [|exact Hbs1]. eapply advanced_trans; eassumption.
    + destruct (isEtherscanError error).
      * destruct (includes "No transactions found" (message error)).
        { apply IH in Hrun; [|exact Hbs1]. eapply advanced_trans; eassumption. }
        destruct (includes "Max rate limit reached" (message error)).
        { apply IH in Hrun; [|exact Hbs1]. eapply advanced_trans; eassumption. }
        injection Hrun as _ <-. exact Hpages.
      * injection Hrun as _ <-. exact Hpages.
    + injection Hrun as _ <-. exact Hpages.
Qed.

End CursorFacts.

(** C2 (amended). The cursor of a transaction type is moved by the sink,
    page by page, and by nothing else: a page that [saveTransactions] saves
    moves it at once to the highest block number of that page (or leaves it
    where it was when that is higher), and a save that fails leaves it where
    it was.  So over any run of [processBatchWithType], however it ends, the
    cursor never goes back and never passes the highest block number among
    the rows written during the run; on a file system without faults it is
    exactly the highest of its old value and the block numbers of all rows
    written so far.  It is not held back until a window is complete, and it
    is not set to the end of a window. *)
Theorem cursor_follows_saved_pages :
  forall (P : Type) (fetchFn : Z -> Z -> Z -> M P (list Transaction))
         name type endBlock description fuel startBlock name' state
         (w w' : BlockchainService.World P FileSystemStorage.FS) r,
    (0 < FileSystemStorage.batchSize (BlockchainService.storage w))%nat ->
    BlockchainService.processBatchWithType fetchFn
      (fun items => FileSystemStorage.saveTransactions name items type)
      endBlock description fuel startBlock name' state w = (r, w') ->
    (exists new,
        Cursors.rowsOf name type (BlockchainService.storage w')
        = Cursors.rowsOf name type (BlockchainService.storage w) ++ new /\
        Cursors.cursorOnDisk name type (BlockchainService.storage w)
        <= Cursors.cursorOnDisk name type (BlockchainService.storage w') /\
        Cursors.cursorOnDisk name type (BlockchainService.storage w')
        <= Cursors.highest (Cursors.cursorOnDisk name type (BlockchainService.storage w))
                           (map blockNumber new) /\
        (Cursors.reliable (BlockchainService.storage w) ->
         Cursors.cursorOnDisk name type (BlockchainService.storage w')
         = Cursors.highest (Cursors.cursorOnDisk name type (BlockchainService.storage w))
                           (map blockNumber new))) /\
    (forall st txs rs st',
        txs <> [] -> (0 < FileSystemStorage.batchSize st)%nat ->
        FileSystemStorage.saveTransactions name txs type st = (rs, st') ->
        match rs with
        | Ret _ =>
            Cursors.cursorOnDisk name type st'
            = Cursors.highest (Cursors.cursorOnDisk name type st) (map blockNumber txs)
        | Throw _ => Cursors.cursorOnDisk name type st' = Cursors.cursorOnDisk name type st
        | OutOfFuel => False
        end).
Proof.
  intros P fetchFn name type endBlock description fuel startBlock name' state w w' r
         Hbs Hrun.
  split.
  - unfold BlockchainService.processBatchWithType in Hrun.
    apply windowLoop_advanced in Hrun; [|exact Hbs].
    destruct Hrun as (_ & _ & new & Hrows & Hlo & Hhi & Heq).
    exists new. auto.
  - intros st txs rs st' Hne Hpos Hsave.
    pose proof (saveTransactions_page name type st txs rs st' Hne Hpos Hsave)
      as (_ & _ & Hr).
    destruct rs; [apply Hr | apply Hr | exact Hr].
Qed.

(** A full first page (blocks 1 to 100) is saved, then the request for the
    second page is rejected. *)
Lemma cursor_follows_saved_pages_witness :
  let '(r, w') := Scenarios.collectNormal "0xabc" "ens" 49999 10 0
                    (Scenarios.worldOf (Scenarios.clientOf Scenarios.fullPageThenFailure)) in
  exists new,
    Cursors.rowsOf "ens" Normal (BlockchainService.storage w') = [] ++ new /\
    Cursors.cursorOnDisk "ens" Normal (BlockchainService.storage w')
    = Cursors.highest 0 (map blockNumber new).
Proof.
  destruct (Scenarios.collectNormal "0xabc" "ens" 49999 10 0
              (Scenarios.worldOf (Scenarios.clientOf Scenarios.fullPageThenFailure)))
    as [r w'] eqn:Hrun.
  unfold Scenarios.collectNormal in Hrun.
  eapply cursor_follows_saved_pages in Hrun as [(new & Hrows & _ & _ & Heq) _];
    [|vm_compute; lia].
  exists new. split; [exact Hrows|]. apply Heq. intros n. reflexivity.
Defined.

(** C2, as stated, fails: the only window, [0, 49999], is cut short by an
    error on its second page, and still the cursor has gone from 0 to 100,
    the last block of the page that was saved. *)
Lemma cursor_moves_within_failed_window :
  let '(r, w') := Scenarios.collectNormal "0xabc" "ens" 49999 10 0
                    (Scenarios.worldOf (Scenarios.clientOf Scenarios.fullPageThenFailure)) in
  r = Throw (EtherscanError "NOTOK") /\
  Schedule.processedWindows (BlockchainService.trace w') = [(0, 49999)] /\
  Scenarios.normalCursorOf "ens"
    (Scenarios.worldOf (Scenarios.clientOf Scenarios.fullPageThenFailure)) = 0 /\
  Scenarios.normalCursorOf "ens" w' = 100 /\
  length (Scenarios.savedNormal "ens" w') = 100%nat.
Proof. vm_compute. repeat split; reflexivity. Qed.

(** ** C5: the end of pagination *)

Section PageFacts.
Import BlockchainService Retry.
Context {P S T : Type}.
Variable fetchFn : Z -> Z -> Z -> M P (list T).
Variable saveFn : list T -> M S (list T).
Variable endBlock : Z.
Variable description : string.

Abbreviation W := (World P S).

(** A provider call that answers at once is not retried. *)
Lemma retryOperation_first_try {A} (m : M P A) d (w : W) a p' :
  m (dataProvider w) = (Ret a, p') ->
  retryOperation (onProvider m) d w = (Ret a, withProvider p' w).
Proof.
  intros Hm. unfold retryOperation. change (Z.to_nat MAX_RETRIES) with 3%nat.
  apply retryLoop_success. unfold onProvider. rewrite Hm. reflexivity.
Qed.

Lemma pageLoop_empty_page fuel cs ce page total (w w1 : W) items :
  retryOperation (onProvider (fetchFn cs ce page))
                 (fetchDescription description page cs ce) w = (Ret items, w1) ->
  items = [] ->
  pageLoop fetchFn saveFn description (Datatypes.S fuel) cs ce page total w
  = (Ret tt, total, w1).
Proof. intros Hfetch ->. simpl. rewrite Hfetch. reflexivity. Qed.

Lemma pageLoop_short_page fuel cs ce page total (w w1 w2 : W) items items' :
  retryOperation (onProvider (fetchFn cs ce page))
                 (fetchDescription description page cs ce) w = (Ret items, w1) ->
  items <> [] ->
  onStorage (saveFn items) w1 = (Ret items', w2) ->
  Z.of_nat (length items') < MAX_RECORDS_PER_CALL ->
  pageLoop fetchFn saveFn description (Datatypes.S fuel) cs ce page total w
  = (Ret tt, total + Z.of_nat (length items'),
     logged [LogSaved (Z.of_nat (length items')) description
               (total + Z.of_nat (length items')) cs ce page] w2).
Proof.
  intros Hfetch Hne Hsave Hshort. simpl. rewrite Hfetch.
  destruct items as [|x items0]; [congruence|].
  simpl (Z.of_nat (length (x :: items0)) =? 0). cbv iota.
  rewrite Hsave. destruct (Z.ltb_spec (Z.of_nat (length items')) MAX_RECORDS_PER_CALL);
    [reflexivity | lia].
Qed.

Lemma pageLoop_full_page fuel cs ce page total (w w1 w2 : W) items items' :
  retryOperation (onProvider (fetchFn cs ce page))
                 (fetchDescription description page cs ce) w = (Ret items, w1) ->
  items <> [] ->
  onStorage (saveFn items) w1 = (Ret items', w2) ->
  MAX_RECORDS_PER_CALL <= Z.of_nat (length items') ->
  pageLoop fetchFn saveFn description (Datatypes.S fuel) cs ce page total w
  = pageLoop fetchFn saveFn description fuel cs ce (page + 1)
      (total + Z.of_nat (length items'))
      (logged [LogSaved (Z.of_nat (length items')) description
                 (total + Z.of_nat (length items')) cs ce page;
               Delay DELAY_BETWEEN_CALLS] w2).
Proof.
  intros Hfetch Hne Hsave Hfull. simpl. rewrite Hfetch.
  destruct items as [|x items0]; [congruence|].
  simpl (Z.of_nat (length (x :: items0)) =? 0). cbv iota.
  rewrite Hsave. destruct (Z.ltb_spec (Z.of_nat (length items')) MAX_RECORDS_PER_CALL);
    [lia|].
  unfold delay, emit, logged. unfold_js. simpl. rewrite <- app_assoc. reflexivity.
Qed.

(** A window whose pages end without an error: the loop goes on with the
    window that starts after it. *)
Lemma windowLoop_next fuel cs total total' (w w1 : W) :
  cs <= endBlock ->
  pageLoop fetchFn saveFn description fuel cs
           (Z.min (cs + BLOCK_RANGE - 1) endBlock) 1 total
           (logged [LogProcessing description cs
                      (Z.min (cs + BLOCK_RANGE - 1) endBlock)] w)
  = (Ret tt, total', w1) ->
  windowLoop fetchFn saveFn endBlock description (Datatypes.S fuel) cs total w
  = windowLoop fetchFn saveFn endBlock description fuel
      (Z.min (cs + BLOCK_RANGE - 1) endBlock + 1) total' w1.
Proof.
  intros Hle Hpages. simpl. destruct (Z.leb_spec cs endBlock); [|lia].
  unfold emit. unfold_js. simpl. unfold logged in Hpages. rewrite Hpages. reflexivity.
Qed.

End PageFacts.

Section FullPageFacts.
Import BlockchainService Retry FileSystemStorage Cursors.
Context {P : Type}.
Variable fetchFn : Z -> Z -> Z -> M P (list Transaction).
Variable name : string.
Variable type : TxType.
Variable endBlock : Z.
Variable description : string.

(** One full page and then an empty one. *)
Lemma windowLoop_full_then_empty fuel cs total (w : World P FS) items p1 p2 :
  cs <= endBlock ->
  fetchFn cs (Z.min (cs + BLOCK_RANGE - 1) endBlock) 1 (dataProvider w)
  = (Ret items, p1) ->
  Z.of_nat (length items) = MAX_RECORDS_PER_CALL ->
  fetchFn cs (Z.min (cs + BLOCK_RANGE - 1) endBlock) 2 p1 = (Ret [], p2) ->
  (0 < batchSize (storage w))%nat ->
  reliable (storage w) ->
  exists w1,
    windowLoop fetchFn (fun items => saveTransactions name items type) endBlock
               description (Datatypes.S (Datatypes.S (Datatypes.S fuel))) cs total w
    = windowLoop fetchFn (fun items => saveTransactions name items type) endBlock
                 description (Datatypes.S (Datatypes.S fuel))
                 (Z.min (cs + BLOCK_RANGE - 1) endBlock + 1)
                 (total + MAX_RECORDS_PER_CALL) w1 /\
    dataProvider w1 = p2 /\
    rowsOf name type (storage w1)
    = rowsOf name type (storage w) ++ map txRecord (sortByBlock items) /\
    cursorOnDisk name type (storage w1)
    = highest (cursorOnDisk name type (storage w)) (map blockNumber items) /\
    trace w1
    = trace w ++ [LogProcessing description cs (Z.min (cs + BLOCK_RANGE - 1) endBlock);
                  LogSaved MAX_RECORDS_PER_CALL description
                    (total + MAX_RECORDS_PER_CALL) cs
                    (Z.min (cs + BLOCK_RANGE - 1) endBlock) 1;
                  Delay DELAY_BETWEEN_CALLS].
Proof.
  intros Hle Hpage1 Hlen Hpage2 Hbs Hrel.
  set (ce := Z.min (cs + BLOCK_RANGE - 1) endBlock) in *.
  set (w0 := logged [LogProcessing description cs ce] w).
  assert (Hne : items <> []).
  { intros ->. simpl in Hlen. unfold MAX_RECORDS_PER_CALL in Hlen. lia. }
  destruct (saveTransactions name items type (storage w)) as [rs st2] eqn:Hsave.
  pose proof (saveTransactions_page name type _ _ _ _ Hne Hbs Hsave) as (Hb & Hf & Hr).
  destruct rs as [items'|e|]; [| |contradiction].
  2:{ destruct Hr as [[n Hfault] _]. rewrite Hrel in Hfault. discriminate. }
  destruct Hr as [Hrows Hcur].
  assert (Hitems' : items' = sortByBlock items).
  { pose proof (saveTransactions_spec name type (batchSize (storage w)) (now (storage w))
                  (faults (storage w)) (rowsOf name type (storage w))
                  (stateJson (readDir (storage w) name)) items Hne Hbs
                  _ _ _ ltac:(repeat split) Hsave) as [Heq _]. exact Heq. }
  assert (Hlen' : Z.of_nat (length items') = MAX_RECORDS_PER_CALL).
  { rewrite Hitems', <- Hlen. f_equal. symmetry. apply Permutation_length, sortBy_perm. }
  set (w2 := withStorage st2 (withProvider p1 w0)).
  set (w3 := logged [LogSaved (Z.of_nat (length items')) description
                       (total + Z.of_nat (length items')) cs ce 1;
                     Delay DELAY_BETWEEN_CALLS] w2).
  exists (withProvider p2 w3).
  split; [|split; [|split; [|split]]].
  - apply windowLoop_next; [exact Hle|]. fold ce. fold w0.
    rewrite (pageLoop_full_page fetchFn _ description _ cs ce 1 total w0
               (withProvider p1 w0) w2 items items').
    + rewrite <- Hlen'. fold w3.
      apply pageLoop_empty_page with (items := []); [|reflexivity].
      apply retryOperation_first_try. exact Hpage2.
    + apply retryOperation_first_try. exact Hpage1.
    + exact Hne.
    + unfold onStorage. simpl. rewrite Hsave. reflexivity.
    + lia.
  - reflexivity.
  - exact Hrows.
  - exact Hcur.
  - simpl. rewrite Hlen', <- app_assoc. reflexivity.
Qed.

End FullPageFacts.

(** C5 (amended). Within a window the page loop stops exactly when a page
    comes back with no items (nothing is saved then) or, once saved, with
    fewer than [MAX_RECORDS_PER_CALL] = 100 items; a page of 100 items or
    more is followed, 250 ms later, by the request for the next page.  In
    particular, when page 1 brings exactly 100 items and page 2 none, these
    100 items are saved (in ascending block order), the provider is asked
    for these two pages only, and the loop goes on with the window that
    starts after [currentEnd].  The persisted cursor is then the highest of
    its old value and the block numbers of the 100 items; it is not moved to
    the end of the window. *)
Theorem pagination_stops_on_short_or_empty_page :
  (forall (P S T : Type) (fetchFn : Z -> Z -> Z -> M P (list T))
          (saveFn : list T -> M S (list T)) description fuel cs ce page total
          (w w1 : BlockchainService.World P S),
      BlockchainService.retryOperation
        (BlockchainService.onProvider (fetchFn cs ce page))
        (BlockchainService.fetchDescription description page cs ce) w = (Ret [], w1) ->
      BlockchainService.pageLoop fetchFn saveFn description (Datatypes.S fuel)
        cs ce page total w
      = (Ret tt, total, w1)) /\
  (forall (P S T : Type) (fetchFn : Z -> Z -> Z -> M P (list T))
          (saveFn : list T -> M S (list T)) description fuel cs ce page total
          (w w1 w2 : BlockchainService.World P S) items items',
      BlockchainService.retryOperation
        (BlockchainService.onProvider (fetchFn cs ce page))
        (BlockchainService.fetchDescription description page cs ce) w = (Ret items, w1) ->
      items <> [] ->
      BlockchainService.onStorage (saveFn items) w1 = (Ret items', w2) ->
      (Z.of_nat (length items') < BlockchainService.MAX_RECORDS_PER_CALL ->
       BlockchainService.pageLoop fetchFn saveFn description (Datatypes.S fuel)
         cs ce page total w
       = (Ret tt, total + Z.of_nat (length items'),
          Retry.logged
            [BlockchainService.LogSaved (Z.of_nat (length items')) description
               (total + Z.of_nat (length items')) cs ce page] w2)) /\
      (BlockchainService.MAX_RECORDS_PER_CALL <= Z.of_nat (length items') ->
       BlockchainService.pageLoop fetchFn saveFn description (Datatypes.S fuel)
         cs ce page total w
       = BlockchainService.pageLoop fetchFn saveFn description fuel cs ce (page + 1)
           (total + Z.of_nat (length items'))
           (Retry.logged
              [BlockchainService.LogSaved (Z.of_nat (length items')) description
                 (total + Z.of_nat (length items')) cs ce page;
               BlockchainService.Delay 250] w2))) /\
  (forall (P : Type) (fetchFn : Z -> Z -> Z -> M P (list Transaction))
          name type endBlock description fuel cs total
          (w : BlockchainService.World P FileSystemStorage.FS) items p1 p2,
      cs <= endBlock ->
      fetchFn cs (Z.min (cs + BlockchainService.BLOCK_RANGE - 1) endBlock) 1
              (BlockchainService.dataProvider w) = (Ret items, p1) ->
      Z.of_nat (length items) = 100 ->
      fetchFn cs (Z.min (cs + BlockchainService.BLOCK_RANGE - 1) endBlock) 2 p1
      = (Ret [], p2) ->
      (0 < FileSystemStorage.batchSize (BlockchainService.storage w))%nat ->
      Cursors.reliable (BlockchainService.storage w) ->
      exists w1,
        BlockchainService.windowLoop fetchFn
          (fun items => FileSystemStorage.saveTransactions name items type) endBlock
          description (Datatypes.S (Datatypes.S (Datatypes.S fuel))) cs total w
        = BlockchainService.windowLoop fetchFn
            (fun items => FileSystemStorage.saveTransactions name items type) endBlock
            description (Datatypes.S (Datatypes.S fuel))
            (Z.min (cs + BlockchainService.BLOCK_RANGE - 1) endBlock + 1)
            (total + 100) w1 /\
        BlockchainService.dataProvider w1 = p2 /\
        Cursors.rowsOf name type (BlockchainService.storage w1)
        = Cursors.rowsOf name type (BlockchainService.storage w)
          ++ map FileSystemStorage.txRecord (FileSystemStorage.sortByBlock items) /\
        Cursors.cursorOnDisk name type (BlockchainService.storage w1)
        = Cursors.highest (Cursors.cursorOnDisk name type (BlockchainService.storage w))
                          (map blockNumber items) /\
        BlockchainService.trace w1
        = BlockchainService.trace w
          ++ [BlockchainService.LogProcessing description cs
                (Z.min (cs + BlockchainService.BLOCK_RANGE - 1) endBlock);
              BlockchainService.LogSaved 100 description (total + 100) cs
                (Z.min (cs + BlockchainService.BLOCK_RANGE - 1) endBlock) 1;
              BlockchainService.Delay 250]).
Proof.
  split; [|split].
  - intros. eapply pageLoop_empty_page; [eassumption | reflexivity].
  - intros P S T fetchFn saveFn description fuel cs ce page total w w1 w2 items items'
           Hfetch Hne Hsave. split; intros Hlen.
    + eapply pageLoop_short_page; eassumption.
    + eapply pageLoop_full_page; eassumption.
  - intros P fetchFn name type endBlock description fuel cs total w items p1 p2
           Hle Hpage1 Hlen Hpage2 Hbs Hrel.
    exact (windowLoop_full_then_empty fetchFn name type endBlock description fuel cs
             total w items p1 p2 Hle Hpage1 Hlen Hpage2 Hbs Hrel).
Qed.

(** The scenario on the client that answers the first page of [0, 49999]
    with the transactions of blocks 1 to 100 and the second with none. *)
Lemma pagination_full_then_empty_witness :
  exists w1,
    BlockchainService.windowLoop
      (fun start end_ page =>
         EtherscanClient.getTransactions "0xabc"
           (BlockchainService.pageQuery start end_ page))
      (fun items => FileSystemStorage.saveTransactions "ens" items Normal) 49999
      "normal transactions" 3 0 0
      (Scenarios.worldOf (Scenarios.clientOf Scenarios.fullPageThenNothing))
    = BlockchainService.windowLoop
        (fun start end_ page =>
           EtherscanClient.getTransactions "0xabc"
             (BlockchainService.pageQuery start end_ page))
        (fun items => FileSystemStorage.saveTransactions "ens" items Normal) 49999
        "normal transactions" 2 (Z.min (0 + BlockchainService.BLOCK_RANGE - 1) 49999 + 1)
        (0 + 100) w1 /\
    BlockchainService.dataProvider w1 = Scenarios.afterPage2 /\
    Cursors.rowsOf "ens" Normal (BlockchainService.storage w1)
    = Cursors.rowsOf "ens" Normal Scenarios.freshStorage
      ++ map FileSystemStorage.txRecord
           (FileSystemStorage.sortByBlock (Scenarios.txRun 1 100)) /\
    Cursors.cursorOnDisk "ens" Normal (BlockchainService.storage w1)
    = Cursors.highest (Cursors.cursorOnDisk "ens" Normal Scenarios.freshStorage)
                      (map blockNumber (Scenarios.txRun 1 100)) /\
    BlockchainService.trace w1
    = [] ++ [BlockchainService.LogProcessing "normal transactions" 0
               (Z.min (0 + BlockchainService.BLOCK_RANGE - 1) 49999);
             BlockchainService.LogSaved 100 "normal transactions" (0 + 100) 0
               (Z.min (0 + BlockchainService.BLOCK_RANGE - 1) 49999) 1;
             BlockchainService.Delay 250].
Proof.
  refine (proj2 (proj2 pagination_stops_on_short_or_empty_page)
            EtherscanClient.Client _ "ens" Normal 49999 "normal transactions" 0%nat 0 0
            (Scenarios.worldOf (Scenarios.clientOf Scenarios.fullPageThenNothing))
            (Scenarios.txRun 1 100) Scenarios.afterPage1 Scenarios.afterPage2
            _ _ _ _ _ _).
  - lia.
  - vm_compute. reflexivity.
  - reflexivity.
  - vm_compute. reflexivity.
  - vm_compute. lia.
  - intros n. reflexivity.
Defined.

(** C5, as stated, fails in its last part: after a page of 100 items and an
    empty one, 100 rows are saved, two requests were made and the run is
    complete, but the cursor is at block 100, the last block of the saved
    items, and not at 49999, the end of the window. *)
Lemma cursor_not_at_window_end :
  let '(r, w') := Scenarios.collectNormal "0xabc" "ens" 49999 10 0
                    (Scenarios.worldOf (Scenarios.clientOf Scenarios.fullPageThenNothing)) in
  r = Ret tt /\
  Scenarios.requestCount w' = 2%nat /\
  length (Scenarios.savedNormal "ens" w') = 100%nat /\
  Schedule.processedWindows (BlockchainService.trace w') = [(0, 49999)] /\
  Scenarios.normalCursorOf "ens" w' = 100 /\
  Scenarios.normalCursorOf "ens" w' <> 49999.
Proof. vm_compute. repeat split; congruence. Qed.

(** ** C6: a range without data *)

Section NoDataFacts.
Import EtherscanClient NoData.

Lemma makeRequest_no_data {T} (endpoint : Client -> Params -> nat -> HttpOutcome T)
    params c :
  (forall l t c0, endpoint (setTime l t c0) = endpoint c0) ->
  signalsNoData (endpoint c params (length (requests c))) ->
  makeRequest endpoint params c = (Ret (ResultItems []), served params c).
Proof.
  intros Hstable (data & Hresp & Hstatus & Hnone).
  unfold makeRequest. change (Z.to_nat MAX_RETRIES) with 3%nat. simpl.
  unfold throttleRequest, httpGet. unfold_js. simpl.
  rewrite Hstable, Hresp, Hstatus. simpl. rewrite Hnone. reflexivity.
Qed.

End NoDataFacts.

Section EmptyWindowFacts.
Import BlockchainService Retry.
Context {P S T : Type}.
Variable fetchFn : Z -> Z -> Z -> M P (list T).
Variable saveFn : list T -> M S (list T).
Variable endBlock : Z.
Variable description : string.

(** A window whose first page is empty: nothing is saved, nothing is
    retried, and the loop goes on with the next window. *)
Lemma windowLoop_no_data fuel cs total (w : World P S) p' :
  cs <= endBlock ->
  fetchFn cs (Z.min (cs + BLOCK_RANGE - 1) endBlock) 1 (dataProvider w) = (Ret [], p') ->
  windowLoop fetchFn saveFn endBlock description (Datatypes.S (Datatypes.S fuel)) cs total w
  = windowLoop fetchFn saveFn endBlock description (Datatypes.S fuel)
      (Z.min (cs + BLOCK_RANGE - 1) endBlock + 1) total
      (withProvider p'
         (logged [LogProcessing description cs (Z.min (cs + BLOCK_RANGE - 1) endBlock)] w)).
Proof.
  intros Hle Hfetch. apply windowLoop_next; [exact Hle|].
  apply pageLoop_empty_page with (items := []); [|reflexivity].
  apply retryOperation_first_try. exact Hfetch.
Qed.

End EmptyWindowFacts.

(** C6 (amended). When the Etherscan API answers a request with status 0
    and a message that holds ["No transactions found"], [makeRequest]
    returns an empty list after this one request: it throws nothing and it
    does not use its retry; so do [getTransactions],
    [getInternalTransactions] and [getTokenTransfers].  A window whose first
    page comes back empty in this way is left at once: [retryOperation]
    makes one attempt and logs no retry, the sink is not called, and the
    loop goes on with the window that starts after [currentEnd].  The
    storage is not touched, so the persisted cursor stays where it was: it
    is the loop, not the cursor, that moves past the window. *)
Theorem no_data_window_is_skipped_without_error :
  (forall (T : Type)
          (endpoint : EtherscanClient.Client -> EtherscanClient.Params -> nat
                      -> EtherscanClient.HttpOutcome T) params c,
      (forall l t c0, endpoint (EtherscanClient.setTime l t c0) = endpoint c0) ->
      NoData.signalsNoData (endpoint c params (length (EtherscanClient.requests c))) ->
      EtherscanClient.makeRequest endpoint params c
      = (Ret (EtherscanClient.ResultItems []), NoData.served params c)) /\
  (forall address options c,
      (NoData.signalsNoData
         (EtherscanClient.txlist c (EtherscanClient.paramsOf "txlist" address options)
            (length (EtherscanClient.requests c))) ->
       EtherscanClient.getTransactions address options c
       = (Ret [], NoData.served (EtherscanClient.paramsOf "txlist" address options) c)) /\
      (NoData.signalsNoData
         (EtherscanClient.txlistinternal c
            (EtherscanClient.paramsOf "txlistinternal" address options)
            (length (EtherscanClient.requests c))) ->
       EtherscanClient.getInternalTransactions address options c
       = (Ret [], NoData.served
                    (EtherscanClient.paramsOf "txlistinternal" address options) c)) /\
      (NoData.signalsNoData
         (EtherscanClient.tokentx c (EtherscanClient.paramsOf "tokentx" address options)
            (length (EtherscanClient.requests c))) ->
       EtherscanClient.getTokenTransfers address options c
       = (Ret [], NoData.served (EtherscanClient.paramsOf "tokentx" address options) c))) /\
  (forall (P S T : Type) (fetchFn : Z -> Z -> Z -> M P (list T))
          (saveFn : list T -> M S (list T)) endBlock description fuel cs total
          (w : BlockchainService.World P S) p',
      cs <= endBlock ->
      fetchFn cs (Z.min (cs + BlockchainService.BLOCK_RANGE - 1) endBlock) 1
              (BlockchainService.dataProvider w) = (Ret [], p') ->
      exists w1,
        BlockchainService.windowLoop fetchFn saveFn endBlock description
          (Datatypes.S (Datatypes.S fuel)) cs total w
        = BlockchainService.windowLoop fetchFn saveFn endBlock description
            (Datatypes.S fuel)
            (Z.min (cs + BlockchainService.BLOCK_RANGE - 1) endBlock + 1) total w1 /\
        BlockchainService.dataProvider w1 = p' /\
        BlockchainService.storage w1 = BlockchainService.storage w /\
        BlockchainService.trace w1
        = BlockchainService.trace w
          ++ [BlockchainService.LogProcessing description cs
                (Z.min (cs + BlockchainService.BLOCK_RANGE - 1) endBlock)]).
Proof.
  split; [|split].
  - intros T endpoint params c Hstable Hnone. apply makeRequest_no_data; assumption.
  - intros address options c. split; [|split]; intros Hnone.
    + unfold EtherscanClient.getTransactions, bind.
      rewrite makeRequest_no_data; [reflexivity | reflexivity | exact Hnone].
    + unfold EtherscanClient.getInternalTransactions, bind.
      rewrite makeRequest_no_data; [reflexivity | reflexivity | exact Hnone].
    + unfold EtherscanClient.getTokenTransfers, bind.
      rewrite makeRequest_no_data; [reflexivity | reflexivity | exact Hnone].
  - intros P S T fetchFn saveFn endBlock description fuel cs total w p' Hle Hfetch.
    eexists. split; [apply windowLoop_no_data; eassumption|].
    repeat split.
Qed.

(** An address without activity: the window [0, 49999] is asked for once
    and left. *)
Lemma no_data_window_witness :
  exists w1,
    BlockchainService.windowLoop
      (fun start end_ page =>
         EtherscanClient.getTransactions "0xabc"
           (BlockchainService.pageQuery start end_ page))
      (fun items => FileSystemStorage.saveTransactions "ens" items Normal) 49999
      "normal transactions" 2 0 0 (Scenarios.worldOf Scenarios.quietClient)
    = BlockchainService.windowLoop
        (fun start end_ page =>
           EtherscanClient.getTransactions "0xabc"
             (BlockchainService.pageQuery start end_ page))
        (fun items => FileSystemStorage.saveTransactions "ens" items Normal) 49999
        "normal transactions" 1 (Z.min (0 + BlockchainService.BLOCK_RANGE - 1) 49999 + 1)
        0 w1 /\
    BlockchainService.dataProvider w1
    = NoData.served
        (EtherscanClient.paramsOf "txlist" "0xabc" (BlockchainService.pageQuery 0 49999 1))
        Scenarios.quietClient /\
    BlockchainService.storage w1 = Scenarios.freshStorage /\
    BlockchainService.trace w1
    = [] ++ [BlockchainService.LogProcessing "normal transactions" 0
               (Z.min (0 + BlockchainService.BLOCK_RANGE - 1) 49999)].
Proof.
  refine (proj2 (proj2 no_data_window_is_skipped_without_error)
            EtherscanClient.Client FileSystemStorage.FS Transaction _ _ 49999
            "normal transactions" 0%nat 0 0 (Scenarios.worldOf Scenarios.quietClient)
            _ _ _).
  - lia.
  - apply (proj1 (proj1 (proj2 no_data_window_is_skipped_without_error)
                    "0xabc" (BlockchainService.pageQuery 0 49999 1)
                    Scenarios.quietClient)).
    eexists. split; [reflexivity|]. split; reflexivity.
Defined.

(** C6, as stated, fails in its last part: the collection of an address
    without activity up to block 49999 completes after one request for the
    window [0, 49999], and the cursor is still 0, not past the window; a
    resumed run asks for the same window again. *)
Lemma empty_window_leaves_cursor :
  let '(r, w') := BlockchainService.analyzeOrganization 10 "0xabc" "ens"
                    (BlockchainService.mkOptions None (Some 49999) false false false)
                    (Scenarios.worldOf Scenarios.quietClient) in
  r = Ret tt /\
  Schedule.processedWindows (BlockchainService.trace w') = [(0, 49999)] /\
  Scenarios.requestCount w' = 1%nat /\
  Scenarios.normalCursorOf "ens" w' = 0 /\
  (let '(r2, w2) := BlockchainService.analyzeOrganization 10 "0xabc" "ens"
                      (BlockchainService.mkOptions None (Some 49999) false false true)
                      w' in
   r2 = Ret tt /\
   Schedule.processedWindows (BlockchainService.trace w2) = [(0, 49999); (0, 49999)] /\
   Scenarios.requestCount w2 = 2%nat).
Proof. vm_compute. repeat split; reflexivity. Qed.

(** ** C1: the windows a run iterates *)


Section RepeatFacts.
Import BlockchainService Schedule Schedule.
Context {P S T : Type}.
Variable fetchFn : Z -> Z -> Z -> M P (list T).
Variable saveFn : list T -> M S (list T).
Variable endBlock : Z.
Variable description : string.

Abbreviation W := (World P S).

Lemma rateLimitWaits_snoc tr ev :
  rateLimitWaits (tr ++ [ev])
  = (rateLimitWaits tr + if isRateLimitWait ev then 1 else 0)%nat.
Proof.
  unfold rateLimitWaits. rewrite List.filter_app, length_app. simpl.
  destruct (isRateLimitWait ev); reflexivity.
Qed.

Lemma retryLoop_waits {A} (m : M P A) d n : forall attempt (w w' : W) r,
  retryLoop n attempt (onProvider m) d w = (r, w') ->
  rateLimitWaits (trace w') = rateLimitWaits (trace w).
Proof.
  induction n as [|n IH]; intros attempt w w' r Hrun; simpl in Hrun.
  - unfold_js. injection Hrun as _ <-. reflexivity.
  - unfold tryCatch, onProvider in Hrun.
    destruct (m (dataProvider w)) as [[a|e|] p'] eqn:Hm.
    + injection Hrun as _ <-. reflexivity.
    + destruct (shouldRetry attempt e).
      * unfold delay, emit in Hrun. unfold_js. simpl in Hrun.
        apply IH in Hrun. simpl in Hrun.
        rewrite Hrun, !rateLimitWaits_snoc. simpl. lia.
      * unfold_js. injection Hrun as _ <-. reflexivity.
    + injection Hrun as _ <-. reflexivity.
Qed.

Lemma onStorage_waits {A} (m : M S A) (w w' : W) r :
  onStorage m w = (r, w') -> rateLimitWaits (trace w') = rateLimitWaits (trace w).
Proof.
  unfold onStorage. destruct (m (storage w)) as [r0 s']. intros [= _ <-]. reflexivity.
Qed.

Lemma pageLoop_waits fuel : forall cs ce page total (w w' : W) r total',
  pageLoop fetchFn saveFn description fuel cs ce page total w = (r, total', w') ->
  rateLimitWaits (trace w') = rateLimitWaits (trace w).
Proof.
  induction fuel as [|fuel IH]; intros cs ce page total w w' r total' Hrun; simpl in Hrun.
  - injection Hrun as _ _ <-. reflexivity.
  - unfold retryOperation in Hrun.
    destruct (retryLoop _ _ _ _ w) as [[items|e|] w1] eqn:Hfetch;
      apply retryLoop_waits in Hfetch.
    + destruct (Z.of_nat (length items) =? 0).
      * injection Hrun as _ _ <-. exact Hfetch.
      * destruct (onStorage (saveFn items) w1) as [[items'|e|] w2] eqn:Hsave;
          apply onStorage_waits in Hsave.
        -- destruct (Z.of_nat (length items') <? MAX_RECORDS_PER_CALL).
           ++ injection Hrun as _ _ <-. simpl.
              rewrite rateLimitWaits_snoc. simpl. lia.
           ++ apply IH in Hrun. simpl in Hrun.
              rewrite Hrun, !rateLimitWaits_snoc. simpl. lia.
        -- injection Hrun as _ _ <-. congruence.
        -- injection Hrun as _ _ <-. congruence.
    + injection Hrun as _ _ <-. exact Hfetch.
    + injection Hrun as _ _ <-. exact Hfetch.
Qed.

(** A run that completes has announced one window for each window of the
    schedule and one more for each rate-limit wait. *)
Lemma windowLoop_count fuel : forall currentStart total (w w' : W),
  windowLoop fetchFn saveFn endBlock description fuel currentStart total w = (Ret tt, w') ->
  exists k,
    rateLimitWaits (trace w') = (rateLimitWaits (trace w) + k)%nat /\
    length (processedWindows (trace w'))
    = (length (processedWindows (trace w))
       + length (windows currentStart endBlock) + k)%nat.
Proof.
  induction fuel as [|fuel IH]; intros cs total w w' Hrun.
  - simpl in Hrun. destruct (Z.leb_spec cs endBlock); [discriminate|].
    unfold emit in Hrun. unfold_js. injection Hrun as <-. simpl.
    exists 0%nat. rewrite rateLimitWaits_snoc, processedWindows_snoc, windows_done by lia.
    simpl. rewrite app_nil_r. lia.
  - simpl in Hrun. destruct (Z.leb_spec cs endBlock) as [Hle|Hgt].
    2:{ unfold emit in Hrun. unfold_js. injection Hrun as <-. simpl.
        exists 0%nat. rewrite rateLimitWaits_snoc, processedWindows_snoc, windows_done by lia.
        simpl. rewrite app_nil_r. lia. }
    set (ce := Z.min (cs + BLOCK_RANGE - 1) endBlock) in *.
    destruct (pageLoop _ _ _ _ _ _ _ _ _) as [[res total'] w1] eqn:Hpages.
    pose proof (pageLoop_waits _ _ _ _ _ _ _ _ _ Hpages) as Hwaits.
    apply pageLoop_sameWindows in Hpages. unfold sameWindows in Hpages.
    simpl in Hpages, Hwaits.
    rewrite processedWindows_snoc in Hpages. rewrite rateLimitWaits_snoc in Hwaits.
    simpl in Hpages, Hwaits.
    rewrite (windows_step cs endBlock Hle). fold ce. simpl length.
    destruct res as [[]|error|]; [| |discriminate].
    + apply IH in Hrun as (k & Hk & Hlen). exists k.
      rewrite Hk, Hlen, Hwaits, Hpages, length_app. simpl. lia.
    + destruct (isEtherscanError error); [|discriminate].
      destruct (includes "No transactions found" (message error)).
      { apply IH in Hrun as (k & Hk & Hlen). exists k. simpl in Hk, Hlen.
        rewrite rateLimitWaits_snoc in Hk. rewrite processedWindows_snoc in Hlen.
        simpl in Hk, Hlen. rewrite app_nil_r in Hlen.
        rewrite Hk, Hlen, Hwaits, Hpages, length_app. simpl. lia. }
      destruct (includes "Max rate limit reached" (message error)); [|discriminate].
      apply IH in Hrun as (k & Hk & Hlen). exists (Datatypes.S k). simpl in Hk, Hlen.
      rewrite !rateLimitWaits_snoc in Hk. rewrite !processedWindows_snoc in Hlen.
      simpl in Hk, Hlen. rewrite !app_nil_r in Hlen.
      rewrite (windows_step cs endBlock Hle) in Hlen. fold ce in Hlen. simpl in Hlen.
      rewrite Hk, Hlen, Hwaits, Hpages, length_app. simpl. lia.
Qed.

Lemma dedupAdjacent_length ws : (length (dedupAdjacent ws) <= length ws)%nat.
Proof.
  induction ws as [|x rest IH]; simpl; [lia|].
  destruct (dedupAdjacent rest) as [|y r]; simpl in *; [lia|].
  destruct (bool_decide (x = y)); simpl; lia.
Qed.

(** A list without a repetition is kept as it is. *)
Lemma dedupAdjacent_same_length ws :
  length (dedupAdjacent ws) = length ws -> dedupAdjacent ws = ws.
Proof.
  induction ws as [|x rest IH]; simpl; [reflexivity|].
  pose proof (dedupAdjacent_length rest) as Hle.
  destruct (dedupAdjacent rest) as [|y r] eqn:Hd; simpl in *.
  - intros Hlen. destruct rest; [reflexivity | simpl in Hlen; lia].
  - destruct (bool_decide (x = y)); simpl; intros Hlen; [lia|].
    f_equal. apply IH. lia.
Qed.

End RepeatFacts.

Section FetchFacts.
Import BlockchainService Schedule Schedule.
Context {P S T : Type}.
Variable fetchFn : Z -> Z -> Z -> M P (list T).
Variable saveFn : list T -> M S (list T).
Variable endBlock : Z.
Variable description : string.

Abbreviation WR := (World (P * list (Z * Z * Z)) S).

Lemma fetchedRanges_app a b : fetchedRanges (a ++ b) = fetchedRanges a ++ fetchedRanges b.
Proof. apply map_app. Qed.

Lemma repeat_snoc {A} (x : A) n : repeat x n ++ [x] = repeat x (Datatypes.S n).
Proof. induction n as [|n IH]; simpl; [reflexivity | rewrite IH; reflexivity]. Qed.

(** Every attempt of [retryOperation] is one call for the same range. *)
Lemma retryLoop_calls cs ce page d n : forall attempt (w w' : WR) r,
  retryLoop n attempt (onProvider (recording fetchFn cs ce page)) d w = (r, w') ->
  exists new,
    snd (dataProvider w') = snd (dataProvider w) ++ new /\
    fetchedRanges new = repeat (cs, ce) (length new) /\
    (n <> 0%nat -> new <> []).
Proof.
  induction n as [|n IH]; intros attempt w w' r Hrun; simpl in Hrun.
  - unfold_js. injection Hrun as _ <-. exists []. rewrite app_nil_r. auto.
  - unfold tryCatch, onProvider, recording in Hrun.
    destruct (fetchFn cs ce page (fst (dataProvider w))) as [[a|e|] p'] eqn:Hm.
    + injection Hrun as _ <-. exists [(cs, ce, page)]. simpl. auto.
    + destruct (shouldRetry attempt e).
      * unfold delay, emit in Hrun. unfold_js. simpl in Hrun.
        apply IH in Hrun as (new & Hcalls & Hranges & _). simpl in Hcalls.
        exists ((cs, ce, page) :: new). rewrite Hcalls, <- app_assoc. simpl.
        rewrite Hranges. auto.
      * unfold_js. injection Hrun as _ <-. exists [(cs, ce, page)]. simpl. auto.
    + injection Hrun as _ <-. exists [(cs, ce, page)]. simpl. auto.
Qed.

Lemma onStorage_calls {A} (m : M S A) (w w' : WR) r :
  onStorage m w = (r, w') -> dataProvider w' = dataProvider w.
Proof.
  unfold onStorage. destruct (m (storage w)) as [r0 s']. intros [= _ <-]. reflexivity.
Qed.

(** All calls of a window are for the range of the window, and there is
    one at least. *)
Lemma pageLoop_calls fuel : forall cs ce page total (w w' : WR) r total',
  pageLoop (recording fetchFn) saveFn description fuel cs ce page total w = (r, total', w') ->
  exists new,
    snd (dataProvider w') = snd (dataProvider w) ++ new /\
    fetchedRanges new = repeat (cs, ce) (length new) /\
    (r <> OutOfFuel -> new <> []).
Proof.
  induction fuel as [|fuel IH]; intros cs ce page total w w' r total' Hrun; simpl in Hrun.
  - injection Hrun as <- _ <-. exists []. rewrite app_nil_r.
    split; [reflexivity|]. split; [reflexivity | congruence].
  - unfold retryOperation in Hrun. change (Z.to_nat MAX_RETRIES) with 3%nat in Hrun.
    destruct (retryLoop _ _ _ _ w) as [[items|e|] w1] eqn:Hfetch;
      apply retryLoop_calls in Hfetch as (new & Hcalls & Hranges & Hne);
      specialize (Hne ltac:(discriminate)).
    + destruct (Z.of_nat (length items) =? 0).
      * injection Hrun as _ _ <-. exists new. auto.
      * destruct (onStorage (saveFn items) w1) as [[items'|e|] w2] eqn:Hsave;
          apply onStorage_calls in Hsave.
        -- destruct (Z.of_nat (length items') <? MAX_RECORDS_PER_CALL).
           ++ injection Hrun as _ _ <-. simpl. exists new. rewrite Hsave. auto.
           ++ apply IH in Hrun as (new' & Hcalls' & Hranges' & _). simpl in Hcalls'.
              exists (new ++ new'). rewrite Hcalls', Hsave, Hcalls, <- app_assoc.
              split; [reflexivity|]. split.
              ** rewrite fetchedRanges_app, Hranges, Hranges', length_app, repeat_app.
                 reflexivity.
              ** intros _ Hnil. apply app_eq_nil in Hnil as [Hnil _]. auto.
        -- injection Hrun as _ _ <-. exists new. rewrite Hsave. auto.
        -- injection Hrun as _ _ <-. exists new. rewrite Hsave. auto.
    + injection Hrun as _ _ <-. exists new. auto.
    + injection Hrun as _ _ <-. exists new. auto.
Qed.

Lemma dedupAdjacent_twice x l : dedupAdjacent (x :: x :: l) = dedupAdjacent (x :: l).
Proof.
  change (dedupAdjacent (x :: x :: l))
    with (match dedupAdjacent (x :: l) with
          | [] => [x]
          | y :: r => if bool_decide (x = y) then y :: r else x :: y :: r
          end).
  assert (Hhead : exists r, dedupAdjacent (x :: l) = x :: r).
  { simpl. destruct (dedupAdjacent l) as [|y r]; [eauto|].
    destruct (bool_decide_reflect (x = y)) as [->|]; eauto. }
  destruct Hhead as [r ->]. rewrite bool_decide_eq_true_2 by reflexivity. reflexivity.
Qed.

Lemma dedupAdjacent_repeat x n l :
  dedupAdjacent (x :: repeat x n ++ l) = dedupAdjacent (x :: l).
Proof.
  induction n as [|n IH]; [reflexivity|].
  change (x :: repeat x (Datatypes.S n) ++ l) with (x :: x :: (repeat x n ++ l)).
  rewrite dedupAdjacent_twice. exact IH.
Qed.

Lemma dedupAdjacent_repeat_prefix x n l :
  dedupAdjacent (repeat x n) `prefix_of` x :: l.
Proof.
  destruct n as [|n]; [apply prefix_nil|].
  rewrite <- (app_nil_r (repeat x (Datatypes.S n))).
  change (repeat x (Datatypes.S n) ++ []) with (x :: repeat x n ++ []).
  rewrite dedupAdjacent_repeat. apply prefix_cons, prefix_nil.
Qed.

(** Whatever the provider and the storage do, the ranges asked of the
    provider are, up to repetition, the first windows of the schedule; and
    all of them when the run completes. *)
Lemma windowLoop_calls fuel : forall currentStart total (w w' : WR) r,
  windowLoop (recording fetchFn) saveFn endBlock description fuel currentStart total w
  = (r, w') ->
  exists new,
    snd (dataProvider w') = snd (dataProvider w) ++ new /\
    dedupAdjacent (fetchedRanges new) `prefix_of` windows currentStart endBlock /\
    (r = Ret tt -> dedupAdjacent (fetchedRanges new) = windows currentStart endBlock).
Proof.
  induction fuel as [|fuel IH]; intros cs total w w' r Hrun.
  - simpl in Hrun. destruct (Z.leb_spec cs endBlock).
    + injection Hrun as <- <-. exists []. rewrite app_nil_r.
      split; [reflexivity|]. split; [apply prefix_nil | discriminate].
    + unfold emit in Hrun. unfold_js. injection Hrun as <- <-. simpl.
      exists []. rewrite app_nil_r, windows_done by lia.
      split; [reflexivity|]. split; [apply prefix_nil | reflexivity].
  - simpl in Hrun. destruct (Z.leb_spec cs endBlock) as [Hle|Hgt].
    2:{ unfold emit in Hrun. unfold_js. injection Hrun as <- <-. simpl.
        exists []. rewrite app_nil_r, windows_done by lia.
        split; [reflexivity|]. split; [apply prefix_nil | reflexivity]. }
    set (ce := Z.min (cs + BLOCK_RANGE - 1) endBlock) in *.
    destruct (pageLoop _ _ _ _ _ _ _ _ _) as [[res total'] w1] eqn:Hpages.
    apply pageLoop_calls in Hpages as (new & Hcalls & Hranges & Hne).
    simpl in Hcalls.
    rewrite (windows_step cs endBlock Hle). fold ce.
    assert (Hstop :
      exists new0,
        snd (dataProvider w1) = snd (dataProvider w) ++ new0 /\
        dedupAdjacent (fetchedRanges new0) `prefix_of` (cs, ce) :: windows (ce + 1) endBlock).
    { exists new. split; [exact Hcalls|]. rewrite Hranges. apply dedupAdjacent_repeat_prefix. }
    assert (Hsome : res <> OutOfFuel -> exists n, length new = Datatypes.S n).
    { intros Hres. destruct new; [exfalso; exact (Hne Hres eq_refl) | simpl; eauto]. }
    assert (Hadvance : forall (w2 : WR) r2 w3,
      res <> OutOfFuel ->
      dataProvider w2 = dataProvider w1 ->
      windowLoop (recording fetchFn) saveFn endBlock description fuel (ce + 1) total' w2
      = (r2, w3) ->
      exists new0,
        snd (dataProvider w3) = snd (dataProvider w) ++ new0 /\
        dedupAdjacent (fetchedRanges new0) `prefix_of` (cs, ce) :: windows (ce + 1) endBlock /\
        (r2 = Ret tt ->
         dedupAdjacent (fetchedRanges new0) = (cs, ce) :: windows (ce + 1) endBlock)).
    { intros w2 r2 w3 Hres Hw2 Hnext.
      apply IH in Hnext as (new' & Hcalls' & Hpre & Hall).
      exists (new ++ new'). rewrite Hcalls', Hw2, Hcalls, <- app_assoc.
      split; [reflexivity|].
      rewrite fetchedRanges_app, Hranges.
      destruct (Hsome Hres) as [n ->].
      change (repeat (cs, ce) (Datatypes.S n) ++ fetchedRanges new')
        with ((cs, ce) :: repeat (cs, ce) n ++ fetchedRanges new').
      rewrite dedupAdjacent_repeat. split.
      - apply dedupAdjacent_cons_prefix; [exact Hpre|].
        intros y r0 Hd. destruct Hpre as [k Hk]. rewrite Hd in Hk.
        eapply windows_head_ne; [exact Hle | exact Hk].
      - intros ->. apply dedupAdjacent_cons_eq; [auto|].
        intros y r0 Hd. eapply windows_head_ne; [exact Hle | exact Hd]. }
    destruct res as [[]|error|].
    + eapply Hadvance; [discriminate | reflexivity | exact Hrun].
    + destruct (isEtherscanError error).
      * destruct (includes "No transactions found" (message error)).
        { eapply Hadvance; [discriminate | | exact Hrun]. reflexivity. }
        destruct (includes "Max rate limit reached" (message error)).
        { apply IH in Hrun as (new' & Hcalls' & Hpre & Hall). simpl in Hcalls'.
          rewrite (windows_step cs endBlock Hle) in Hpre, Hall. fold ce in Hpre, Hall.
          exists (new ++ new'). rewrite Hcalls', Hcalls, <- app_assoc.
          split; [reflexivity|].
          rewrite fetchedRanges_app, Hranges.
          destruct (Hsome ltac:(discriminate)) as [n ->].
          change (repeat (cs, ce) (Datatypes.S n) ++ fetchedRanges new')
            with ((cs, ce) :: repeat (cs, ce) n ++ fetchedRanges new').
          rewrite dedupAdjacent_repeat. split.
          - apply dedupAdjacent_again_prefix. exact Hpre.
          - intros Hr. apply dedupAdjacent_again_eq. auto. }
        injection Hrun as <- <-. destruct Hstop as (new0 & ? & ?). exists new0.
        split; [assumption|]. split; [assumption | discriminate].
      * injection Hrun as <- <-. destruct Hstop as (new0 & ? & ?). exists new0.
        split; [assumption|]. split; [assumption | discriminate].
    + injection Hrun as <- <-. destruct Hstop as (new0 & ? & ?). exists new0.
      split; [assumption|]. split; [assumption | discriminate].
Qed.

End FetchFacts.

Section CompletionFacts.
Import BlockchainService Schedule Retry.
Context {P S T : Type}.
Variable fetchFn : Z -> Z -> Z -> M P (list T).
Variable saveFn : list T -> M S (list T).
Variable endBlock : Z.
Variable description : string.
Variable InvP : P -> Prop.
Variable InvS : S -> Prop.
Variable K : Z.

(** Every call to the provider returns a page, and a page that is not
    full from page [K] on. *)
Hypothesis fetch_returns : forall cs ce page p,
  InvP p ->
  exists items p',
    fetchFn cs ce page p = (Ret items, p') /\ InvP p' /\
    (K <= page -> Z.of_nat (length items) < MAX_RECORDS_PER_CALL).

(** Every call to the sink returns, with the array as long as it was. *)
Hypothesis save_returns : forall items s,
  items <> [] -> InvS s ->
  exists items' s',
    saveFn items s = (Ret items', s') /\ InvS s' /\ length items' = length items.

Lemma pageLoop_returns fuel : forall cs ce page total (w : World P S),
  InvP (dataProvider w) -> InvS (storage w) ->
  (1 <= fuel)%nat -> K - page + 1 <= Z.of_nat fuel ->
  exists total' w',
    pageLoop fetchFn saveFn description fuel cs ce page total w = (Ret tt, total', w') /\
    InvP (dataProvider w') /\ InvS (storage w').
Proof.
  induction fuel as [|fuel IH]; intros cs ce page total w Hp Hs Hone Hfuel; [lia|].
  destruct (fetch_returns cs ce page _ Hp) as (items & p' & Hfetch & Hp' & Hshort).
  pose proof (retryOperation_first_try (S := S) _
                (fetchDescription description page cs ce) w _ _ Hfetch) as Hretry.
  destruct items as [|x items0].
  { eexists _, _. split; [eapply pageLoop_empty_page; [exact Hretry | reflexivity]|].
    split; assumption. }
  destruct (save_returns (x :: items0) (storage (withProvider p' w)) ltac:(discriminate) Hs)
    as (items' & s' & Hsave & Hs' & Hlen).
  assert (Hstore : onStorage (saveFn (x :: items0)) (withProvider p' w)
                   = (Ret items', withStorage s' (withProvider p' w))).
  { unfold onStorage. rewrite Hsave. reflexivity. }
  destruct (Z.lt_ge_cases (Z.of_nat (length items')) MAX_RECORDS_PER_CALL) as [Hlt|Hge].
  - eexists _, _. split.
    + eapply pageLoop_short_page; [exact Hretry | discriminate | exact Hstore | exact Hlt].
    + split; assumption.
  - assert (Hpage : page < K).
    { destruct (Z.lt_ge_cases page K) as [|Hk]; [assumption|].
      specialize (Hshort ltac:(lia)). rewrite Hlen in Hge. lia. }
    erewrite pageLoop_full_page; [| exact Hretry | discriminate | exact Hstore | exact Hge].
    apply IH; simpl; try assumption; lia.
Qed.

(** With these collaborators a run completes, given fuel for its windows
    and for the pages of a window, and it announces each window of the
    schedule once. *)
Lemma windowLoop_returns fuel : forall cs total (w : World P S),
  1 <= K ->
  InvP (dataProvider w) -> InvS (storage w) ->
  Z.of_nat (length (windows cs endBlock)) + K <= Z.of_nat fuel ->
  exists w',
    windowLoop fetchFn saveFn endBlock description fuel cs total w = (Ret tt, w') /\
    processedWindows (trace w') = processedWindows (trace w) ++ windows cs endBlock /\
    rateLimitWaits (trace w') = rateLimitWaits (trace w) /\
    InvP (dataProvider w') /\ InvS (storage w').
Proof.
  induction fuel as [|fuel IH]; intros cs total w HK Hp Hs Hfuel; [lia|].
  destruct (Z.le_gt_cases cs endBlock) as [Hle|Hgt].
  2:{ rewrite windowLoop_empty by lia. eexists. split; [reflexivity|]. simpl.
      rewrite processedWindows_snoc, rateLimitWaits_snoc, windows_done by lia. simpl.
      rewrite app_nil_r. repeat split; try assumption; lia. }
  rewrite (windows_step cs endBlock Hle) in Hfuel |- *. simpl length in Hfuel.
  set (ce := Z.min (cs + BLOCK_RANGE - 1) endBlock) in *.
  destruct (pageLoop_returns fuel cs ce 1 total
              (logged [LogProcessing description cs ce] w) Hp Hs ltac:(lia) ltac:(lia))
    as (total' & w1 & Hpages & Hp1 & Hs1).
  erewrite windowLoop_next; [| exact Hle | exact Hpages].
  destruct (IH (ce + 1) total' w1 HK Hp1 Hs1 ltac:(lia)) as (w' & Hrun & Hws & Hwaits & Hp' & Hs').
  exists w'. split; [exact Hrun|].
  pose proof Hpages as Hw1. apply pageLoop_waits in Hw1.
  apply pageLoop_sameWindows in Hpages. unfold sameWindows in Hpages.
  simpl in Hpages, Hw1. rewrite processedWindows_snoc in Hpages.
  rewrite rateLimitWaits_snoc in Hw1. simpl in Hpages, Hw1.
  rewrite Hws, Hpages, <- app_assoc, Hwaits, Hw1. simpl.
  repeat split; try assumption; lia.
Qed.

End CompletionFacts.

Section RecordingFacts.
Import BlockchainService Schedule Schedule.
Context {P S T : Type}.
Variable fetchFn : Z -> Z -> Z -> M P (list T).
Variable saveFn : list T -> M S (list T).
Variable endBlock : Z.
Variable description : string.

Abbreviation WR := (World (P * list (Z * Z * Z)) S).

Lemma retryLoop_forget cs ce page d n : forall attempt (w : WR),
  retryLoop n attempt (onProvider (fetchFn cs ce page)) d (forget w)
  = (let '(r, w') := retryLoop n attempt (onProvider (recording fetchFn cs ce page)) d w in
     (r, forget w')).
Proof.
  induction n as [|n IH]; intros attempt w; simpl.
  - reflexivity.
  - unfold tryCatch, onProvider, recording. simpl.
    destruct (fetchFn cs ce page (fst (dataProvider w))) as [[a|e|] p']; try reflexivity.
    destruct (shouldRetry attempt e); [|reflexivity].
    unfold delay, emit. unfold_js. simpl. rewrite <- IH. reflexivity.
Qed.

Lemma pageLoop_forget fuel : forall cs ce page total (w : WR),
  pageLoop fetchFn saveFn description fuel cs ce page total (forget w)
  = (let '(r, total', w') :=
       pageLoop (recording fetchFn) saveFn description fuel cs ce page total w in
     (r, total', forget w')).
Proof.
  induction fuel as [|fuel IH]; intros cs ce page total w; simpl; [reflexivity|].
  unfold retryOperation. rewrite retryLoop_forget.
  destruct (retryLoop _ _ _ _ w) as [[items|e|] w1]; try reflexivity.
  destruct (Z.of_nat (length items) =? 0); [reflexivity|].
  unfold onStorage. simpl.
  destruct (saveFn items (storage w1)) as [[items'|e|] s']; try reflexivity.
  destruct (Z.of_nat (length items') <? MAX_RECORDS_PER_CALL); [reflexivity|].
  rewrite <- IH. reflexivity.
Qed.

(** Recording the calls changes nothing else. *)
Lemma windowLoop_forget fuel : forall cs total (w : WR),
  windowLoop fetchFn saveFn endBlock description fuel cs total (forget w)
  = (let '(r, w') :=
       windowLoop (recording fetchFn) saveFn endBlock description fuel cs total w in
     (r, forget w')).
Proof.
  induction fuel as [|fuel IH]; intros cs total w.
  - simpl. destruct (cs <=? endBlock); reflexivity.
  - cbn [windowLoop]. destruct (cs <=? endBlock); [|reflexivity].
    change (snd (emit (LogProcessing description cs
                         (Z.min (cs + BLOCK_RANGE - 1) endBlock)) (forget w)))
      with (forget (snd (emit (LogProcessing description cs
                                 (Z.min (cs + BLOCK_RANGE - 1) endBlock)) w))).
    rewrite pageLoop_forget.
    destruct (pageLoop _ _ _ _ _ _ _ _ _) as [[[[]|error|] total'] w1]; try reflexivity.
    + apply IH.
    + destruct (isEtherscanError error); [|reflexivity].
      destruct (includes "No transactions found" (message error));
        [exact (IH _ _ (snd (emit _ w1)))|].
      destruct (includes "Max rate limit reached" (message error)); [|reflexivity].
      exact (IH _ _ (snd (delay 5000 (snd (emit LogRateLimit w1))))).
Qed.

End RecordingFacts.

(** C1 (amended). The windows of the schedule partition
    [[startBlock, endBlock]]: the first starts at [startBlock], the last
    ends at [endBlock], each is non-empty and at most [BLOCK_RANGE] = 50000
    blocks long, each starts right after the one before it, and every block
    lies in exactly one window when it is in the range and in none when it
    is not.  [processBatchWithType] iterates these windows in this order,
    but a window that ends in a 'Max rate limit reached' error is iterated
    again before the next one: whatever the provider and the storage do,
    the windows a run announces are, with the repetitions of a window
    taken as one, a prefix of the schedule, and the whole schedule when the
    run completes; a run that completes has announced one window for each
    window of the schedule and one more for each rate-limit wait, so
    exactly the schedule when it never waited.  The same holds of the
    block ranges the provider is asked for, which are recorded call by
    call.  A run completes, and iterates each window once, when every call
    to the provider returns a page, pages are not full from some page [K]
    on, every call to the sink returns, and the fuel covers the windows and
    [K] pages.  When [startBlock > endBlock] there is no window: the run
    completes at once and touches neither the provider nor the storage.
    For 100 and 260000 the windows are the six of the scenario. *)
Theorem processBatchWithType_windows_partition :
  forall startBlock endBlock : Z,
    (startBlock <= endBlock ->
     Schedule.Partitions (Schedule.windows startBlock endBlock) startBlock endBlock) /\
    (forall (P S T : Type) (fetchFn : Z -> Z -> Z -> M P (list T))
            (saveFn : list T -> M S (list T)) description fuel name state
            (w w' : BlockchainService.World P S) r,
        BlockchainService.processBatchWithType fetchFn saveFn endBlock description
          fuel startBlock name state w = (r, w') ->
        exists ws,
          Schedule.processedWindows (BlockchainService.trace w')
          = Schedule.processedWindows (BlockchainService.trace w) ++ ws /\
          Schedule.dedupAdjacent ws `prefix_of` Schedule.windows startBlock endBlock /\
          (r = Ret tt ->
           Schedule.dedupAdjacent ws = Schedule.windows startBlock endBlock /\
           (exists k,
              Schedule.rateLimitWaits (BlockchainService.trace w')
              = (Schedule.rateLimitWaits (BlockchainService.trace w) + k)%nat /\
              length ws = (length (Schedule.windows startBlock endBlock) + k)%nat) /\
           (Schedule.rateLimitWaits (BlockchainService.trace w')
            = Schedule.rateLimitWaits (BlockchainService.trace w) ->
            ws = Schedule.windows startBlock endBlock))) /\
    (forall (P S T : Type) (fetchFn : Z -> Z -> Z -> M P (list T))
            (saveFn : list T -> M S (list T)) description fuel name state
            (w w' : BlockchainService.World (P * list (Z * Z * Z)) S) r,
        BlockchainService.processBatchWithType (Schedule.recording fetchFn) saveFn endBlock
          description fuel startBlock name state w = (r, w') ->
        BlockchainService.processBatchWithType fetchFn saveFn endBlock
          description fuel startBlock name state (Schedule.forget w)
        = (r, Schedule.forget w') /\
        exists new,
          snd (BlockchainService.dataProvider w')
          = snd (BlockchainService.dataProvider w) ++ new /\
          Schedule.dedupAdjacent (Schedule.fetchedRanges new)
            `prefix_of` Schedule.windows startBlock endBlock /\
          (r = Ret tt ->
           Schedule.dedupAdjacent (Schedule.fetchedRanges new)
           = Schedule.windows startBlock endBlock)) /\
    (forall (P S T : Type) (fetchFn : Z -> Z -> Z -> M P (list T))
            (saveFn : list T -> M S (list T)) description name state
            (InvP : P -> Prop) (InvS : S -> Prop) (K : Z) fuel
            (w : BlockchainService.World P S),
        1 <= K ->
        (forall cs ce page p,
            InvP p ->
            exists items p',
              fetchFn cs ce page p = (Ret items, p') /\ InvP p' /\
              (K <= page ->
               Z.of_nat (length items) < BlockchainService.MAX_RECORDS_PER_CALL)) ->
        (forall items s,
            items <> [] -> InvS s ->
            exists items' s',
              saveFn items s = (Ret items', s') /\ InvS s' /\
              length items' = length items) ->
        InvP (BlockchainService.dataProvider w) ->
        InvS (BlockchainService.storage w) ->
        Z.of_nat (length (Schedule.windows startBlock endBlock)) + K <= Z.of_nat fuel ->
        exists w',
          BlockchainService.processBatchWithType fetchFn saveFn endBlock description
            fuel startBlock name state w = (Ret tt, w') /\
          Schedule.processedWindows (BlockchainService.trace w')
          = Schedule.processedWindows (BlockchainService.trace w)
            ++ Schedule.windows startBlock endBlock /\
          Schedule.rateLimitWaits (BlockchainService.trace w')
          = Schedule.rateLimitWaits (BlockchainService.trace w) /\
          InvP (BlockchainService.dataProvider w') /\
          InvS (BlockchainService.storage w')) /\
    (startBlock > endBlock ->
     Schedule.windows startBlock endBlock = [] /\
     forall (P S T : Type) (fetchFn : Z -> Z -> Z -> M P (list T))
            (saveFn : list T -> M S (list T)) description fuel name state
            (w : BlockchainService.World P S),
       exists w',
         BlockchainService.processBatchWithType fetchFn saveFn endBlock description
           fuel startBlock name state w = (Ret tt, w') /\
         BlockchainService.dataProvider w' = BlockchainService.dataProvider w /\
         BlockchainService.storage w' = BlockchainService.storage w /\
         Schedule.processedWindows (BlockchainService.trace w')
         = Schedule.processedWindows (BlockchainService.trace w)) /\
    Schedule.windows 100 260000 =
      [(100, 50099); (50100, 100099); (100100, 150099); (150100, 200099);
       (200100, 250099); (250100, 260000)].
Proof.
  intros startBlock endBlock. split; [|split; [|split; [|split; [|split]]]].
  - intros Hle. apply chained_partitions; [exact Hle | apply windows_chained].
  - intros P S T fetchFn saveFn description fuel name state w w' r Hrun.
    unfold BlockchainService.processBatchWithType in Hrun.
    destruct (windowLoop_windows _ _ _ _ _ _ _ _ _ _ Hrun) as (ws & Htr & Hpre & Hall).
    exists ws. split; [exact Htr|]. split; [exact Hpre|].
    intros ->. specialize (Hall eq_refl).
    destruct (windowLoop_count _ _ _ _ _ _ _ _ _ Hrun) as (k & Hk & Hlen).
    rewrite Htr, length_app in Hlen.
    assert (Hws : length ws = (length (Schedule.windows startBlock endBlock) + k)%nat) by lia.
    split; [exact Hall|]. split; [exists k; auto|].
    intros Hsame. rewrite <- Hall. symmetry. apply dedupAdjacent_same_length.
    rewrite Hall. lia.
  - intros P S T fetchFn saveFn description fuel name state w w' r Hrun.
    unfold BlockchainService.processBatchWithType in *. split.
    + rewrite windowLoop_forget, Hrun. reflexivity.
    + eapply windowLoop_calls. exact Hrun.
  - intros P S T fetchFn saveFn description name state InvP InvS K fuel w
           HK Hfetch Hsave Hp Hs Hfuel.
    unfold BlockchainService.processBatchWithType.
    apply (windowLoop_returns fetchFn saveFn endBlock description InvP InvS K
             Hfetch Hsave fuel startBlock 0 w HK Hp Hs Hfuel).
  - intros Hgt. split; [apply windows_done; lia|].
    intros P S T fetchFn saveFn description fuel name state w.
    unfold BlockchainService.processBatchWithType.
    rewrite windowLoop_empty by lia. eexists. split; [reflexivity|]. simpl.
    rewrite processedWindows_snoc. simpl. rewrite app_nil_r. auto.
  - vm_compute. reflexivity.
Qed.

(** The scenario of C1 on a run: an address without activity, collected
    from block 100 to block 260000 through the Etherscan client into the
    files of the organization. *)
Lemma processBatchWithType_windows_witness :
  exists w',
    Scenarios.collectNormal "0xabc" "ens" 260000 7 100
      (Scenarios.worldOf Scenarios.quietClient) = (Ret tt, w') /\
    Schedule.processedWindows (BlockchainService.trace w')
    = Schedule.processedWindows
        (BlockchainService.trace (Scenarios.worldOf Scenarios.quietClient))
      ++ Schedule.windows 100 260000 /\
    Schedule.rateLimitWaits (BlockchainService.trace w')
    = Schedule.rateLimitWaits
        (BlockchainService.trace (Scenarios.worldOf Scenarios.quietClient)) /\
    EtherscanClient.txlist (BlockchainService.dataProvider w') = Scenarios.noData /\
    (exists rows sj,
       Cursors.Snap "ens" Normal 1000 1700000000000 (fun _ => false) rows sj
         (BlockchainService.storage w')).
Proof.
  apply (proj1 (proj2 (proj2 (proj2 (processBatchWithType_windows_partition 100 260000))))
           EtherscanClient.Client FileSystemStorage.FS Transaction
           (fun start end_ page =>
              EtherscanClient.getTransactions "0xabc"
                (BlockchainService.pageQuery start end_ page))
           (fun items => FileSystemStorage.saveTransactions "ens" items Normal)
           "normal transactions" "ens" None
           (fun c => EtherscanClient.txlist c = Scenarios.noData)
           (fun s => exists rows sj,
              Cursors.Snap "ens" Normal 1000 1700000000000 (fun _ => false) rows sj s)
           1 7%nat (Scenarios.worldOf Scenarios.quietClient)).
  - lia.
  - intros cs ce page c Hc. exists [], (NoData.served
      (EtherscanClient.paramsOf "txlist" "0xabc" (BlockchainService.pageQuery cs ce page)) c).
    split; [|split; [exact Hc | intros _; reflexivity]].
    unfold EtherscanClient.getTransactions, bind.
    rewrite makeRequest_no_data; [reflexivity | reflexivity |].
    rewrite Hc. eexists. split; [reflexivity|]. split; reflexivity.
  - intros items s Hne (rows & sj & Hat).
    destruct (FileSystemStorage.saveTransactions "ens" items Normal s) as [r s'] eqn:Hsave.
    pose proof (saveTransactions_spec "ens" Normal 1000 1700000000000 (fun _ => false)
                  rows sj items Hne ltac:(lia) s r s' Hat Hsave) as Hspec.
    destruct r as [sorted|e|]; [| |contradiction].
    + destruct Hspec as [-> Hat']. eexists _, s'. split; [reflexivity|].
      split; [eexists _, _; exact Hat'|].
      symmetry. apply Permutation_length, sortBy_perm.
    + destruct Hspec as [[n Hn] _]. discriminate.
  - reflexivity.
  - eexists _, _. repeat split.
  - vm_compute. discriminate.
Defined.

(** C1, as stated, fails: the windows a run iterates can overlap.  The first
    requests for the window [0, 9] are turned away for the rate limit; the
    run waits, iterates the same window again and completes, so it has
    iterated [(0, 9); (0, 9)], which is no partition of [0, 9].  When the
    rate limit strikes at the second page of a window, the first page is
    fetched and saved a second time. *)
Lemma rate_limited_window_is_iterated_again :
  (let '(r, w') := Scenarios.collectNormal "0xabc" "ens" 9 10 0
                     (Scenarios.worldOf (Scenarios.clientOf Scenarios.rateLimitedAtFirst)) in
   r = Ret tt /\
   Schedule.processedWindows (BlockchainService.trace w') = [(0, 9); (0, 9)] /\
   Schedule.rateLimitWaits (BlockchainService.trace w') = 1%nat /\
   ~ Schedule.Partitions (Schedule.processedWindows (BlockchainService.trace w')) 0 9) /\
  (let '(r, w') := Scenarios.collectNormal "0xabc" "ens" 49999 10 0
                     (Scenarios.worldOf (Scenarios.clientOf Scenarios.rateLimitedOnPage2)) in
   r = Ret tt /\
   Schedule.processedWindows (BlockchainService.trace w') = [(0, 49999); (0, 49999)] /\
   length (Scenarios.savedNormal "ens" w') = 200%nat).
Proof.
  split.
  - vm_compute. repeat split; try reflexivity.
    intros (_ & _ & _ & Hnext & _).
    specialize (Hnext 0%nat (0, 9) (0, 9) eq_refl eq_refl). discriminate.
  - vm_compute. repeat split; reflexivity.
Qed.

(** ** C4: resuming a collection *)

Section ResumeFacts.
Import BlockchainService FileSystemStorage Cursors.
Context {P : Type} `{BlockchainDataProvider P}.
Variable name : string.
Variable bs : nat.
Variable t : Z.
Variable f : nat -> bool.
Variable rows : list Transaction.
Variable v : StorageState.
Variable p : P.

Abbreviation At := (Snap name Normal bs t f).

Abbreviation Quiet := (Resume.Quiet name bs t f rows v p).
Abbreviation QuietFailure := (Resume.QuietFailure name bs t f rows v p).

Lemma triple_emit ev : triple Quiet (emit ev) (fun _ => Quiet) QuietFailure.
Proof. apply triple_modify. intros w Hq. exact Hq. Qed.

Lemma triple_onStorage {A} (m : M FS A) (Post : A -> FS -> Prop) :
  triple (At rows (Some v)) m Post (Failed f (At rows (Some v))) ->
  triple Quiet (onStorage m)
         (fun a w => dataProvider w = p /\ Post a (storage w)) QuietFailure.
Proof.
  intros Hm w r w' [Hp Hat] Hrun. unfold onStorage in Hrun.
  destruct (m (storage w)) as [r0 s'] eqn:Hms. injection Hrun as <- <-.
  specialize (Hm _ _ _ Hat Hms). destruct r0 as [a|e|]; simpl.
  - split; [exact Hp | exact Hm].
  - destruct Hm as [Hf Hat']. split; [exact Hf|]. split; [exact Hp | exact Hat'].
  - exact Hm.
Qed.

Lemma writeMetadataSafely_spec data sj :
  triple (At rows sj) (writeMetadataSafely name data)
         (fun _ => At rows sj) (Failed f (At rows sj)).
Proof.
  unfold writeMetadataSafely.
  eapply triple_tryCatch with (E1 := Failed f (At rows sj)).
  - eapply triple_bind; [apply fsOp_spec | auto |]. intros ?.
    eapply triple_bind; [apply fsOp_spec | auto |]. intros ?.
    apply triple_modify. intros st (Hb & Ht & Hf & Hrows & Hsj).
    unfold Snap. rewrite readDir_writeDir. repeat split; assumption.
  - intros e. apply triple_throw. auto.
Qed.

Lemma saveOrganization_spec organization :
  org_name organization = name ->
  triple (At rows (Some v)) (FileSystemStorage.saveOrganization organization)
         (fun _ => At rows (Some v)) (Failed f (At rows (Some v))).
Proof.
  intros Hname. unfold FileSystemStorage.saveOrganization. rewrite Hname.
  eapply triple_tryCatch with (E1 := Failed f (At rows (Some v))).
  2:{ intros e. apply triple_throw. auto. }
  do 5 (eapply triple_bind; [apply fsOp_spec | auto |]; intros ?).
  eapply triple_bind with (Q1 := fun _ => At rows (Some v))
                          (E1 := Failed f (At rows (Some v))).
  { apply triple_gets. auto. }
  { auto. }
  intros t'.
  eapply triple_bind; [apply writeMetadataSafely_spec | auto |]. intros ?.
  apply (initializeState_spec name Normal bs t f rows (Some v)).
Qed.

(** A collection that starts after [endBlock] has nothing to do. *)
Lemma triple_nothing_to_collect {T} (fetchFn : Z -> Z -> Z -> M P (list T))
    (saveFn : list T -> M FS (list T)) E description fuel start state :
  E < start ->
  triple Quiet
         (processBatchWithType fetchFn saveFn E description fuel start name state)
         (fun _ => Quiet) QuietFailure.
Proof.
  intros Hlt w r w' Hq Hrun. unfold processBatchWithType in Hrun.
  rewrite windowLoop_empty in Hrun by exact Hlt. injection Hrun as <- <-. exact Hq.
Qed.

Lemma analyzeOrganization_quiet fuel address options E :
  resume options = true ->
  endBlock options = Some E -> 0 < E ->
  E <= lastBlock (normal (transactionTypes v)) ->
  (includeInternalTransactions options = true ->
   E <= lastBlock (internal (transactionTypes v))) ->
  (includeTokenTransfers options = true ->
   E <= lastBlock (tokenTransfers (transactionTypes v))) ->
  triple Quiet (analyzeOrganization fuel address name options)
         (fun _ => Quiet) QuietFailure.
Proof.
  intros Hresume Hend Hpos Hnormal Hinternal Htoken.
  destruct options as [optStart optEnd incToken incInternal res].
  simpl in Hresume, Hend, Hinternal, Htoken. subst res optEnd.
  unfold analyzeOrganization. simpl.
  eapply triple_tryCatch with (E1 := QuietFailure).
  2:{ intros e. eapply triple_bind with (Q1 := fun _ w => QuietFailure e w)
                                        (E1 := QuietFailure).
      - apply triple_modify. intros w Hq. exact Hq.
      - auto.
      - intros ?. apply triple_throw. auto. }
  eapply triple_bind; [apply triple_emit | auto |]. intros ?.
  eapply triple_bind with (Q1 := fun state w => state = Some v /\ Quiet w)
                          (E1 := QuietFailure).
  { eapply triple_bind; [apply triple_onStorage, getLastProcessedState_spec | auto |].
    intros [st|].
    - eapply triple_bind with (Q1 := fun _ w => Some st = Some v /\ Quiet w)
                              (E1 := QuietFailure).
      + apply triple_modify. intros w [Hp [Heq Hat]]. split; [exact Heq|]. split; assumption.
      + auto.
      + intros ?. apply triple_ret. auto.
    - apply triple_ret. intros w [Hp [Heq Hat]]. discriminate. }
  { auto. }
  intros state.
  eapply triple_bind with (Q1 := fun _ w => state = Some v /\ Quiet w) (E1 := QuietFailure).
  { apply triple_gets. auto. }
  { auto. }
  intros dateAdded_.
  eapply triple_bind with (Q1 := fun _ w => state = Some v /\ Quiet w) (E1 := QuietFailure).
  { intros w r w' [Hstate Hq] Hrun.
    pose proof (triple_onStorage _ _ (saveOrganization_spec
                  (mkOrganization address name 1 dateAdded_) eq_refl) w r w' Hq Hrun) as Hs.
    destruct r; auto. }
  { auto. }
  intros ?.
  assert (Htruthy : truthy E = true).
  { unfold truthy. destruct (Z.eqb_spec E 0); [lia | reflexivity]. }
  rewrite Htruthy.
  eapply triple_bind with (Q1 := fun e w => e = E /\ state = Some v /\ Quiet w)
                          (E1 := QuietFailure).
  { apply triple_ret. auto. }
  { auto. }
  intros endBlock_.
  assert (Hstart : forall cursor,
            E <= lastBlock (cursor (transactionTypes v)) ->
            E < resumeStart (mkOptions optStart (Some E) incToken incInternal true)
                            (Some v) cursor).
  { intros cursor Hle. unfold resumeStart. simpl.
    assert (Htr : truthy (lastBlock (cursor (transactionTypes v))) = true).
    { unfold truthy. destruct (Z.eqb_spec (lastBlock (cursor (transactionTypes v))) 0);
        [lia | reflexivity]. }
    rewrite Htr. lia. }
  eapply triple_bind with (Q1 := fun _ w => endBlock_ = E /\ state = Some v /\ Quiet w)
                          (E1 := QuietFailure).
  { intros w r w' (-> & -> & Hq) Hrun.
    pose proof (triple_nothing_to_collect _ _ _ _ _ _ _ (Hstart normal Hnormal)
                  w r w' Hq Hrun) as Hs.
    destruct r; auto. }
  { auto. }
  intros ?.
  eapply triple_bind with (Q1 := fun _ w => endBlock_ = E /\ state = Some v /\ Quiet w)
                          (E1 := QuietFailure).
  { destruct incInternal.
    - intros w r w' (-> & -> & Hq) Hrun.
      pose proof (triple_nothing_to_collect _ _ _ _ _ _ _
                    (Hstart internal (Hinternal eq_refl)) w r w' Hq Hrun) as Hs.
      destruct r; auto.
    - apply triple_ret. auto. }
  { auto. }
  intros ?.
  eapply triple_bind with (Q1 := fun _ w => Quiet w) (E1 := QuietFailure).
  { destruct incToken.
    - intros w r w' (-> & -> & Hq) Hrun.
      exact (triple_nothing_to_collect _ _ _ _ _ _ _
               (Hstart tokenTransfers (Htoken eq_refl)) w r w' Hq Hrun).
    - apply triple_ret. intros w (_ & _ & Hq). exact Hq. }
  { auto. }
  intros ?. apply triple_emit.
Qed.

End ResumeFacts.


Section DrainFacts.
Import BlockchainService FileSystemStorage Cursors Schedule Retry Resume.
Context {P : Type} `{BlockchainDataProvider P}.
Variable name : string.
Variable bs : nat.
Variable t : Z.
Variable f : nat -> bool.
Variable rows : list Transaction.
Variable v : StorageState.

Abbreviation QuietAt := (Resume.Quiet name bs t f rows v).
Abbreviation Fault := (Resume.FaultOnly (P := P) name bs t f rows v).

Lemma quietFailure_fault p e w : Resume.QuietFailure name bs t f rows v p e w -> Fault e w.
Proof. intros [Hf [_ Hat]]. split; assumption. Qed.

(** A collection that is returned nothing leaves everything but the
    provider as it was. *)
Lemma windowLoop_drained {T} (fetchFn : Z -> Z -> Z -> M P (list T))
    (saveFn : list T -> M FS (list T)) E description fuel :
  forall start total (w : World P FS) p',
    drained fetchFn (windows start E) (dataProvider w) = Some p' ->
    (length (windows start E) < fuel)%nat ->
    exists w',
      windowLoop fetchFn saveFn E description fuel start total w = (Ret tt, w') /\
      dataProvider w' = p' /\ storage w' = storage w.
Proof.
  induction fuel as [|fuel IH]; intros start total w p' Hdrained Hfuel; [lia|].
  destruct (Z.le_gt_cases start E) as [Hle|Hgt].
  2:{ rewrite windows_done in Hdrained by lia. injection Hdrained as <-.
      rewrite windowLoop_empty by lia. eexists. split; [reflexivity|]. split; reflexivity. }
  rewrite (windows_step start E Hle) in Hdrained, Hfuel. simpl in Hdrained, Hfuel.
  destruct (fetchFn start (Z.min (start + BLOCK_RANGE - 1) E) 1 (dataProvider w))
    as [[[|x items]|e|] p1] eqn:Hfetch; try discriminate.
  destruct fuel as [|fuel]; [lia|].
  rewrite (windowLoop_no_data fetchFn saveFn E description fuel start total w p1 Hle Hfetch).
  destruct (IH (Z.min (start + BLOCK_RANGE - 1) E + 1) total
              (withProvider p1 (logged [LogProcessing description start
                                          (Z.min (start + BLOCK_RANGE - 1) E)] w))
              p' Hdrained ltac:(lia)) as (w' & Hrun & Hp & Hs).
  exists w'. split; [exact Hrun|]. split; [exact Hp | exact Hs].
Qed.

Lemma triple_drained {T} (fetchFn : Z -> Z -> Z -> M P (list T))
    (saveFn : list T -> M FS (list T)) E description fuel start state p p' :
  drained fetchFn (windows start E) p = Some p' ->
  (length (windows start E) < fuel)%nat ->
  triple (QuietAt p)
         (processBatchWithType fetchFn saveFn E description fuel start name state)
         (fun _ => QuietAt p') Fault.
Proof.
  intros Hdrained Hfuel w r w' [Hp Hat] Hrun. unfold processBatchWithType in Hrun.
  rewrite <- Hp in Hdrained.
  destruct (windowLoop_drained fetchFn saveFn E description fuel start 0 w p' Hdrained Hfuel)
    as (w1 & Hrun1 & Hp1 & Hs1).
  rewrite Hrun1 in Hrun. injection Hrun as <- <-.
  split; [exact Hp1 | rewrite Hs1; exact Hat].
Qed.

Lemma analyzeOrganization_drained fuel address options E p p1 p2 p3 :
  resume options = true ->
  endBlock options = Some E -> E <> 0 ->
  drained (fun start end_ page => getTransactions address (pageQuery start end_ page))
          (windows (resumeStart options (Some v) normal) E) p = Some p1 ->
  (if includeInternalTransactions options
   then drained (fun start end_ page =>
                   getInternalTransactions address (pageQuery start end_ page))
                (windows (resumeStart options (Some v) internal) E) p1
   else Some p1) = Some p2 ->
  (if includeTokenTransfers options
   then drained (fun start end_ page =>
                   getTokenTransfers address (pageQuery start end_ page))
                (windows (resumeStart options (Some v) tokenTransfers) E) p2
   else Some p2) = Some p3 ->
  (length (windows (resumeStart options (Some v) normal) E) < fuel)%nat ->
  (includeInternalTransactions options = true ->
   (length (windows (resumeStart options (Some v) internal) E) < fuel)%nat) ->
  (includeTokenTransfers options = true ->
   (length (windows (resumeStart options (Some v) tokenTransfers) E) < fuel)%nat) ->
  triple (QuietAt p) (analyzeOrganization fuel address name options)
         (fun _ => QuietAt p3) Fault.
Proof.
  intros Hresume Hend Hpos Hnormal Hinternal Htoken Hfuel Hfuel2 Hfuel3.
  destruct options as [optStart optEnd incToken incInternal res].
  simpl in Hresume, Hend, Hinternal, Htoken, Hfuel2, Hfuel3. subst res optEnd.
  unfold analyzeOrganization.
  cbn [resume endBlock includeInternalTransactions includeTokenTransfers].
  eapply triple_tryCatch with (E1 := Fault).
  2:{ intros e. eapply triple_bind with (Q1 := fun _ w => Fault e w) (E1 := Fault).
      - apply triple_modify. intros w Hq. exact Hq.
      - auto.
      - intros ?. apply triple_throw. auto. }
  eapply triple_bind with (Q1 := fun _ => QuietAt p) (E1 := Fault).
  { apply triple_modify. intros w Hq. exact Hq. }
  { auto. }
  intros ?.
  eapply triple_bind with (Q1 := fun state w => state = Some v /\ QuietAt p w)
                          (E1 := Fault).
  { eapply triple_bind with (Q1 := fun o w => dataProvider w = p /\ o = Some v /\
                               Snap name Normal bs t f rows (Some v) (storage w))
                            (E1 := Fault).
    - eapply triple_conseq;
        [apply (triple_onStorage name bs t f rows v p), getLastProcessedState_spec
        | auto | auto | apply quietFailure_fault].
    - auto.
    - intros [st|].
      + eapply triple_bind with (Q1 := fun _ w => Some st = Some v /\ QuietAt p w)
                                (E1 := Fault).
        * apply triple_modify. intros w [Hp [Heq Hat]]. split; [exact Heq|].
          split; assumption.
        * auto.
        * intros ?. apply triple_ret. auto.
      + apply triple_ret. intros w [Hp [Heq Hat]]. discriminate. }
  { auto. }
  intros state.
  eapply triple_bind with (Q1 := fun _ w => state = Some v /\ QuietAt p w) (E1 := Fault).
  { apply triple_gets. auto. }
  { auto. }
  intros dateAdded_.
  eapply triple_bind with (Q1 := fun _ w => state = Some v /\ QuietAt p w) (E1 := Fault).
  { intros w r w' [Hstate Hq] Hrun.
    pose proof (triple_onStorage name bs t f rows v p _ _
                  (saveOrganization_spec name bs t f rows v
                     (mkOrganization address name 1 dateAdded_) eq_refl) w r w' Hq Hrun) as Hs.
    destruct r as [u|err|]; [| |exact Hs].
    - destruct Hs as [Hp Hat]. split; [exact Hstate|]. split; assumption.
    - eapply quietFailure_fault. exact Hs. }
  { auto. }
  intros ?.
  assert (Htruthy : truthy E = true).
  { unfold truthy. destruct (Z.eqb_spec E 0); [contradiction | reflexivity]. }
  rewrite Htruthy.
  eapply triple_bind with (Q1 := fun e w => e = E /\ state = Some v /\ QuietAt p w)
                          (E1 := Fault).
  { apply triple_ret. auto. }
  { auto. }
  intros endBlock_.
  eapply triple_bind with (Q1 := fun _ w => endBlock_ = E /\ state = Some v /\ QuietAt p1 w)
                          (E1 := Fault).
  { intros w r w' (-> & -> & Hq) Hrun.
    pose proof (triple_drained _ _ _ _ _ _ _ _ _ Hnormal Hfuel w r w' Hq Hrun) as Hs.
    destruct r; auto. }
  { auto. }
  intros ?.
  eapply triple_bind with (Q1 := fun _ w => endBlock_ = E /\ state = Some v /\ QuietAt p2 w)
                          (E1 := Fault).
  { destruct incInternal.
    - intros w r w' (-> & -> & Hq) Hrun.
      pose proof (triple_drained _ _ _ _ _ _ _ _ _ Hinternal (Hfuel2 eq_refl)
                    w r w' Hq Hrun) as Hs.
      destruct r; auto.
    - injection Hinternal as <-. apply triple_ret. auto. }
  { auto. }
  intros ?.
  eapply triple_bind with (Q1 := fun _ w => QuietAt p3 w) (E1 := Fault).
  { destruct incToken.
    - intros w r w' (-> & -> & Hq) Hrun.
      exact (triple_drained _ _ _ _ _ _ _ _ _ Htoken (Hfuel3 eq_refl) w r w' Hq Hrun).
    - injection Htoken as <-. apply triple_ret. intros w (_ & _ & Hq). exact Hq. }
  { auto. }
  intros ?. apply triple_modify. intros w Hq. exact Hq.
Qed.

End DrainFacts.

(** C4 (amended). A run of [analyzeOrganization] with [resume = true] on a
    persisted state collects each type from its stored cursor + 1 (from
    [startBlock] or 0 while the cursor is still 0) up to [endBlock].  When
    the cursor of every collected type has reached [endBlock], there is
    nothing to collect: the run makes no call to the provider and leaves
    the persisted state as it is; it ends, and on a file system without
    faults it returns.  Otherwise the run asks the provider for the first
    page of each window of what is left, type by type; when the provider
    has nothing to return for them, the run ends, the persisted state and
    the rows that were saved are as they were, and on a file system without
    faults the run returns and the provider has received exactly these
    calls. *)
Theorem resume_without_new_items_keeps_state :
  (forall (P : Type) (provider : BlockchainDataProvider P) fuel address name options
          (w w' : BlockchainService.World P FileSystemStorage.FS) v E r,
      FileSystemStorage.stateJson
        (FileSystemStorage.readDir (BlockchainService.storage w) name) = Some v ->
      BlockchainService.resume options = true ->
      BlockchainService.endBlock options = Some E -> 0 < E ->
      E <= lastBlock (normal (transactionTypes v)) ->
      (BlockchainService.includeInternalTransactions options = true ->
       E <= lastBlock (internal (transactionTypes v))) ->
      (BlockchainService.includeTokenTransfers options = true ->
       E <= lastBlock (tokenTransfers (transactionTypes v))) ->
      BlockchainService.analyzeOrganization fuel address name options w = (r, w') ->
      BlockchainService.dataProvider w' = BlockchainService.dataProvider w /\
      FileSystemStorage.stateJson
        (FileSystemStorage.readDir (BlockchainService.storage w') name) = Some v /\
      r <> OutOfFuel /\
      (Cursors.reliable (BlockchainService.storage w) -> r = Ret tt)) /\
  (forall (P : Type) (provider : BlockchainDataProvider P) fuel address name options
          (w w' : BlockchainService.World P FileSystemStorage.FS) v E r p1 p2 p3,
      FileSystemStorage.stateJson
        (FileSystemStorage.readDir (BlockchainService.storage w) name) = Some v ->
      BlockchainService.resume options = true ->
      BlockchainService.endBlock options = Some E -> E <> 0 ->
      Resume.drained
        (fun start end_ page =>
           getTransactions address (BlockchainService.pageQuery start end_ page))
        (Schedule.windows (BlockchainService.resumeStart options (Some v) normal) E)
        (BlockchainService.dataProvider w) = Some p1 ->
      (if BlockchainService.includeInternalTransactions options
       then Resume.drained
              (fun start end_ page =>
                 getInternalTransactions address
                   (BlockchainService.pageQuery start end_ page))
              (Schedule.windows (BlockchainService.resumeStart options (Some v) internal) E)
              p1
       else Some p1) = Some p2 ->
      (if BlockchainService.includeTokenTransfers options
       then Resume.drained
              (fun start end_ page =>
                 getTokenTransfers address (BlockchainService.pageQuery start end_ page))
              (Schedule.windows
                 (BlockchainService.resumeStart options (Some v) tokenTransfers) E)
              p2
       else Some p2) = Some p3 ->
      (length (Schedule.windows (BlockchainService.resumeStart options (Some v) normal) E)
       < fuel)%nat ->
      (BlockchainService.includeInternalTransactions options = true ->
       (length (Schedule.windows
                  (BlockchainService.resumeStart options (Some v) internal) E)
        < fuel)%nat) ->
      (BlockchainService.includeTokenTransfers options = true ->
       (length (Schedule.windows
                  (BlockchainService.resumeStart options (Some v) tokenTransfers) E)
        < fuel)%nat) ->
      BlockchainService.analyzeOrganization fuel address name options w = (r, w') ->
      FileSystemStorage.stateJson
        (FileSystemStorage.readDir (BlockchainService.storage w') name) = Some v /\
      Cursors.rowsOf name Normal (BlockchainService.storage w')
      = Cursors.rowsOf name Normal (BlockchainService.storage w) /\
      r <> OutOfFuel /\
      (r = Ret tt -> BlockchainService.dataProvider w' = p3) /\
      (Cursors.reliable (BlockchainService.storage w) -> r = Ret tt)).
Proof.
  split.
  - intros P provider fuel address name options w w' v E r Hstate Hresume Hend Hpos
           Hnormal Hinternal Htoken Hrun.
    pose proof (analyzeOrganization_quiet name
                  (FileSystemStorage.batchSize (BlockchainService.storage w))
                  (FileSystemStorage.now (BlockchainService.storage w))
                  (FileSystemStorage.faults (BlockchainService.storage w))
                  (Cursors.rowsOf name Normal (BlockchainService.storage w))
                  v (BlockchainService.dataProvider w)
                  fuel address options E Hresume Hend Hpos Hnormal Hinternal Htoken
                  w r w') as Hq.
    specialize (Hq ltac:(repeat split; try reflexivity; exact Hstate) Hrun).
    destruct r as [[]|e|]; [| |contradiction].
    + destruct Hq as [Hp (_ & _ & _ & _ & Hsj)].
      repeat split; try assumption; discriminate.
    + destruct Hq as [[n Hfault] [Hp (_ & _ & _ & _ & Hsj)]].
      repeat split; try assumption; [discriminate|].
      intros Hrel. rewrite Hrel in Hfault. discriminate.
  - intros P provider fuel address name options w w' v E r p1 p2 p3 Hstate Hresume Hend
           Hne Hnormal Hinternal Htoken Hfuel Hfuel2 Hfuel3 Hrun.
    pose proof (analyzeOrganization_drained name
                  (FileSystemStorage.batchSize (BlockchainService.storage w))
                  (FileSystemStorage.now (BlockchainService.storage w))
                  (FileSystemStorage.faults (BlockchainService.storage w))
                  (Cursors.rowsOf name Normal (BlockchainService.storage w))
                  v fuel address options E (BlockchainService.dataProvider w) p1 p2 p3
                  Hresume Hend Hne Hnormal Hinternal Htoken Hfuel Hfuel2 Hfuel3 w r w')
      as Hq.
    specialize (Hq ltac:(repeat split; try reflexivity; exact Hstate) Hrun).
    destruct r as [[]|e|]; [| |contradiction].
    + destruct Hq as [Hp (_ & _ & _ & Hrows & Hsj)].
      split; [exact Hsj|]. split; [exact Hrows|]. split; [discriminate|]. auto.
    + destruct Hq as [[n Hfault] (_ & _ & _ & Hrows & Hsj)].
      split; [exact Hsj|]. split; [exact Hrows|]. split; [discriminate|].
      split; [discriminate|].
      intros Hrel. rewrite Hrel in Hfault. discriminate.
Qed.

(** Two resumed collections of the address whose only transaction is in
    block 500.  The first one was collected up to block 500: the cursor has
    reached the end block and the resumed run asks for nothing.  The second
    one was collected up to block 1000: the resumed run asks for the window
    [501, 1000], is returned nothing, and leaves the state and the rows as
    they were. *)
Lemma resume_without_new_items_witness :
  (let '(r, w') := BlockchainService.analyzeOrganization 10 "0xabc" "ens"
                     (BlockchainService.mkOptions None (Some 500) false false true)
                     Scenarios.collectedTo500 in
   r = Ret tt /\
   BlockchainService.dataProvider w'
   = BlockchainService.dataProvider Scenarios.collectedTo500 /\
   Scenarios.stateOf "ens" w' = Scenarios.stateOf "ens" Scenarios.collectedTo500) /\
  (let '(r, w') := BlockchainService.analyzeOrganization 10 "0xabc" "ens"
                     (BlockchainService.mkOptions None (Some 1000) false false true)
                     Scenarios.collectedTo1000 in
   r = Ret tt /\
   Scenarios.stateOf "ens" w' = Scenarios.stateOf "ens" Scenarios.collectedTo1000 /\
   Scenarios.savedNormal "ens" w' = Scenarios.savedNormal "ens" Scenarios.collectedTo1000 /\
   BlockchainService.dataProvider w'
   = snd (EtherscanClient.getTransactions "0xabc"
            (BlockchainService.pageQuery 501 1000 1)
            (BlockchainService.dataProvider Scenarios.collectedTo1000))).
Proof.
  split.
  - destruct (BlockchainService.analyzeOrganization 10 "0xabc" "ens"
                (BlockchainService.mkOptions None (Some 500) false false true)
                Scenarios.collectedTo500) as [r w'] eqn:Hrun.
    destruct (Scenarios.stateOf "ens" Scenarios.collectedTo500) as [v|] eqn:Hv;
      [|vm_compute in Hv; discriminate].
    assert (Hcursor : lastBlock (normal (transactionTypes v)) = 500).
    { vm_compute in Hv. injection Hv as <-. reflexivity. }
    destruct (proj1 resume_without_new_items_keeps_state _ _ 10%nat "0xabc" "ens"
                (BlockchainService.mkOptions None (Some 500) false false true)
                Scenarios.collectedTo500 w' v 500 r
                Hv eq_refl eq_refl ltac:(lia) ltac:(rewrite Hcursor; lia)
                ltac:(discriminate) ltac:(discriminate) Hrun)
      as (Hp & Hs & _ & Hret).
    split; [apply Hret; intros n; reflexivity|]. split; [exact Hp | exact Hs].
  - destruct (BlockchainService.analyzeOrganization 10 "0xabc" "ens"
                (BlockchainService.mkOptions None (Some 1000) false false true)
                Scenarios.collectedTo1000) as [r w'] eqn:Hrun.
    destruct (Scenarios.stateOf "ens" Scenarios.collectedTo1000) as [v|] eqn:Hv;
      [|vm_compute in Hv; discriminate].
    assert (Hcursor : lastBlock (normal (transactionTypes v)) = 500).
    { vm_compute in Hv. injection Hv as <-. reflexivity. }
    assert (Hstart : BlockchainService.resumeStart
                       (BlockchainService.mkOptions None (Some 1000) false false true)
                       (Some v) normal = 501).
    { unfold BlockchainService.resumeStart. simpl. rewrite Hcursor. reflexivity. }
    destruct (proj2 resume_without_new_items_keeps_state _ _ 10%nat "0xabc" "ens"
                (BlockchainService.mkOptions None (Some 1000) false false true)
                Scenarios.collectedTo1000 w' v 1000 r
                (snd (EtherscanClient.getTransactions "0xabc"
                        (BlockchainService.pageQuery 501 1000 1)
                        (BlockchainService.dataProvider Scenarios.collectedTo1000)))
                _ _ Hv eq_refl eq_refl ltac:(discriminate)
                ltac:(rewrite Hstart; vm_compute; reflexivity) eq_refl eq_refl
                ltac:(rewrite Hstart; vm_compute; lia)
                ltac:(discriminate) ltac:(discriminate) Hrun)
      as (Hs & Hrows & _ & Hp & Hret).
    specialize (Hret ltac:(intros n; reflexivity)). specialize (Hp Hret).
    split; [exact Hret|]. split; [exact Hs|]. split; [exact Hrows | exact Hp].
Defined.

(** C4, as stated, fails in both parts.  The collection of an address whose
    only transaction is in block 500 completes up to block 1000 with one
    request and leaves the cursor at 500; resumed with the same end block
    it asks the provider again, for the window [501, 1000] (the persisted
    state stays as it is).  The collection of an address whose only
    transaction is in block 0 leaves the cursor at 0; resumed with the same
    end block it starts from block 0 again, fetches the transaction a
    second time and saves it a second time: the persisted state changes. *)
Lemma resume_fetches_after_cursor :
  (let '(r1, w1) := BlockchainService.analyzeOrganization 10 "0xabc" "ens"
                      (BlockchainService.mkOptions None (Some 1000) false false false)
                      (Scenarios.worldOf (Scenarios.clientOf Scenarios.oneAt500)) in
   r1 = Ret tt /\
   Scenarios.requestCount w1 = 1%nat /\
   Scenarios.normalCursorOf "ens" w1 = 500 /\
   (let '(r2, w2) := BlockchainService.analyzeOrganization 10 "0xabc" "ens"
                       (BlockchainService.mkOptions None (Some 1000) false false true)
                       w1 in
    r2 = Ret tt /\
    Scenarios.requestCount w2 = 2%nat /\
    Schedule.processedWindows (BlockchainService.trace w2) = [(0, 1000); (501, 1000)] /\
    Scenarios.stateOf "ens" w2 = Scenarios.stateOf "ens" w1)) /\
  (let '(r1, w1) := BlockchainService.analyzeOrganization 10 "0xabc" "ens"
                      (BlockchainService.mkOptions None (Some 1000) false false false)
                      (Scenarios.worldOf (Scenarios.clientOf Scenarios.oneAtGenesis)) in
   r1 = Ret tt /\
   Scenarios.requestCount w1 = 1%nat /\
   Scenarios.normalCursorOf "ens" w1 = 0 /\
   length (Scenarios.savedNormal "ens" w1) = 1%nat /\
   (totalTransactions <$> Scenarios.stateOf "ens" w1) = Some 1 /\
   (let '(r2, w2) := BlockchainService.analyzeOrganization 10 "0xabc" "ens"
                       (BlockchainService.mkOptions None (Some 1000) false false true)
                       w1 in
    r2 = Ret tt /\
    Scenarios.requestCount w2 = 2%nat /\
    length (Scenarios.savedNormal "ens" w2) = 2%nat /\
    (totalTransactions <$> Scenarios.stateOf "ens" w2) = Some 2 /\
    Scenarios.stateOf "ens" w2 <> Scenarios.stateOf "ens" w1)).
Proof.
  split.
  - vm_compute. repeat split; reflexivity.
  - vm_compute. repeat split; try reflexivity. discriminate.
Qed.

(** ** C9: the releases of [RateLimiter] *)


Section RateFacts.
Import RateLimiter Releases.
Local Open Scope Q_scope.

Lemma Qltb_true a b : Qltb a b = true <-> a < b.
Proof.
  unfold Qltb. rewrite negb_true_iff. split.
  - intros Hb. apply Qnot_le_lt. intros Hle. apply Qle_bool_iff in Hle. congruence.
  - intros Hlt. destruct (Qle_bool b a) eqn:Hb; [|reflexivity].
    apply Qle_bool_iff in Hb. apply Qlt_not_le in Hlt. contradiction.
Qed.

Lemma Qltb_false a b : Qltb a b = false <-> b <= a.
Proof.
  unfold Qltb. rewrite negb_false_iff. apply Qle_bool_iff.
Qed.

Lemma arrive_spec now calls arrived later :
  arrive now calls = (arrived, later) ->
  arrived ++ later = calls /\ Forall (fun c => arrival c <= now) arrived.
Proof.
  revert arrived later. induction calls as [|c rest IH]; intros arrived later Harr;
    simpl in Harr.
  - injection Harr as <- <-. split; [reflexivity | constructor].
  - destruct (Qle_bool (arrival c) now) eqn:Hc.
    + destruct (arrive now rest) as [a u]. injection Harr as <- <-.
      destruct (IH _ _ eq_refl) as [<- Hall]. split; [reflexivity|].
      constructor; [apply Qle_bool_iff; exact Hc | exact Hall].
    + injection Harr as <- <-. split; [reflexivity | constructor].
Qed.

Lemma linked_snoc {A} (R : A -> A -> Prop) l y :
  linked R l ->
  match last l with Some x => R x y | None => True end ->
  linked R (l ++ [y]).
Proof.
  induction l as [|x rest IH]; intros Hl Hlast; [exact I|].
  destruct rest as [|x' rest'].
  - simpl in *. auto.
  - change (R x x' /\ linked R ((x' :: rest') ++ [y])).
    destruct Hl as [Hxx' Hl]. split; [exact Hxx'|]. apply IH; [exact Hl | exact Hlast].
Qed.

Lemma linked_impl {A} (R R' : A -> A -> Prop) l :
  (forall x y, R x y -> R' x y) -> linked R l -> linked R' l.
Proof.
  intros Himpl. induction l as [|x rest IH]; [auto|].
  destruct rest as [|y rest']; [auto|].
  intros [Hxy Hl]. split; [auto | apply IH, Hl].
Qed.

Lemma await_spec ms l :
  exists arrived later,
    arrived ++ later = upcoming l /\
    Forall (fun c => arrival c <= clock l + ms) arrived /\
    await ms l = mkLimiter (requestsPerSecond l) (timeWindow l) (queue l ++ arrived)
                           (processing l) (lastRequestTime l) (clock l + ms) later
                           (released l).
Proof.
  unfold await. destruct (arrive (clock l + ms) (upcoming l)) as [arrived later] eqn:Harr.
  apply arrive_spec in Harr as [Happ Hall]. exists arrived, later. auto.
Qed.

Lemma Forall_arrival_le (now now' : Q) (cs : list Call) :
  now <= now' ->
  Forall (fun c => arrival c <= now) cs -> Forall (fun c => arrival c <= now') cs.
Proof.
  intros Hle Hall. eapply Forall_impl; [exact Hall|].
  intros c Hc. simpl in *. lra.
Qed.

(** One turn of the loop after the other, until the queue is empty. *)
Lemma processLoop_spec rps tw calls :
  Forall (fun c => 0 <= lateness c) calls ->
  forall fuel l,
    Inv rps tw calls l ->
    (length (queue l) + length (upcoming l) <= fuel)%nat ->
    exists l',
      processLoop fuel l = (Ret tt, l') /\
      Inv rps tw calls l' /\ queue l' = [] /\ processing l' = false /\
      (length (upcoming l') <= length (upcoming l))%nat.
Proof.
  intros Hlate. induction fuel as [|fuel IH]; intros l Hinv Hfuel.
  - destruct l as [r w q p lrt now up rel]. simpl in *.
    destruct q as [|c q]; [|simpl in Hfuel; lia].
    eexists. split; [reflexivity|]. split; [exact Hinv|]. simpl. auto.
  - destruct l as [r w q p lrt now up rel].
    destruct q as [|next q].
    { eexists. split; [reflexivity|]. split; [exact Hinv|]. simpl. auto. }
    destruct Hinv as (Hr & Hw & Hcalls & Hlinked & Hlast & Hdur). simpl in *. subst r w.
    assert (Hnext : 0 <= lateness next).
    { rewrite List.Forall_forall in Hlate. apply Hlate. rewrite <- Hcalls.
      apply in_or_app. right. left. reflexivity. }
    set (x := lrt + tw / rps - now) in *.
    (* the wait *)
    assert (Hwait : exists arrived later t2,
      arrived ++ later = up /\
      Forall (fun c => arrival c <= t2) arrived /\
      (if Qltb 0 (Qmax 0 x) then await (Qmax 0 x + lateness next)
                                   (mkLimiter rps tw (next :: q) p lrt now up rel)
       else mkLimiter rps tw (next :: q) p lrt now up rel)
      = mkLimiter rps tw (next :: q ++ arrived) p lrt t2 later rel /\
      now <= t2 /\ lrt + tw / rps <= t2 /\
      t2 <= Qmax now (lrt + tw / rps + lateness next)).
    { destruct (Qltb 0 (Qmax 0 x)) eqn:Hcmp.
      - apply Qltb_true in Hcmp.
        destruct (await_spec (Qmax 0 x + lateness next)
                    (mkLimiter rps tw (next :: q) p lrt now up rel))
          as (arrived & later & Happ & Hall & ->). simpl in *.
        exists arrived, later, (now + (Qmax 0 x + lateness next)).
        split; [exact Happ|]. split; [exact Hall|]. split; [reflexivity|].
        destruct (Q.max_spec 0 x) as [[Hx Hmax]|[Hx Hmax]];
          pose proof (Q.le_max_r now (lrt + tw / rps + lateness next));
          unfold x in *; repeat split; lra.
      - apply Qltb_false in Hcmp.
        exists [], up, now. rewrite app_nil_r.
        split; [reflexivity|]. split; [constructor|]. split; [reflexivity|].
        pose proof (Q.le_max_r 0 x). pose proof (Q.le_max_l now (lrt + tw / rps + lateness next)).
        unfold x in *. repeat split; lra. }
    destruct Hwait as (arrived & later & t2 & Happ & Harrived & Heq & Hnow & Hspace & Hupper).
    cbn [processLoop queue clock lastRequestTime timeWindow requestsPerSecond].
    fold x. rewrite Heq.
    cbn [queue clock requestsPerSecond timeWindow processing upcoming released].
    destruct (await_spec (duration next)
                (mkLimiter rps tw (q ++ arrived) p t2 t2 later (rel ++ [(next, t2)])))
      as (arrived2 & later2 & Happ2 & Harrived2 & ->). simpl in *.
    assert (Hinv' : Inv rps tw calls
              (mkLimiter rps tw ((q ++ arrived) ++ arrived2) p t2 (t2 + duration next)
                         later2 (rel ++ [(next, t2)]))).
    { unfold Inv. simpl. split; [reflexivity|]. split; [reflexivity|].
      split.
      { rewrite map_app. simpl. rewrite <- Hcalls, <- Happ, <- Happ2, <- !app_assoc.
        reflexivity. }
      split.
      { apply linked_snoc; [exact Hlinked|].
        destruct (last rel) as [[c t]|]; [|exact I].
        destruct Hlast as (-> & Hsettled & Hclock). unfold inTurn. simpl.
        split; [exact Hspace|]. split; [lra|].
        destruct (Q.max_spec (arrival next) (t + duration c)) as [[? Hm]|[? Hm]];
        destruct (Q.max_spec now (t + tw / rps + lateness next)) as [[? Hm2]|[? Hm2]];
        destruct (Q.max_spec (Qmax (arrival next) (t + duration c))
                             (t + tw / rps + lateness next)) as [[? Hm3]|[? Hm3]];
        lra. }
      split.
      { rewrite last_snoc. split; [reflexivity|]. split; [lra|].
        destruct ((q ++ arrived) ++ arrived2) as [|n' ?]; [lra|].
        apply Q.le_max_r. }
      intros Hd. specialize (Hdur Hd). destruct Hdur as [Hq Hrel].
      assert (Hdnext : 0 <= duration next).
      { rewrite List.Forall_forall in Hd. apply Hd. rewrite <- Hcalls.
        apply in_or_app. right. left. reflexivity. }
      inversion Hq as [|? ? Hanext Hq']; subst.
      split.
      - rewrite !Forall_app. repeat split.
        + eapply Forall_arrival_le; [|exact Hq']. lra.
        + eapply Forall_arrival_le; [|exact Harrived]. lra.
        + exact Harrived2.
      - rewrite Forall_app. split; [exact Hrel|]. constructor; [|constructor].
        simpl. lra. }
    destruct (IH _ Hinv') as (l' & Hrun & Hinv'' & Hq' & Hp' & Hup).
    { simpl. rewrite !length_app. rewrite <- Happ, <- Happ2, !length_app in Hfuel.
      simpl in Hfuel. lia. }
    exists l'. split; [exact Hrun|]. split; [exact Hinv''|]. split; [exact Hq'|].
    split; [exact Hp'|]. simpl in Hup. rewrite <- Happ, <- Happ2, !length_app. lia.
Qed.

(** The tasks hand over their calls one after the other, and the loop
    releases them all. *)
Lemma run_spec rps tw calls :
  Forall (fun c => 0 <= lateness c) calls ->
  forall fuel l,
    Inv rps tw calls l -> queue l = [] -> processing l = false ->
    (length (upcoming l) < fuel)%nat ->
    exists l',
      run fuel l = (Ret tt, l') /\
      Inv rps tw calls l' /\ queue l' = [] /\ upcoming l' = [].
Proof.
  intros Hlate. induction fuel as [|fuel IH]; intros l Hinv Hq Hp Hfuel; [lia|].
  destruct l as [r w q p lrt now up rel]. simpl in Hq, Hp, Hfuel. subst q p.
  destruct up as [|c later].
  { eexists. split; [reflexivity|]. auto. }
  cbn [run upcoming requestsPerSecond timeWindow queue processing lastRequestTime clock
       released].
  unfold schedule, push, processQueue, setProcessing.
  cbn [upcoming requestsPerSecond timeWindow queue processing lastRequestTime clock
       released app].
  destruct Hinv as (Hr & Hw & Hcalls & Hlinked & Hlast & Hdur). simpl in *.
  destruct (processLoop_spec rps tw calls Hlate fuel
              (mkLimiter r w [c] true lrt (Qmax now (arrival c)) later rel))
    as (l1 & Hrun & Hinv1 & Hq1 & Hp1 & Hup1).
  { unfold Inv. simpl. split; [exact Hr|]. split; [exact Hw|]. split; [exact Hcalls|].
    split; [exact Hlinked|]. split.
    - destruct (last rel) as [[c0 t]|]; [|exact I].
      destruct Hlast as (-> & Hsettled & Hclock).
      split; [reflexivity|].
      destruct (Q.max_spec now (arrival c)) as [[? Hm]|[? Hm]];
      destruct (Q.max_spec (arrival c) (t + duration c0)) as [[? Hm2]|[? Hm2]];
      split; lra.
    - intros Hd. destruct (Hdur Hd) as [_ Hrel]. split; [|exact Hrel].
      constructor; [apply Q.le_max_r | constructor]. }
  { simpl. simpl in Hfuel. lia. }
  rewrite Hrun.
  destruct (IH l1 Hinv1 Hq1 Hp1) as (l' & Hrun' & Hinv' & Hq' & Hup').
  { simpl in Hup1. lia. }
  exists l'. auto.
Qed.

End RateFacts.

(** C9 (amended). A limiter for [requestsPerSecond] calls per [timeWindow]
    milliseconds ([requestsPerSecond] not 0) releases the calls handed to
    [schedule] one at a time and in the order in which they were handed
    over, whenever they arrive and however long they take; with fuel for
    each of them the run ends when all are released.  As long as no timer
    fires early, two calls released one after the other are at least
    [timeWindow / requestsPerSecond] milliseconds apart (200 ms for 5 calls
    per 1000 ms).  A call is not released before the call released before
    it has settled, and it is released no later than the latest of its own
    arrival, the settling of the call before it and the end of the least
    distance since the last release, to which the lateness of the timer is
    added; so a call is delayed exactly to the end of the least distance
    when it has arrived and the call before it has settled by then and the
    timer is on time, and longer otherwise.  When no call takes a negative
    time, no call is released before it was handed over. *)
Theorem processQueue_spaces_releases :
  forall (requestsPerSecond : Q) (timeWindow : option Q) (now : Q)
         (calls : list RateLimiter.Call) fuel,
    ~ (requestsPerSecond == 0)%Q ->
    Forall (fun c => (0 <= RateLimiter.lateness c)%Q) calls ->
    (length calls < fuel)%nat ->
    exists l',
      RateLimiter.run fuel (RateLimiter.create requestsPerSecond timeWindow now calls)
      = (Ret tt, l') /\
      map fst (RateLimiter.released l') = calls /\
      RateLimiter.queue l' = [] /\ RateLimiter.upcoming l' = [] /\
      Releases.linked
        (fun x y => (snd x + default 1000 timeWindow / requestsPerSecond <= snd y)%Q)
        (RateLimiter.released l') /\
      (requestsPerSecond == 5 -> default 1000 timeWindow == 1000 ->
       Releases.linked (fun x y => snd x + 200 <= snd y) (RateLimiter.released l'))%Q /\
      Releases.linked
        (fun x y =>
           (snd x + RateLimiter.duration (fst x) <= snd y /\
            snd y <= Qmax (Qmax (RateLimiter.arrival (fst y))
                                (snd x + RateLimiter.duration (fst x)))
                          (snd x + default 1000 timeWindow / requestsPerSecond
                           + RateLimiter.lateness (fst y)))%Q)
        (RateLimiter.released l') /\
      (Forall (fun c => (0 <= RateLimiter.duration c)%Q) calls ->
       Forall (fun x => (RateLimiter.arrival (fst x) <= snd x)%Q)
              (RateLimiter.released l')).
Proof.
  intros rps timeWindow now calls fuel Hrps Hlate Hfuel.
  set (tw := default 1000%Q timeWindow).
  destruct (run_spec rps tw calls Hlate fuel (RateLimiter.create rps timeWindow now calls))
    as (l' & Hrun & Hinv & Hq & Hup); try reflexivity; try exact Hfuel.
  { unfold Releases.Inv, RateLimiter.create. simpl.
    repeat split; try reflexivity; constructor. }
  destruct Hinv as (_ & _ & Hcalls & Hlinked & _ & Hdur).
  rewrite Hq, Hup, !app_nil_r in Hcalls.
  exists l'. split; [exact Hrun|]. split; [exact Hcalls|]. split; [exact Hq|].
  split; [exact Hup|]. split.
  { eapply linked_impl; [|exact Hlinked]. intros x y (Hs & _). exact Hs. }
  split.
  { intros H5 H1000. eapply linked_impl; [|exact Hlinked]. intros x y (Hs & _).
    assert (Hd : (tw / rps == 200)%Q) by (rewrite H5, H1000; reflexivity).
    rewrite Hd in Hs. exact Hs. }
  split.
  { eapply linked_impl; [|exact Hlinked]. intros x y (_ & Hsettled & Hupper).
    split; assumption. }
  intros Hd. apply Hdur, Hd.
Qed.

(** Three calls through a limiter for 5 calls per 1000 ms, the default
    window: the second one arrives 10 ms after the first, the third one
    much later; the timers fire 3 ms late. *)
Lemma processQueue_spaces_releases_witness :
  exists l',
    RateLimiter.run 4
      (RateLimiter.create 5 None 1000000
         [RateLimiter.mkCall 1 1000000 3 50; RateLimiter.mkCall 2 1000010 3 20;
          RateLimiter.mkCall 3 1002000 0 10])
    = (Ret tt, l') /\
    map fst (RateLimiter.released l')
    = [RateLimiter.mkCall 1 1000000 3 50; RateLimiter.mkCall 2 1000010 3 20;
       RateLimiter.mkCall 3 1002000 0 10] /\
    Releases.linked (fun x y => snd x + 200 <= snd y)%Q (RateLimiter.released l').
Proof.
  destruct (processQueue_spaces_releases 5 None 1000000
              [RateLimiter.mkCall 1 1000000 3 50; RateLimiter.mkCall 2 1000010 3 20;
               RateLimiter.mkCall 3 1002000 0 10] 4)
    as (l' & Hrun & Hcalls & _ & _ & _ & H200 & _).
  - intros H. discriminate H.
  - repeat constructor; simpl; discriminate.
  - simpl. lia.
  - exists l'. split; [exact Hrun|]. split; [exact Hcalls|].
    apply H200; reflexivity.
Defined.

(** C9, as stated, fails in its last part: a call can be delayed more than
    the interval asks for.  Through a limiter for 5 calls per 1000 ms, a
    call that takes 1000 ms is released at 1000000; a second call arrives
    100 ms later, before the 200 ms have passed.  It is released at
    1001000, when the first call has settled, and not at 1000200: the loop
    awaits the call in flight before it looks at the queue again. *)
Lemma queued_call_waits_for_call_in_flight :
  let '(r, l') := RateLimiter.run 3
                    (RateLimiter.create 5 (Some 1000%Q) 1000000
                       [RateLimiter.mkCall 1 1000000 0 1000;
                        RateLimiter.mkCall 2 1000100 0 0]) in
  r = Ret tt /\
  RateLimiter.released l'
  = [(RateLimiter.mkCall 1 1000000 0 1000, 1000000%Q);
     (RateLimiter.mkCall 2 1000100 0 0, 1001000%Q)] /\
  (Releases.minInterval l' == 200)%Q /\
  (1000100 < 1000000 + 200 /\ 1000000 + 200 < 1001000)%Q.
Proof. vm_compute. repeat split; reflexivity. Qed.
